(** * Environmental monitor: evaluation engine, outside-conditions provider
      and persistence reconciler of [app.py]

    The development embeds the core of [app.py] and settles the properties
    stated about it.

    - Readings are pandas [float64] cells: they are modelled by Rocq's
      primitive binary64 floats, so that [NaN] ("no value" after
      [pd.to_numeric(errors="coerce")]), comparisons and subtraction are the
      IEEE-754 ones the program runs.
    - A [datetime64[ns]] cell is an [option Z] (nanoseconds since the epoch,
      [None] for [NaT]); a text cell is an [option string] ([None] for a
      missing cell).
    - A data frame is the list of its rows, in index order.
    - Files, the remote object store, HTTP responses and [st.warning] are
      explicit state and explicit outcomes; a call that can raise returns
      an outcome, and an exception that no [try] block of the source
      catches is an outcome of the function.

    What is taken for granted about the libraries: [sort_values] on several
    keys is a stable sort with missing keys last; [groupby] leaves rows with
    a missing key out of every group; the difference of two timestamps
    raises [OverflowError] when its nanosecond count does not fit in 64
    bits, and [total_seconds] is that count, as a float, divided by [10^9];
    calls on the local file system ([os.makedirs], [to_csv],
    [os.path.getmtime]) do not raise; a CSV text is taken for what
    [pd.read_csv] makes of it, and the text [to_csv] writes for the frame
    it was written from. *)

From Stdlib Require Import ZArith List Bool String Ascii Lia.
From Stdlib Require Import Floats.
From Stdlib Require Uint63 DecimalString OrderedTypeEx.
From Stdlib Require Import Permutation Sorted.
Import ListNotations.

Set Implicit Arguments.

(* ================================================================= *)
(** * Part I: the program *)
(* ================================================================= *)

(* ================================================================= *)
(** * Binary64 cells *)
(* ================================================================= *)

Module F64.

Local Open Scope float_scope.

(** [pd.notna] / [pd.isna] on a float cell. *)
Definition isna (x : float) : bool := is_nan x.
Definition notna (x : float) : bool := negb (is_nan x).

(** Python's chained comparison [lo <= x <= hi]. *)
Definition between (lo x hi : float) : bool := (lo <=? x) && (x <=? hi).

(** The order of [SFcompare] read through an integer key: the class of the
    number first, then exponent and mantissa (mirrored for negatives). *)
Definition key (x : spec_float) : option (Z * Z * Z) :=
  match x with
  | S754_nan => None
  | S754_infinity true => Some (-2, 0, 0)%Z
  | S754_infinity false => Some (2, 0, 0)%Z
  | S754_zero _ => Some (0, 0, 0)%Z
  | S754_finite true m e => Some (-1, - e, - Z.pos m)%Z
  | S754_finite false m e => Some (1, e, Z.pos m)%Z
  end.

Definition lex3 (a b : Z * Z * Z) : comparison :=
  let '(a1, a2, a3) := a in
  let '(b1, b2, b3) := b in
  match (a1 ?= b1)%Z with
  | Eq => match (a2 ?= b2)%Z with
          | Eq => (a3 ?= b3)%Z
          | c => c
          end
  | c => c
  end.

Definition key_compare (x y : spec_float) : option comparison :=
  match key x, key y with
  | Some a, Some b => Some (lex3 a b)
  | _, _ => None
  end.

(** The Prop reading of the three comparisons on keys. *)
Definition klt (a b : Z * Z * Z) : Prop :=
  let '(a1, a2, a3) := a in
  let '(b1, b2, b3) := b in
  (a1 < b1 \/ (a1 = b1 /\ (a2 < b2 \/ (a2 = b2 /\ a3 < b3))))%Z.

Definition kle (a b : Z * Z * Z) : Prop :=
  let '(a1, a2, a3) := a in
  let '(b1, b2, b3) := b in
  (a1 < b1 \/ (a1 = b1 /\ (a2 < b2 \/ (a2 = b2 /\ a3 <= b3))))%Z.

End F64.

(* ================================================================= *)
(** * Text rendering of floats: Python's [.1f] and [+.1f] *)
(* ================================================================= *)

Module Fmt.

Local Open Scope Z_scope.

Definition digits (n : Z) : string :=
  DecimalString.NilZero.string_of_uint (N.to_uint (Z.to_N n)).

(** The number of tenths nearest to [m * 2^e], ties to the even one: the
    correctly rounded decimal that Python's float formatting prints. *)
Definition round_tenths (m : positive) (e : Z) : Z :=
  let n := 10 * Z.pos m in
  if 0 <=? e then n * 2 ^ e
  else
    let d := 2 ^ (- e) in
    let q := n / d in
    let r := n mod d in
    if 2 * r <? d then q
    else if d <? 2 * r then q + 1
    else if Z.even q then q else q + 1.

Definition tenths_text (n : Z) : string :=
  (digits (n / 10) ++ "." ++ digits (n mod 10))%string.

Definition unsigned_1f (x : spec_float) : string :=
  match x with
  | S754_nan => "nan"
  | S754_infinity _ => "inf"
  | S754_zero _ => "0.0"
  | S754_finite _ m e => tenths_text (round_tenths m e)
  end.

Definition sign_bit (x : spec_float) : bool :=
  match x with
  | S754_nan => false
  | S754_infinity s | S754_zero s | S754_finite s _ _ => s
  end.

(** [f"{x:.1f}"] *)
Definition format_1f (x : float) : string :=
  let s := Prim2SF x in
  ((if sign_bit s then "-" else "") ++ unsigned_1f s)%string.

(** [f"{x:+.1f}"] *)
Definition format_signed_1f (x : float) : string :=
  let s := Prim2SF x in
  ((if sign_bit s then "-" else "+") ++ unsigned_1f s)%string.

End Fmt.

(* ================================================================= *)
(** * Data model *)
(* ================================================================= *)

(** One row of the measurement log, with the columns of [empty_frame]. *)
Record Measurement : Type := {
  id : option string;
  datetime : option Z;
  location : option string;
  temp_c : float;
  rh : float;
  lux : float;
  uv : float;
  co2 : float;
  outside_time : option string;
  outside_temp_c : float;
  outside_rh : float;
  outside_dew_point_c : float;
  notes : option string
}.

(** [GUIDELINES] (field [g_temp_min] is [GUIDELINES["temp"]["min"]], and so
    on) and the outside-delta thresholds. *)
Record Guidelines : Type := {
  g_temp_min : float;
  g_temp_max : float;
  g_temp_delta : float;
  g_rh_core : float * float;
  g_rh_outer : float * float;
  g_rh_delta : float
}.

Definition GUIDELINES : Guidelines := {|
  g_temp_min := 15%float;
  g_temp_max := 25%float;
  g_temp_delta := 4%float;
  g_rh_core := (45, 55)%float;
  g_rh_outer := (40, 60)%float;
  g_rh_delta := 5%float
|}.

Definition OUTSIDE_TEMP_DELTA_WARN : float := 6.0%float.
Definition OUTSIDE_RH_DELTA_WARN : float := 15.0%float.

Inductive RangeStatus : Type := core | outer | out.

Definition RangeStatus_eqb (a b : RangeStatus) : bool :=
  match a, b with
  | core, core | outer, outer | out, out => true
  | _, _ => false
  end.

(** A row after the four [shift]/difference columns have been added. *)
Record ShiftedRow : Type := {
  base : Measurement;
  prev_temp : float;
  prev_rh : float;
  prev_time : option Z;
  delta_hours : float
}.

(** A row of the frame [evaluate_records] returns. *)
Record Evaluated : Type := {
  row : ShiftedRow;
  range_status : RangeStatus;
  flags : list string
}.

(* ================================================================= *)
(** * Exceptions and outcomes *)
(* ================================================================= *)

(** The exceptions the modelled calls raise.  [except Exception] catches
    every one of them; [except ClientError] and [except EmptyDataError]
    catch their own. *)
Inductive Exn : Type :=
  | ClientError (code : option string)
  | EmptyDataError
  | AttributeError
  | Exception (what : string).

Inductive Outcome (A : Type) : Type :=
  | Returned (a : A)
  | Raised (e : Exn).

Arguments Returned {A} a.
Arguments Raised {A} e.

(* ================================================================= *)
(** * [evaluate_records] *)
(* ================================================================= *)

(** ** [sort_values(["location", "datetime"])] *)

(** Missing keys sort last ([na_position="last"]). *)
Definition na_last_compare {A : Type} (cmp : A -> A -> comparison)
    (a b : option A) : comparison :=
  match a, b with
  | Some x, Some y => cmp x y
  | Some _, None => Lt
  | None, Some _ => Gt
  | None, None => Eq
  end.

Definition sort_compare (r1 r2 : Measurement) : comparison :=
  match na_last_compare String.compare (location r1) (location r2) with
  | Eq => na_last_compare Z.compare (datetime r1) (datetime r2)
  | c => c
  end.

Definition sort_leb (r1 r2 : Measurement) : bool :=
  match sort_compare r1 r2 with
  | Gt => false
  | _ => true
  end.

(** The sort is stable: a row goes in front of the first row that is not
    smaller, so rows with equal keys keep their frame order. *)
Fixpoint insert_row (r : Measurement) (l : list Measurement)
    : list Measurement :=
  match l with
  | [] => [r]
  | x :: l' => if sort_leb r x then r :: l else x :: insert_row r l'
  end.

Fixpoint sort_values (df : list Measurement) : list Measurement :=
  match df with
  | [] => []
  | r :: df' => insert_row r (sort_values df')
  end.

(** ** [groupby("location")[col].shift(1)] *)

(** Rows with a missing location belong to no group. *)
Definition same_location (r x : Measurement) : bool :=
  match location r, location x with
  | Some a, Some b => String.eqb a b
  | _, _ => false
  end.

(** The previous row of the same group; [seen] holds the rows above [r],
    nearest first. *)
Definition prior_in_group (seen : list Measurement) (r : Measurement)
    : option Measurement :=
  find (same_location r) seen.

(** ** [delta_hours] *)

(** One cell of [df["datetime"] - df["prev_time"]].  The difference of two
    timestamps is an [int64] count of nanoseconds, strictly between [-2^63]
    (the bit pattern of [NaT]) and [2^63]: the subtraction raises
    [OverflowError] when the count does not fit, and gives [NaT] when either
    side is [NaT].  The frame being sorted, the prior row is never the
    later one and the count is never negative. *)
Definition timedelta (t prev : option Z) : Outcome (option Z) :=
  match t, prev with
  | Some a, Some b =>
      if ((- 2 ^ 63 <? a - b) && (a - b <? 2 ^ 63))%Z
      then Returned (Some (a - b)%Z)
      else Raised (Exception "OverflowError"%string)
  | _, _ => Returned None
  end.

(** An integer as the nearest binary64 float, ties to even: the conversion
    of an [int64] array to [float64]. *)
Definition float_of_Z (z : Z) : float :=
  SF2Prim (binary_normalize prec emax z 0 false).

(** [.dt.total_seconds() / 3600]: the nanosecond count divided by [10^9],
    then by [3600]; [NaN] for [NaT]. *)
Definition total_hours (d : option Z) : float :=
  match d with
  | Some n => (float_of_Z n / 1e9 / 3600)%float
  | None => nan
  end.

(** [(datetime - prev_time).dt.total_seconds() / 3600] *)
Definition timedelta_hours (t prev : option Z) : Outcome float :=
  match timedelta t prev with
  | Returned d => Returned (total_hours d)
  | Raised e => Raised e
  end.

(** The four added columns of one row; [seen] holds the rows above it. *)
Definition shift_row (seen : list Measurement) (r : Measurement)
    : Outcome ShiftedRow :=
  let prior := prior_in_group seen r in
  let pt := match prior with Some p => datetime p | None => None end in
  match timedelta_hours (datetime r) pt with
  | Returned dh =>
      Returned
        {| base := r;
           prev_temp := match prior with Some p => temp_c p | None => nan end;
           prev_rh := match prior with Some p => rh p | None => nan end;
           prev_time := pt;
           delta_hours := dh |}
  | Raised e => Raised e
  end.

(** The columns are whole-frame operations: one cell that overflows makes
    the subtraction raise for the frame. *)
Fixpoint shift_columns (seen df : list Measurement)
    : Outcome (list ShiftedRow) :=
  match df with
  | [] => Returned []
  | r :: df' =>
      match shift_row seen r with
      | Returned s =>
          match shift_columns (r :: seen) df' with
          | Returned rest => Returned (s :: rest)
          | Raised e => Raised e
          end
      | Raised e => Raised e
      end
  end.

(** ** [classify] *)

Section Classify.

Local Open Scope string_scope.
Local Open Scope float_scope.
Local Open Scope list_scope.

(** The six blocks of [classify], each taking the status and the flags so
    far and returning them updated, in the order of the source. *)

Definition temp_block (r : ShiftedRow) (st : RangeStatus * list string)
    : RangeStatus * list string :=
  let '(range_status, flags) := st in
  if (temp_c (base r) <? g_temp_min GUIDELINES)
     || (g_temp_max GUIDELINES <? temp_c (base r))
  then (out, flags ++ ["Temp out of range|danger"])
  else (range_status, flags).

Definition rh_block (r : ShiftedRow) (st : RangeStatus * list string)
    : RangeStatus * list string :=
  let '(range_status, flags) := st in
  let '(rh_core_min, rh_core_max) := g_rh_core GUIDELINES in
  let '(rh_outer_min, rh_outer_max) := g_rh_outer GUIDELINES in
  if (rh (base r) <? rh_core_min) || (rh_core_max <? rh (base r)) then
    if F64.between rh_outer_min (rh (base r)) rh_outer_max then
      ((if negb (RangeStatus_eqb range_status out) then outer
        else range_status),
       flags ++ ["RH in outer band|warn"])
    else (out, flags ++ ["RH out of range|danger"])
  else (range_status, flags).

Definition mould_block (r : ShiftedRow) (st : RangeStatus * list string)
    : RangeStatus * list string :=
  let '(range_status, flags) := st in
  if 70 <=? rh (base r) then (range_status, flags ++ ["Mould risk|danger"])
  else (range_status, flags).

Definition outside_temp_block (r : ShiftedRow)
    (st : RangeStatus * list string) : RangeStatus * list string :=
  let '(range_status, flags) := st in
  if F64.notna (outside_temp_c (base r)) then
    let delta_temp := temp_c (base r) - outside_temp_c (base r) in
    if OUTSIDE_TEMP_DELTA_WARN <? abs delta_temp then
      (range_status,
       flags ++ [("Temp delta vs outside " ++ Fmt.format_signed_1f delta_temp
                  ++ " C|warn")%string])
    else (range_status, flags)
  else (range_status, flags).

Definition outside_rh_block (r : ShiftedRow)
    (st : RangeStatus * list string) : RangeStatus * list string :=
  let '(range_status, flags) := st in
  if F64.notna (outside_rh (base r)) then
    let delta_rh := rh (base r) - outside_rh (base r) in
    if OUTSIDE_RH_DELTA_WARN <? abs delta_rh then
      (range_status,
       flags ++ [("RH delta vs outside " ++ Fmt.format_signed_1f delta_rh
                  ++ "%|warn")%string])
    else (range_status, flags)
  else (range_status, flags).

(** The two drift magnitudes: a missing prior value gives a drift of [0]. *)
Definition temp_drift (r : ShiftedRow) : float :=
  if F64.notna (prev_temp r) then abs (temp_c (base r) - prev_temp r) else 0.

Definition rh_drift (r : ShiftedRow) : float :=
  if F64.notna (prev_rh r) then abs (rh (base r) - prev_rh r) else 0.

Definition temp_drift_flag (d : float) : string :=
  ("Temp drift " ++ Fmt.format_1f d ++ " C/24h|warn")%string.

Definition rh_drift_flag (d : float) : string :=
  ("RH drift " ++ Fmt.format_1f d ++ "%/24h|warn")%string.

Definition drift_block (r : ShiftedRow) (st : RangeStatus * list string)
    : RangeStatus * list string :=
  let '(range_status, flags) := st in
  if F64.notna (delta_hours r) && (delta_hours r <=? 24) then
    let temp_delta := temp_drift r in
    let rh_delta := rh_drift r in
    let flags :=
      if g_temp_delta GUIDELINES <? temp_delta
      then flags ++ [temp_drift_flag temp_delta] else flags in
    let flags :=
      if g_rh_delta GUIDELINES <? rh_delta
      then flags ++ [rh_drift_flag rh_delta] else flags in
    (range_status, flags)
  else (range_status, flags).

Definition classify (r : ShiftedRow) : RangeStatus * list string :=
  drift_block r
    (outside_rh_block r
       (outside_temp_block r
          (mould_block r
             (rh_block r
                (temp_block r (core, [])))))).

End Classify.

(** ** The whole pass *)

Definition apply_classify (r : ShiftedRow) : Evaluated :=
  {| row := r;
     range_status := fst (classify r);
     flags := snd (classify r) |}.

(** An empty frame is returned as it is; otherwise the frame is sorted, the
    shifted columns are added and every row is classified. *)
Definition evaluate_records (df : list Measurement)
    : Outcome (list Evaluated) :=
  match df with
  | [] => Returned []
  | _ =>
      match shift_columns [] (sort_values df) with
      | Returned rows => Returned (map apply_classify rows)
      | Raised e => Raised e
      end
  end.

(** The original columns of an evaluated row. *)
Definition measurement_of (e : Evaluated) : Measurement := base (row e).

(* ================================================================= *)
(** * Observations used to state the properties *)
(* ================================================================= *)

Section Observations.

Local Open Scope string_scope.
Local Open Scope float_scope.
Local Open Scope list_scope.

(** What each block contributes, read off the source. *)

Definition temp_out (m : Measurement) : bool :=
  (temp_c m <? 15) || (25 <? temp_c m).

Definition rh_outside_core (m : Measurement) : bool :=
  (rh m <? 45) || (55 <? rh m).

Definition temp_flags (r : ShiftedRow) : list string :=
  if temp_out (base r) then ["Temp out of range|danger"] else [].

Definition rh_flags (r : ShiftedRow) : list string :=
  if rh_outside_core (base r) then
    if F64.between 40 (rh (base r)) 60 then ["RH in outer band|warn"]
    else ["RH out of range|danger"]
  else [].

Definition mould_flags (r : ShiftedRow) : list string :=
  if 70 <=? rh (base r) then ["Mould risk|danger"] else [].

Definition outside_temp_flags (r : ShiftedRow) : list string :=
  snd (outside_temp_block r (core, [])).

Definition outside_rh_flags (r : ShiftedRow) : list string :=
  snd (outside_rh_block r (core, [])).

Definition drift_window (r : ShiftedRow) : bool :=
  F64.notna (delta_hours r) && (delta_hours r <=? 24).

Definition drift_flags (r : ShiftedRow) : list string :=
  if drift_window r then
    (if 4 <? temp_drift r then [temp_drift_flag (temp_drift r)] else [])
    ++ (if 5 <? rh_drift r then [rh_drift_flag (rh_drift r)] else [])
  else [].

Definition status_after_temp (r : ShiftedRow) : RangeStatus :=
  if temp_out (base r) then out else core.

Definition status_after_rh (r : ShiftedRow) : RangeStatus :=
  if rh_outside_core (base r) then
    if F64.between 40 (rh (base r)) 60 then
      match status_after_temp r with out => out | _ => outer end
    else out
  else status_after_temp r.

(** The kinds of flag, told apart by how the label starts. *)
Fixpoint starts_with (p s : string) : bool :=
  match p with
  | EmptyString => true
  | String a p' =>
      match s with
      | EmptyString => false
      | String b s' => Ascii.eqb a b && starts_with p' s'
      end
  end.

Definition is_temp_drift_flag (f : string) : bool :=
  starts_with "Temp drift " f.
Definition is_rh_drift_flag (f : string) : bool :=
  starts_with "RH drift " f.
Definition is_drift_flag (f : string) : bool :=
  is_temp_drift_flag f || is_rh_drift_flag f.

(** The magnitude compared with a drift limit: the absolute difference with
    the prior row's value, and [0] when that value is missing. *)
Definition drift_against (now prior : float) : float :=
  if F64.notna prior then abs (now - prior) else 0.

(** The rows of a frame that [evaluate_records] returns, read off the
    source: the cell [delta_hours] of a row, the row with its added columns,
    the frame of them and its classification.  They say nothing of a frame
    whose subtraction raises. *)
Definition hours_between (t prev : option Z) : float :=
  match timedelta_hours t prev with
  | Returned dh => dh
  | Raised _ => nan
  end.

Definition shifted_row (seen : list Measurement) (r : Measurement)
    : ShiftedRow :=
  let prior := prior_in_group seen r in
  let pt := match prior with Some p => datetime p | None => None end in
  {| base := r;
     prev_temp := match prior with Some p => temp_c p | None => nan end;
     prev_rh := match prior with Some p => rh p | None => nan end;
     prev_time := pt;
     delta_hours := hours_between (datetime r) pt |}.

Fixpoint shifted_columns (seen df : list Measurement) : list ShiftedRow :=
  match df with
  | [] => []
  | r :: df' => shifted_row seen r :: shifted_columns (r :: seen) df'
  end.

Definition evaluated_rows (df : list Measurement) : list Evaluated :=
  map apply_classify (shifted_columns [] (sort_values df)).

(** The timestamps of a frame, and whether any two of them are less than
    [2^63] nanoseconds (some 292 years) apart. *)
Definition timestamps (df : list Measurement) : list Z :=
  flat_map (fun r => match datetime r with Some t => [t] | None => [] end) df.

Definition timestamps_fit (df : list Measurement) : bool :=
  forallb (fun a => forallb (fun b => (Z.abs (a - b) <? 2 ^ 63)%Z)
                      (timestamps df))
          (timestamps df).

(** The flag lists of a returned frame, in row order. *)
Definition flags_of (o : Outcome (list Evaluated))
    : Outcome (list (list string)) :=
  match o with
  | Returned rows => Returned (map flags rows)
  | Raised e => Raised e
  end.

End Observations.

(** A three-way comparison that is a strict total order. *)
Class OrderCompare {A : Type} (cmp : A -> A -> comparison) : Prop := {
  cmp_refl : forall a, cmp a a = Eq;
  cmp_eq : forall a b, cmp a b = Eq -> a = b;
  cmp_antisym : forall a b, cmp b a = CompOpp (cmp a b);
  cmp_lt_trans : forall a b c, cmp a b = Lt -> cmp b c = Lt -> cmp a c = Lt
}.

(** Lexicographic comparison of a pair of keys. *)
Definition lex_compare {A B : Type} (ca : A -> A -> comparison)
    (cb : B -> B -> comparison) (x y : A * B) : comparison :=
  match ca (fst x) (fst y) with
  | Eq => cb (snd x) (snd y)
  | c => c
  end.

(** The sort key of a row. *)
Definition sort_key (r : Measurement) : option string * option Z :=
  (location r, datetime r).

(** [a] does not come after [b] in (location, datetime) order. *)
Definition key_le (a b : Measurement) : Prop := sort_leb a b = true.

(* ================================================================= *)
(** * The drift as the specification words it *)
(* ================================================================= *)

(** The specification computes [|temperature_c - prior_temperature|] with a
    missing prior value read as zero.  These two definitions follow those
    words; they are compared with [temp_drift] and [rh_drift], which follow
    the source. *)
Definition worded_temp_drift (r : ShiftedRow) : float :=
  abs (temp_c (base r)
       - (if F64.notna (prev_temp r) then prev_temp r else 0))%float.

Definition worded_rh_drift (r : ShiftedRow) : float :=
  abs (rh (base r) - (if F64.notna (prev_rh r) then prev_rh r else 0))%float.

(* ================================================================= *)
(** * Outside conditions provider *)
(* ================================================================= *)

Module Outside.

(** A decoded JSON document, as [json.load] returns it. *)
#[local] Unset Elimination Schemes.
Inductive Json : Type :=
  | JNull
  | JBool (b : bool)
  | JInt (n : Z)
  | JFloat (x : float)
  | JString (s : string)
  | JArray (items : list Json)
  | JObject (members : list (string * Json)).
#[local] Set Elimination Schemes.

(** What the network gives back: [urlopen] raises (timeout, unreachable
    host, an HTTP error status), or a response arrives with a status and
    a payload that [json.load] either rejects or decodes. *)
Inductive Payload : Type :=
  | NotJson
  | JsonText (v : Json).

Inductive Network : Type :=
  | UrlopenRaises (what : string)
  | Response (status : Z) (payload : Payload).

Record Snapshot : Type := {
  time : Json;
  temp_c : Json;
  rh : Json;
  dew_point_c : Json
}.

Definition urlopen (net : Network) : Outcome (Z * Payload) :=
  match net with
  | UrlopenRaises what => Raised (Exception what)
  | Response status payload => Returned (status, payload)
  end.

Definition json_load (p : Payload) : Outcome Json :=
  match p with
  | NotJson => Raised (Exception "JSONDecodeError")
  | JsonText v => Returned v
  end.

(** [dict.get(key)]: the last member with that key, [None] without one;
    any other value has no [get] attribute. *)
Definition dict_get (members : list (string * Json)) (key : string) : Json :=
  match find (fun kv => String.eqb (fst kv) key) (rev members) with
  | Some kv => snd kv
  | None => JNull
  end.

Definition py_get (v : Json) (key : string) : Outcome Json :=
  match v with
  | JObject members => Returned (dict_get members key)
  | _ => Raised AttributeError
  end.

(** Python truthiness. *)
Definition truthy (v : Json) : bool :=
  match v with
  | JNull => false
  | JBool b => b
  | JInt n => negb (n =? 0)%Z
  | JFloat x => negb (x =? 0)%float
  | JString s => negb (String.eqb s "")
  | JArray items => match items with [] => false | _ => true end
  | JObject members => match members with [] => false | _ => true end
  end.

(** The guarded part: [None] stands for the early [return None], [Some data]
    for falling out of the [try] with the decoded document. *)
Definition guarded_request (net : Network) : Outcome (option Json) :=
  match urlopen net with
  | Raised e => Raised e
  | Returned (status, payload) =>
      if negb (status =? 200)%Z then Returned None
      else
        match json_load payload with
        | Raised e => Raised e
        | Returned data => Returned (Some data)
        end
  end.

Definition fetch_outside_conditions (net : Network)
    : Outcome (option Snapshot) :=
  match guarded_request net with
  | Raised _ => Returned None
  | Returned None => Returned None
  | Returned (Some data) =>
      match py_get data "current" with
      | Raised e => Raised e
      | Returned current =>
          if negb (truthy current) then Returned None
          else
            match py_get current "time",
                  py_get current "temperature_2m",
                  py_get current "relative_humidity_2m",
                  py_get current "dew_point_2m" with
            | Returned t, Returned tc, Returned h, Returned d =>
                Returned (Some {| time := t; temp_c := tc; rh := h;
                                  dew_point_c := d |})
            | Raised e, _, _, _ => Raised e
            | _, Raised e, _, _ => Raised e
            | _, _, Raised e, _ => Raised e
            | _, _, _, Raised e => Raised e
            end
      end
  end.

End Outside.

(* ================================================================= *)
(** * Persistence reconciler *)
(* ================================================================= *)

Module Reconciler.

(** What a CSV artifact is to [prepare_data_frame(pd.read_csv(...))]:
    nothing to parse ([EmptyDataError]), unparsable (any other exception),
    or a table of rows (none for a header-only file). *)
Inductive Artifact : Type :=
  | Blank
  | Corrupt (raw : string)
  | Table (rows : list Measurement).

(** [df.to_csv(index=False)] *)
Definition to_csv (df : list Measurement) : Artifact := Table df.

Inductive Event : Type :=
  | LocalWrite (a : Artifact)
  | RemotePut (a : Artifact)
  | Warning (msg : string).

(** The local cache file ([None] when [DATA_PATH] does not exist) and what
    has happened so far, oldest first. *)
Record World : Type := {
  local_csv : option Artifact;
  events : list Event
}.

Record SpacesConfig : Type := {
  bucket : string;
  region : string;
  endpoint : string;
  object_key : string;
  access_key_id : string;
  secret_access_key : string
}.

(** [response["Body"]]: a stream whose [read()] returns the bytes of the
    object or raises. *)
Inductive StreamingBody : Type :=
  | Reads (csv_bytes : Artifact)
  | ReadRaises (e : Exn).

(** The surroundings of one call: the normalised configuration, whether
    [boto3] could be imported, what [boto3.client("s3", ...)] does with
    that configuration, and how the object store answers: [get_object]
    raises or returns a response, whose ["Body"] may be missing. *)
Record Env : Type := {
  config : SpacesConfig;
  boto3_installed : bool;
  boto3_client : Outcome unit;
  get_object : Outcome (option StreamingBody);
  put_object : Artifact -> Outcome unit
}.

(** ** State and exceptions *)

Definition M (A : Type) : Type := World -> Outcome A * World.

Definition ret {A : Type} (a : A) : M A := fun w => (Returned a, w).

Definition raise {A : Type} (e : Exn) : M A := fun w => (Raised e, w).

Definition bind {A B : Type} (m : M A) (k : A -> M B) : M B :=
  fun w =>
    match m w with
    | (Returned a, w') => k a w'
    | (Raised e, w') => (Raised e, w')
    end.

(** [try: body / except ...]: the handler picks the clause that catches the
    exception, [None] when no clause does. *)
Definition try_except {A : Type} (body : M A) (handler : Exn -> option (M A))
    : M A :=
  fun w =>
    match body w with
    | (Returned a, w') => (Returned a, w')
    | (Raised e, w') =>
        match handler e with
        | Some h => h w'
        | None => (Raised e, w')
        end
    end.

Declare Scope monad_scope.
Delimit Scope monad_scope with monad.
Notation "x <- m ;; k" := (bind m (fun x => k))
  (at level 61, m at next level, right associativity) : monad_scope.
Notation "m ;; k" := (bind m (fun _ => k))
  (at level 61, right associativity) : monad_scope.
Local Open Scope monad_scope.

Definition lift {A : Type} (o : Outcome A) : M A := fun w => (o, w).

Definition emit (ev : Event) : M unit :=
  fun w => (Returned tt,
            {| local_csv := local_csv w; events := events w ++ [ev] |}).

(** [st.warning(msg)] *)
Definition warning (msg : string) : M unit := emit (Warning msg).

(** [os.path.exists(DATA_PATH)] *)
Definition path_exists : M bool :=
  fun w => (Returned (match local_csv w with Some _ => true | None => false end),
            w).

(** [prepare_data_frame(pd.read_csv(DATA_PATH))] *)
Definition read_local_csv : M (list Measurement) :=
  fun w =>
    match local_csv w with
    | None => (Raised (Exception "FileNotFoundError"), w)
    | Some Blank => (Raised EmptyDataError, w)
    | Some (Corrupt _) => (Raised (Exception "ParserError"), w)
    | Some (Table rows) => (Returned rows, w)
    end.

(** [os.makedirs(...)] then [df.to_csv(DATA_PATH, index=False)] *)
Definition write_local_csv (df : list Measurement) : M unit :=
  fun w => (Returned tt,
            {| local_csv := Some (to_csv df);
               events := events w ++ [LocalWrite (to_csv df)] |}).

(** ** Configuration *)

Definition nonempty (s : string) : bool := negb (String.eqb s "").

Definition spaces_enabled (c : SpacesConfig) : bool :=
  nonempty (bucket c) && nonempty (object_key c)
  && nonempty (access_key_id c) && nonempty (secret_access_key c).

(** [spaces_client(...)]: [false] stands for [None], [true] for the client
    [boto3.client] returned; an exception of [boto3.client] is not
    caught. *)
Definition spaces_client (env : Env) : Outcome bool :=
  if negb (boto3_installed env) || negb (spaces_enabled (config env))
  then Returned false
  else
    match boto3_client env with
    | Returned _ => Returned true
    | Raised e => Raised e
    end.

(** [data.read()] *)
Definition read (data : StreamingBody) : Outcome Artifact :=
  match data with
  | Reads csv_bytes => Returned csv_bytes
  | ReadRaises e => Raised e
  end.

(** [df.empty] *)
Definition empty {A : Type} (df : list A) : bool :=
  match df with [] => true | _ => false end.

(** ** Remote side *)

Definition not_found_code (code : option string) : bool :=
  match code with
  | Some c => String.eqb c "404" || String.eqb c "NoSuchKey"
              || String.eqb c "NotFound"
  | None => false
  end.

(** [error_code or 'unknown error'] *)
Definition code_text (code : option string) : string :=
  match code with
  | Some c => if String.eqb c "" then "unknown error" else c
  | None => "unknown error"
  end.

(** The frame of the returned pair; the modification time is not used by
    the caller.  The client is built and the body is read outside the two
    [try] blocks. *)
Definition load_data_from_spaces (env : Env) : M (option (list Measurement)) :=
  client <- lift (spaces_client env) ;;
  if negb client then ret None
  else
    response <- try_except
        (response <- lift (get_object env) ;; ret (Some response))
        (fun e =>
           match e with
           | ClientError code =>
               Some (if not_found_code code then ret None
                     else
                       warning ("Unable to load CSV from DigitalOcean Spaces: "
                                ++ code_text code) ;;
                       ret None)
           | _ =>
               Some (warning "Unable to load CSV from DigitalOcean Spaces." ;;
                     ret None)
           end) ;;
    match response with
    | None => ret None
    | Some None => ret (Some [])
    | Some (Some data) =>
        csv_bytes <- lift (read data) ;;
        match csv_bytes with
        | Blank => ret (Some [])
        | Table rows => ret (Some rows)
        | Corrupt _ =>
            warning "Unable to parse CSV from DigitalOcean Spaces." ;;
            ret None
        end
    end.

(** The client is built before the [try] block. *)
Definition save_data_to_spaces (df : list Measurement) (env : Env) : M bool :=
  client <- lift (spaces_client env) ;;
  if negb client then ret false
  else
    try_except
      (lift (put_object env (to_csv df)) ;;
       emit (RemotePut (to_csv df)) ;;
       ret true)
      (fun _ =>
         Some (warning
                 "Saved locally, but failed to upload CSV to DigitalOcean Spaces." ;;
               ret false)).

(** ** [load_data] and [save_data] *)

Definition load_data (env : Env) : M (list Measurement) :=
  present <- path_exists ;;
  local_df <-
    (if present then
       try_except read_local_csv
         (fun e =>
            match e with
            | EmptyDataError => Some (write_local_csv [] ;; ret [])
            | _ =>
                Some (warning
                        "Local CSV could not be read. Starting with an empty dataset." ;;
                      ret [])
            end)
     else ret []) ;;
  let local_modified := present in
  spaces_df <- load_data_from_spaces env ;;
  match spaces_df with
  | None =>
      (if local_modified && spaces_enabled (config env)
       then save_data_to_spaces local_df env ;; ret tt
       else ret tt) ;;
      ret local_df
  | Some remote_df =>
      if negb (empty remote_df) then
        write_local_csv remote_df ;;
        ret remote_df
      else if empty remote_df && negb (empty local_df) then
        save_data_to_spaces local_df env ;;
        ret local_df
      else ret remote_df
  end.

Definition save_data (df : list Measurement) (env : Env) : M unit :=
  write_local_csv df ;;
  save_data_to_spaces df env ;;
  ret tt.

End Reconciler.

(* ================================================================= *)
(** * Observations on the reconciler *)
(* ================================================================= *)

Module ReconcilerObs.

Import Reconciler.
Local Open Scope string_scope.
Local Open Scope list_scope.

Definition upload_failed : string :=
  "Saved locally, but failed to upload CSV to DigitalOcean Spaces.".

Definition local_unreadable : string :=
  "Local CSV could not be read. Starting with an empty dataset.".

(** What a push adds to the history, once the client is there or known not
    to be wanted. *)
Definition push_events (env : Env) (df : list Measurement) : list Event :=
  match spaces_client env with
  | Returned true =>
      match put_object env (to_csv df) with
      | Returned _ => [RemotePut (to_csv df)]
      | Raised _ => [Warning upload_failed]
      end
  | _ => []
  end.

(** What [load_data_from_spaces] hands back, and the warnings it surfaces
    on the way. *)
Definition fetched (env : Env) : Outcome (option (list Measurement)) :=
  match spaces_client env with
  | Raised e => Raised e
  | Returned false => Returned None
  | Returned true =>
      match get_object env with
      | Returned None => Returned (Some [])
      | Returned (Some (ReadRaises e)) => Raised e
      | Returned (Some (Reads Blank)) => Returned (Some [])
      | Returned (Some (Reads (Table rows))) => Returned (Some rows)
      | Returned (Some (Reads (Corrupt _))) => Returned None
      | Raised _ => Returned None
      end
  end.

Definition fetch_events (env : Env) : list Event :=
  match spaces_client env with
  | Returned true =>
      match get_object env with
      | Returned (Some (Reads (Corrupt _))) =>
          [Warning "Unable to parse CSV from DigitalOcean Spaces."]
      | Returned _ => []
      | Raised (ClientError code) =>
          if not_found_code code then []
          else [Warning ("Unable to load CSV from DigitalOcean Spaces: "
                         ++ code_text code)]
      | Raised _ => [Warning "Unable to load CSV from DigitalOcean Spaces."]
      end
  | _ => []
  end.


(** The local log [load_data] works with, and the world after its first
    step. *)
Definition local_frame (w : World) : list Measurement :=
  match local_csv w with
  | Some (Table rows) => rows
  | _ => []
  end.

Definition after_local_read (w : World) : World :=
  match local_csv w with
  | Some Blank =>
      {| local_csv := Some (Table []);
         events := events w ++ [LocalWrite (Table [])] |}
  | Some (Corrupt _) =>
      {| local_csv := local_csv w;
         events := events w ++ [Warning local_unreadable] |}
  | _ => w
  end.

Definition add_events (w : World) (evs : list Event) : World :=
  {| local_csv := local_csv w; events := events w ++ evs |}.

Definition local_exists (w : World) : bool :=
  match local_csv w with Some _ => true | None => false end.


End ReconcilerObs.

(* ================================================================= *)
(** * Sample frames *)
(* ================================================================= *)

Module Samples.

Local Open Scope string_scope.
Local Open Scope float_scope.
Local Open Scope list_scope.

(** One hour, in nanoseconds. *)
Definition hour : Z := 3600000000000.

(** A reading taken [t] nanoseconds after the epoch, recorded while the
    outside provider was unavailable. *)
Definition reading (i : string) (t : Z) (loc : string) (tc rhv : float)
    : Measurement :=
  {| id := Some i; datetime := Some t; location := Some loc;
     temp_c := tc; rh := rhv; lux := 0; uv := 0; co2 := 0;
     outside_time := None; outside_temp_c := nan; outside_rh := nan;
     outside_dew_point_c := nan; notes := Some "" |}.

(** A row whose two required readings failed to parse. *)
Definition unparsed (i : string) (t : Z) (loc : string) : Measurement :=
  reading i t loc nan nan.

(** The evaluated form of a row that has no row above it. *)
Definition alone (m : Measurement) : Evaluated :=
  apply_classify (shifted_row [] m).

(** A reading recorded with an outside snapshot. *)
Definition reading_with_outside (i : string) (t : Z) (loc : string)
    (tc rhv otc orh : float) : Measurement :=
  {| id := Some i; datetime := Some t; location := Some loc;
     temp_c := tc; rh := rhv; lux := 0; uv := 0; co2 := 0;
     outside_time := Some "2024-05-01T10:00"; outside_temp_c := otc;
     outside_rh := orh; outside_dew_point_c := 10; notes := Some "" |}.

(** ** Worlds and surroundings for the reconciler *)

Definition configured : Reconciler.SpacesConfig :=
  {| Reconciler.bucket := "collections";
     Reconciler.region := "nyc3";
     Reconciler.endpoint := "";
     Reconciler.object_key := "environmental-monitor/measurements.csv";
     Reconciler.access_key_id := "key";
     Reconciler.secret_access_key := "secret" |}.

Definition unconfigured : Reconciler.SpacesConfig :=
  {| Reconciler.bucket := "";
     Reconciler.region := "nyc3";
     Reconciler.endpoint := "";
     Reconciler.object_key := "environmental-monitor/measurements.csv";
     Reconciler.access_key_id := "";
     Reconciler.secret_access_key := "" |}.

Definition local_rows : list Measurement :=
  [reading "l1" 0 "Workroom" 20 50;
   reading "l2" hour "Workroom" 21 50;
   reading "l3" (2 * hour) "Workroom" 22 50].

Definition remote_rows : list Measurement :=
  [reading "r1" 0 "Compactus" 18 48;
   reading "r2" hour "Compactus" 18 49;
   reading "r3" (2 * hour) "Compactus" 19 50;
   reading "r4" (3 * hour) "Compactus" 19 51;
   reading "r5" (4 * hour) "Compactus" 19 52].

(** Sync on, the store holding five rows and accepting uploads. *)
Definition store_with_rows : Reconciler.Env :=
  {| Reconciler.config := configured;
     Reconciler.boto3_installed := true;
     Reconciler.boto3_client := Returned tt;
     Reconciler.get_object :=
       Returned (Some (Reconciler.Reads (Reconciler.Table remote_rows)));
     Reconciler.put_object := fun _ => Returned tt |}.

(** Sync on, every call to the store failing in transport. *)
Definition store_unreachable : Reconciler.Env :=
  {| Reconciler.config := configured;
     Reconciler.boto3_installed := true;
     Reconciler.boto3_client := Returned tt;
     Reconciler.get_object := Raised (Exception "EndpointConnectionError");
     Reconciler.put_object :=
       fun _ => Raised (Exception "EndpointConnectionError") |}.

(** Sync on, the object present but holding a header-only table. *)
Definition store_empty : Reconciler.Env :=
  {| Reconciler.config := configured;
     Reconciler.boto3_installed := true;
     Reconciler.boto3_client := Returned tt;
     Reconciler.get_object :=
       Returned (Some (Reconciler.Reads (Reconciler.Table [])));
     Reconciler.put_object := fun _ => Returned tt |}.

(** Sync on, reads failing in transport while uploads go through. *)
Definition store_read_fails : Reconciler.Env :=
  {| Reconciler.config := configured;
     Reconciler.boto3_installed := true;
     Reconciler.boto3_client := Returned tt;
     Reconciler.get_object := Raised (Exception "ReadTimeoutError");
     Reconciler.put_object := fun _ => Returned tt |}.

(** Sync on, no object under the key yet. *)
Definition store_without_object : Reconciler.Env :=
  {| Reconciler.config := configured;
     Reconciler.boto3_installed := true;
     Reconciler.boto3_client := Returned tt;
     Reconciler.get_object := Raised (ClientError (Some "NoSuchKey"));
     Reconciler.put_object := fun _ => Returned tt |}.

(** Sync on, the credentials refused. *)
Definition store_access_denied : Reconciler.Env :=
  {| Reconciler.config := configured;
     Reconciler.boto3_installed := true;
     Reconciler.boto3_client := Returned tt;
     Reconciler.get_object := Raised (ClientError (Some "AccessDenied"));
     Reconciler.put_object := fun _ => Raised (ClientError (Some "AccessDenied")) |}.

(** Sync on, the store readable and holding five rows, uploads refused. *)
Definition store_rejects_uploads : Reconciler.Env :=
  {| Reconciler.config := configured;
     Reconciler.boto3_installed := true;
     Reconciler.boto3_client := Returned tt;
     Reconciler.get_object :=
       Returned (Some (Reconciler.Reads (Reconciler.Table remote_rows)));
     Reconciler.put_object :=
       fun _ => Raised (ClientError (Some "AccessDenied")) |}.

(** Sync on, the object found, the connection failing while its body is
    read. *)
Definition store_body_unreadable : Reconciler.Env :=
  {| Reconciler.config := configured;
     Reconciler.boto3_installed := true;
     Reconciler.boto3_client := Returned tt;
     Reconciler.get_object :=
       Returned (Some (Reconciler.ReadRaises (Exception "ReadTimeoutError")));
     Reconciler.put_object := fun _ => Returned tt |}.

(** The four credentials filled in, and an endpoint that is not a URL: the
    settings form stores it as it is, [spaces_endpoint] puts "https://" in
    front, and [boto3.client] raises [ValueError] ("Invalid endpoint") on
    the result. *)
Definition endpoint_not_a_url : Reconciler.SpacesConfig :=
  {| Reconciler.bucket := "collections";
     Reconciler.region := "nyc3";
     Reconciler.endpoint := "bad endpoint";
     Reconciler.object_key := "environmental-monitor/measurements.csv";
     Reconciler.access_key_id := "key";
     Reconciler.secret_access_key := "secret" |}.

Definition store_bad_endpoint : Reconciler.Env :=
  {| Reconciler.config := endpoint_not_a_url;
     Reconciler.boto3_installed := true;
     Reconciler.boto3_client := Raised (Exception "ValueError");
     Reconciler.get_object := Raised (Exception "unused");
     Reconciler.put_object := fun _ => Raised (Exception "unused") |}.

(** Sync off. *)
Definition sync_off : Reconciler.Env :=
  {| Reconciler.config := unconfigured;
     Reconciler.boto3_installed := true;
     Reconciler.boto3_client := Returned tt;
     Reconciler.get_object := Raised (Exception "unused");
     Reconciler.put_object := fun _ => Raised (Exception "unused") |}.

(** A text [pd.read_csv] rejects with [ParserError]: its third line has
    three fields under a header of two. *)
Definition newline : string := String (Ascii.ascii_of_nat 10) EmptyString.

Definition ragged_csv : string :=
  "id,temp_c" ++ newline ++ "a,20" ++ newline ++ "b,21,55" ++ newline.

Definition world_with (a : Reconciler.Artifact) : Reconciler.World :=
  {| Reconciler.local_csv := Some a; Reconciler.events := [] |}.

End Samples.


(* ================================================================= *)
(** * Observations on the flags, and their rendering *)
(* ================================================================= *)

Section FlagObservations.

Local Open Scope string_scope.
Local Open Scope float_scope.
Local Open Scope list_scope.

Import F64.

Definition temp_delta_flag (d : float) : string :=
  ("Temp delta vs outside " ++ Fmt.format_signed_1f d ++ " C|warn")%string.

Definition rh_delta_flag (d : float) : string :=
  ("RH delta vs outside " ++ Fmt.format_signed_1f d ++ "%|warn")%string.

Definition outside_temp_delta (m : Measurement) : float :=
  temp_c m - outside_temp_c m.

Definition outside_rh_delta (m : Measurement) : float :=
  rh m - outside_rh m.

Definition outside_temp_warn (m : Measurement) : bool :=
  notna (outside_temp_c m) && (6 <? abs (outside_temp_delta m)).

Definition outside_rh_warn (m : Measurement) : bool :=
  notna (outside_rh m) && (15 <? abs (outside_rh_delta m)).

(** The seven slots of the flag list, in source order; an empty slot is
    [None]. *)
Definition flag_slots (r : ShiftedRow) : list (option string) :=
  [ if temp_out (base r) then Some "Temp out of range|danger" else None;
    if rh_outside_core (base r) then
      Some (if between 40 (rh (base r)) 60 then "RH in outer band|warn"
            else "RH out of range|danger")
    else None;
    if 70 <=? rh (base r) then Some "Mould risk|danger" else None;
    if outside_temp_warn (base r)
    then Some (temp_delta_flag (outside_temp_delta (base r))) else None;
    if outside_rh_warn (base r)
    then Some (rh_delta_flag (outside_rh_delta (base r))) else None;
    if drift_window r && (4 <? temp_drift r)
    then Some (temp_drift_flag (temp_drift r)) else None;
    if drift_window r && (5 <? rh_drift r)
    then Some (rh_drift_flag (rh_drift r)) else None ].

Fixpoint present {A : Type} (l : list (option A)) : list A :=
  match l with
  | [] => []
  | Some a :: l' => a :: present l'
  | None :: l' => present l'
  end.

(** [s.split("|")] *)
Fixpoint split_bar (s : string) : list string :=
  match s with
  | EmptyString => [EmptyString]
  | String c s' =>
      if Ascii.eqb c "|" then EmptyString :: split_bar s'
      else
        match split_bar s' with
        | p :: ps => String c p :: ps
        | [] => [String c EmptyString]
        end
  end.

(** ["|" in s] *)
Fixpoint has_bar (s : string) : bool :=
  match s with
  | EmptyString => false
  | String c s' => Ascii.eqb c "|" || has_bar s'
  end.

(** The double quote character, as a string. *)
Definition dq : string := String (Ascii.ascii_of_nat 34) EmptyString.

(** [f'<span class="flag {level}">{label}</span>'] *)
Definition flag_span (level label : string) : string :=
  "<span class=" ++ dq ++ "flag " ++ level ++ dq ++ ">" ++ label
  ++ "</span>".

Definition stable_span : string :=
  "<span class=" ++ dq ++ "flag" ++ dq ++ ">Stable</span>".

(** The loop of [flags_to_html]: unpacking [flag.split("|")] into two names
    raises [ValueError] unless the split has exactly two parts. *)
Fixpoint flag_parts (flags : list string) (parts : list string)
    : Outcome (list string) :=
  match flags with
  | [] => Returned parts
  | flag :: rest =>
      match split_bar flag with
      | [label; level] => flag_parts rest (parts ++ [flag_span level label])
      | _ => Raised (Exception "ValueError")
      end
  end.

Definition flags_to_html (flags : list string) : Outcome string :=
  match flags with
  | [] => Returned stable_span
  | _ =>
      match flag_parts flags [] with
      | Returned parts => Returned (String.concat "" parts)
      | Raised e => Raised e
      end
  end.

(** The label and the severity of a flag. *)
Definition well_formed_flag (f : string) : Prop :=
  exists label level,
    split_bar f = [label; level] /\ (level = "warn" \/ level = "danger").

(** The text before the first bar of a flag, and the text after it up to
    the next bar. *)
Definition flag_label (f : string) : string := hd "" (split_bar f).

Definition flag_level (f : string) : string := nth 1 (split_bar f) "".

End FlagObservations.

(* ================================================================= *)
(** * Spaces settings *)
(* ================================================================= *)

Module Settings.

Local Open Scope string_scope.
Local Open Scope list_scope.

(** Python strings are held as their UTF-8 bytes.  [str.strip()] removes
    the characters for which [str.isspace] holds: U+0009 to U+000D, U+001C
    to U+0020, U+0085, U+00A0, U+1680, U+2000 to U+200A, U+2028, U+2029,
    U+202F, U+205F and U+3000; in UTF-8 these are the one-, two- and
    three-byte sequences below. *)
Definition space1 (c : ascii) : bool :=
  let n := N_of_ascii c in
  ((9 <=? n) && (n <=? 13) || (28 <=? n) && (n <=? 32))%N.

Definition space2 (c1 c2 : ascii) : bool :=
  let a := N_of_ascii c1 in
  let b := N_of_ascii c2 in
  ((a =? 194) && ((b =? 133) || (b =? 160)))%N.

Definition space3 (c1 c2 c3 : ascii) : bool :=
  let a := N_of_ascii c1 in
  let b := N_of_ascii c2 in
  let c := N_of_ascii c3 in
  ((a =? 225) && (b =? 154) && (c =? 128)
   || (a =? 226) && (b =? 128)
      && ((128 <=? c) && (c <=? 138) || (c =? 168) || (c =? 169)
          || (c =? 175))
   || (a =? 226) && (b =? 129) && (c =? 159)
   || (a =? 227) && (b =? 128) && (c =? 128))%N.

(** Drops the leading sequences that the three tests accept. *)
Fixpoint drop_leading (t1 : ascii -> bool) (t2 : ascii -> ascii -> bool)
    (t3 : ascii -> ascii -> ascii -> bool) (s : list ascii) : list ascii :=
  match s with
  | [] => []
  | c1 :: s1 =>
      if t1 c1 then drop_leading t1 t2 t3 s1
      else
        match s1 with
        | [] => s
        | c2 :: s2 =>
            if t2 c1 c2 then drop_leading t1 t2 t3 s2
            else
              match s2 with
              | [] => s
              | c3 :: s3 =>
                  if t3 c1 c2 c3 then drop_leading t1 t2 t3 s3 else s
              end
        end
  end.

Definition lstrip_bytes (s : list ascii) : list ascii :=
  drop_leading space1 space2 space3 s.

(** The same from the right: the bytes are met in reverse order. *)
Definition rstrip_bytes (s : list ascii) : list ascii :=
  rev (drop_leading space1 (fun a b => space2 b a)
         (fun a b c => space3 c b a) (rev s)).

Definition strip_bytes (s : list ascii) : list ascii :=
  rstrip_bytes (lstrip_bytes s).

(** [s.strip()] *)
Definition strip (s : string) : string :=
  string_of_list_ascii (strip_bytes (list_ascii_of_string s)).

(** [needle in hay] *)
Fixpoint contains (needle hay : string) : bool :=
  starts_with needle hay
  || match hay with
     | EmptyString => false
     | String _ hay' => contains needle hay'
     end.

Definition DEFAULT_SPACES_REGION : string := "nyc3".
Definition DEFAULT_SPACES_OBJECT_KEY : string :=
  "environmental-monitor/measurements.csv".

(** A configuration dictionary with string values; [None] is a key that is
    not there. *)
Record RawConfig : Type := {
  raw_bucket : option string;
  raw_region : option string;
  raw_endpoint : option string;
  raw_object_key : option string;
  raw_access_key_id : option string;
  raw_secret_access_key : option string
}.

(** [config.get(key, default)] *)
Definition get_or (v : option string) (default : string) : string :=
  match v with Some s => s | None => default end.

(** [a or b] on strings *)
Definition str_or (a b : string) : string :=
  if String.eqb a "" then b else a.

Definition empty_config : RawConfig :=
  {| raw_bucket := None; raw_region := None; raw_endpoint := None;
     raw_object_key := None; raw_access_key_id := None;
     raw_secret_access_key := None |}.

Definition normalize_spaces_config (config : option RawConfig)
    : Reconciler.SpacesConfig :=
  let config := match config with Some c => c | None => empty_config end in
  {| Reconciler.bucket := strip (get_or (raw_bucket config) "");
     Reconciler.region :=
       str_or (strip (get_or (raw_region config) DEFAULT_SPACES_REGION))
         DEFAULT_SPACES_REGION;
     Reconciler.endpoint := strip (get_or (raw_endpoint config) "");
     Reconciler.object_key :=
       str_or (strip (get_or (raw_object_key config)
                        DEFAULT_SPACES_OBJECT_KEY))
         DEFAULT_SPACES_OBJECT_KEY;
     Reconciler.access_key_id := strip (get_or (raw_access_key_id config) "");
     Reconciler.secret_access_key :=
       strip (get_or (raw_secret_access_key config) "") |}.

(** A normalised configuration seen again as a dictionary, as when it is
    read back from the session state. *)
Definition as_dict (c : Reconciler.SpacesConfig) : RawConfig :=
  {| raw_bucket := Some (Reconciler.bucket c);
     raw_region := Some (Reconciler.region c);
     raw_endpoint := Some (Reconciler.endpoint c);
     raw_object_key := Some (Reconciler.object_key c);
     raw_access_key_id := Some (Reconciler.access_key_id c);
     raw_secret_access_key := Some (Reconciler.secret_access_key c) |}.

(** A dictionary without any of the six keys is the empty dictionary. *)
Definition is_empty_dict (c : RawConfig) : bool :=
  match raw_bucket c, raw_region c, raw_endpoint c, raw_object_key c,
        raw_access_key_id c, raw_secret_access_key c with
  | None, None, None, None, None, None => true
  | _, _, _, _, _, _ => false
  end.

(** [config or get_spaces_config()]: an absent or empty dictionary gives
    way to the configuration of the session, which [get_spaces_config]
    hands out normalised. *)
Definition config_or_session (config : option RawConfig)
    (session : Reconciler.SpacesConfig) : RawConfig :=
  match config with
  | Some c => if is_empty_dict c then as_dict session else c
  | None => as_dict session
  end.

Definition active_config (config : option RawConfig)
    (session : Reconciler.SpacesConfig) : Reconciler.SpacesConfig :=
  normalize_spaces_config (Some (config_or_session config session)).

(** [spaces_enabled(config)] *)
Definition spaces_enabled (config : option RawConfig)
    (session : Reconciler.SpacesConfig) : bool :=
  Reconciler.spaces_enabled (active_config config session).

(** [spaces_endpoint(config)] *)
Definition spaces_endpoint (config : option RawConfig)
    (session : Reconciler.SpacesConfig) : string :=
  let endpoint := Reconciler.endpoint (active_config config session) in
  if negb (String.eqb endpoint "") then
    if contains "://" endpoint then endpoint
    else "https://" ++ endpoint
  else "https://" ++ Reconciler.region (active_config config session)
       ++ ".digitaloceanspaces.com".

(** The six text inputs of the settings form. *)
Record SettingsForm : Type := {
  form_bucket : string;
  form_region : string;
  form_endpoint : string;
  form_object_key : string;
  form_access_key_id : string;
  form_secret_access_key : string
}.

(** What [render_spaces_settings] stores in the session when the form is
    submitted: a key field left blank keeps the current value. *)
Definition submitted_settings (config : Reconciler.SpacesConfig)
    (form : SettingsForm) : Reconciler.SpacesConfig :=
  let updated :=
    {| raw_bucket := Some (form_bucket form);
       raw_region := Some (form_region form);
       raw_endpoint := Some (form_endpoint form);
       raw_object_key := Some (form_object_key form);
       raw_access_key_id :=
         Some (str_or (strip (form_access_key_id form))
                 (Reconciler.access_key_id config));
       raw_secret_access_key :=
         Some (str_or (strip (form_secret_access_key form))
                 (Reconciler.secret_access_key config)) |} in
  normalize_spaces_config (Some updated).

End Settings.

(* ================================================================= *)
(** * Observations on the outside provider *)
(* ================================================================= *)

Module OutsideObs.

Import Outside.

(** [isinstance(v, dict)] *)
Definition is_object (v : Json) : bool :=
  match v with JObject _ => true | _ => false end.

End OutsideObs.

(* ================================================================= *)
(** * Part II: properties *)
(* ================================================================= *)

(* ================================================================= *)
(** * Binary64 order facts *)
(* ================================================================= *)

Module F64Facts.

Import F64.
Local Open Scope float_scope.

Lemma SFcompare_key (x y : spec_float) : SFcompare x y = key_compare x y.
Proof.
  unfold key_compare.
  destruct x as [[|]|[|]| |[|] m1 e1], y as [[|]|[|]| |[|] m2 e2];
    try reflexivity; cbn [SFcompare key lex3].
  rewrite Z.compare_opp, (Z.compare_antisym e1 e2).
  destruct (e1 ?= e2)%Z; cbn; reflexivity.
Qed.

Lemma lex3_lt_iff a1 a2 a3 b1 b2 b3 :
  lex3 (a1, a2, a3) (b1, b2, b3) = Lt <->
  (a1 < b1 \/ (a1 = b1 /\ (a2 < b2 \/ (a2 = b2 /\ a3 < b3))))%Z.
Proof.
  unfold lex3.
  destruct (Z.compare_spec a1 b1), (Z.compare_spec a2 b2),
    (Z.compare_spec a3 b3); split; intros; try discriminate; try lia;
    reflexivity.
Qed.

Lemma lex3_eq_iff a1 a2 a3 b1 b2 b3 :
  lex3 (a1, a2, a3) (b1, b2, b3) = Eq <-> (a1 = b1 /\ a2 = b2 /\ a3 = b3)%Z.
Proof.
  unfold lex3.
  destruct (Z.compare_spec a1 b1), (Z.compare_spec a2 b2),
    (Z.compare_spec a3 b3); split; intros; try discriminate; try lia;
    reflexivity.
Qed.

Lemma lex3_gt_iff a1 a2 a3 b1 b2 b3 :
  lex3 (a1, a2, a3) (b1, b2, b3) = Gt <->
  (b1 < a1 \/ (a1 = b1 /\ (b2 < a2 \/ (a2 = b2 /\ b3 < a3))))%Z.
Proof.
  unfold lex3.
  destruct (Z.compare_spec a1 b1), (Z.compare_spec a2 b2),
    (Z.compare_spec a3 b3); split; intros; try discriminate; try lia;
    reflexivity.
Qed.

Lemma SFltb_key x y :
  SFltb x y = true <-> exists a b, key x = Some a /\ key y = Some b /\ klt a b.
Proof.
  unfold SFltb. rewrite SFcompare_key. unfold key_compare.
  destruct (key x) as [[[a1 a2] a3]|], (key y) as [[[b1 b2] b3]|];
    try (split; [discriminate | intros (a & b & Ha & Hb & _); discriminate]).
  split.
  - intros H. exists (a1, a2, a3), (b1, b2, b3). repeat split.
    apply lex3_lt_iff. destruct (lex3 _ _); congruence.
  - intros (a & b & Ha & Hb & H). inversion Ha; inversion Hb; subst.
    apply lex3_lt_iff in H. now rewrite H.
Qed.

Lemma SFleb_key x y :
  SFleb x y = true <-> exists a b, key x = Some a /\ key y = Some b /\ kle a b.
Proof.
  unfold SFleb. rewrite SFcompare_key. unfold key_compare.
  destruct (key x) as [[[a1 a2] a3]|], (key y) as [[[b1 b2] b3]|];
    try (split; [discriminate | intros (a & b & Ha & Hb & _); discriminate]).
  split.
  - intros H. exists (a1, a2, a3), (b1, b2, b3). repeat split.
    destruct (lex3 _ _) eqn:E; try discriminate.
    + apply lex3_eq_iff in E. cbn. lia.
    + apply lex3_lt_iff in E. cbn. lia.
  - intros (a & b & Ha & Hb & H). inversion Ha; inversion Hb; subst.
    cbn in H.
    destruct (lex3 _ _) eqn:E; try reflexivity.
    apply lex3_gt_iff in E. lia.
Qed.

Lemma is_nan_key x : is_nan x = true <-> key (Prim2SF x) = None.
Proof.
  unfold is_nan. rewrite FloatAxioms.eqb_spec. unfold SFeqb.
  rewrite SFcompare_key. unfold key_compare.
  destruct (key (Prim2SF x)) as [[[a1 a2] a3]|].
  - assert (E : lex3 (a1, a2, a3) (a1, a2, a3) = Eq)
      by (apply lex3_eq_iff; lia).
    rewrite E. split; discriminate.
  - split; reflexivity.
Qed.

Lemma notna_key x : notna x = true <-> exists a, key (Prim2SF x) = Some a.
Proof.
  unfold notna. rewrite negb_true_iff, <- not_true_iff_false, is_nan_key.
  destruct (key (Prim2SF x)); split.
  - eauto.
  - discriminate.
  - congruence.
  - intros [a Ha]. discriminate.
Qed.

Lemma ltb_key x y :
  (x <? y) = true <->
  exists a b, key (Prim2SF x) = Some a /\ key (Prim2SF y) = Some b /\ klt a b.
Proof. rewrite FloatAxioms.ltb_spec. apply SFltb_key. Qed.

Lemma leb_key x y :
  (x <=? y) = true <->
  exists a b, key (Prim2SF x) = Some a /\ key (Prim2SF y) = Some b /\ kle a b.
Proof. rewrite FloatAxioms.leb_spec. apply SFleb_key. Qed.

Ltac key_facts :=
  repeat match goal with
  | H : (_ <? _) = true |- _ =>
      apply ltb_key in H; destruct H as (? & ? & ? & ? & H)
  | H : (_ <=? _) = true |- _ =>
      apply leb_key in H; destruct H as (? & ? & ? & ? & H)
  | H : notna _ = true |- _ => apply notna_key in H; destruct H as (? & H)
  end;
  repeat match goal with
  | H1 : key ?s = Some ?a, H2 : key ?s = Some ?b |- _ =>
      assert (a = b) by congruence; subst b; clear H2
  end.

Ltac key_solve :=
  repeat match goal with
  | a : (Z * Z * Z)%type |- _ => destruct a as [[? ?] ?]
  end; cbn [klt kle] in *; lia.

(** A comparison that holds rules out the converse strict one. *)
Lemma leb_not_ltb x y : (x <=? y) = true -> (y <? x) = false.
Proof.
  intros H. apply not_true_is_false. intros H'.
  key_facts. key_solve.
Qed.

Lemma ltb_not_leb x y : (x <? y) = true -> (y <=? x) = false.
Proof.
  intros H. apply not_true_is_false. intros H'.
  key_facts. key_solve.
Qed.

(** Numbers (non-[NaN]) are totally ordered. *)
Lemma not_leb_ltb x y :
  notna x = true -> notna y = true -> (x <=? y) = false -> (y <? x) = true.
Proof.
  intros Hx Hy H.
  apply notna_key in Hx; destruct Hx as [a Ha].
  apply notna_key in Hy; destruct Hy as [b Hb].
  apply ltb_key. exists b, a. split; [exact Hb|]. split; [exact Ha|].
  apply not_true_iff_false in H.
  assert (K : ~ kle a b).
  { intros K. apply H. apply leb_key. exists a, b. auto. }
  key_solve.
Qed.

Lemma ltb_leb_trans x y z :
  (x <? y) = true -> (y <=? z) = true -> (x <? z) = true.
Proof.
  intros H1 H2. key_facts.
  apply ltb_key. do 2 eexists. repeat split; eauto. key_solve.
Qed.

Lemma leb_ltb_trans x y z :
  (x <=? y) = true -> (y <? z) = true -> (x <? z) = true.
Proof.
  intros H1 H2. key_facts.
  apply ltb_key. do 2 eexists. repeat split; eauto. key_solve.
Qed.

Lemma ltb_leb x y : (x <? y) = true -> (x <=? y) = true.
Proof.
  intros H. key_facts.
  apply leb_key. do 2 eexists. repeat split; eauto. key_solve.
Qed.

Lemma leb_notna_l x y : (x <=? y) = true -> notna x = true.
Proof. intros H. key_facts. apply notna_key. eauto. Qed.

Lemma leb_notna_r x y : (x <=? y) = true -> notna y = true.
Proof. intros H. key_facts. apply notna_key. eauto. Qed.

Lemma ltb_notna_l x y : (x <? y) = true -> notna x = true.
Proof. intros H. key_facts. apply notna_key. eauto. Qed.

Lemma ltb_notna_r x y : (x <? y) = true -> notna y = true.
Proof. intros H. key_facts. apply notna_key. eauto. Qed.

(** [NaN] is the only value [pd.isna] accepts, and it compares false. *)
Lemma isna_nan x : isna x = true -> x = nan.
Proof.
  unfold isna. intros H. apply is_nan_key in H.
  apply Prim2SF_inj.
  destruct (Prim2SF x) as [[|]|[|]| |[|] m e]; try discriminate.
  reflexivity.
Qed.

Lemma isna_ltb_l x y : isna x = true -> (x <? y) = false.
Proof.
  intros H. apply not_true_is_false. intros H'.
  apply ltb_notna_l in H'. unfold notna, isna in *.
  rewrite H in H'. discriminate.
Qed.

Lemma isna_ltb_r x y : isna y = true -> (x <? y) = false.
Proof.
  intros H. apply not_true_is_false. intros H'.
  apply ltb_notna_r in H'. unfold notna, isna in *.
  rewrite H in H'. discriminate.
Qed.

Lemma isna_leb_l x y : isna x = true -> (x <=? y) = false.
Proof.
  intros H. apply not_true_is_false. intros H'.
  apply leb_notna_l in H'. unfold notna, isna in *.
  rewrite H in H'. discriminate.
Qed.

Lemma isna_leb_r x y : isna y = true -> (x <=? y) = false.
Proof.
  intros H. apply not_true_is_false. intros H'.
  apply leb_notna_r in H'. unfold notna, isna in *.
  rewrite H in H'. discriminate.
Qed.

(** Arithmetic on a missing operand stays missing. *)
Lemma sub_nan_l y : isna (nan - y) = true.
Proof.
  unfold isna. apply is_nan_key. rewrite sub_spec.
  replace (Prim2SF nan) with S754_nan by reflexivity.
  reflexivity.
Qed.

Lemma sub_nan_r x : isna (x - nan) = true.
Proof.
  unfold isna. apply is_nan_key. rewrite sub_spec.
  replace (Prim2SF nan) with S754_nan by reflexivity.
  unfold SF64sub, SFsub. destruct (Prim2SF x) as [[|]|[|]| |[|] m e]; reflexivity.
Qed.

Lemma abs_isna x : isna x = true -> isna (abs x) = true.
Proof.
  intros H. apply isna_nan in H. subst x. reflexivity.
Qed.

End F64Facts.

(* ================================================================= *)
(** * Facts about [classify] *)
(* ================================================================= *)

Section ClassifyFacts.

Local Open Scope string_scope.
Local Open Scope float_scope.
Local Open Scope list_scope.

Lemma temp_block_eq r :
  temp_block r (core, []) = (status_after_temp r, temp_flags r).
Proof.
  unfold temp_block, status_after_temp, temp_flags, temp_out. cbn.
  destruct ((temp_c (base r) <? 15) || (25 <? temp_c (base r)));
    reflexivity.
Qed.

Lemma rh_block_eq r fl :
  rh_block r (status_after_temp r, fl) = (status_after_rh r, fl ++ rh_flags r).
Proof.
  unfold rh_block, status_after_rh, rh_flags, rh_outside_core. cbn.
  destruct ((rh (base r) <? 45) || (55 <? rh (base r)));
    [ destruct (F64.between 40 (rh (base r)) 60) | ];
    rewrite ?app_nil_r; try reflexivity.
  destruct (status_after_temp r); reflexivity.
Qed.

Lemma mould_block_eq r s fl :
  mould_block r (s, fl) = (s, fl ++ mould_flags r).
Proof.
  unfold mould_block, mould_flags.
  destruct (70 <=? rh (base r)); rewrite ?app_nil_r; reflexivity.
Qed.

Lemma outside_temp_block_eq r s fl :
  outside_temp_block r (s, fl) = (s, fl ++ outside_temp_flags r).
Proof.
  unfold outside_temp_flags, outside_temp_block.
  destruct (F64.notna (outside_temp_c (base r)));
    [ destruct (OUTSIDE_TEMP_DELTA_WARN <? _) | ];
    cbn [snd app]; rewrite ?app_nil_r; reflexivity.
Qed.

Lemma outside_rh_block_eq r s fl :
  outside_rh_block r (s, fl) = (s, fl ++ outside_rh_flags r).
Proof.
  unfold outside_rh_flags, outside_rh_block.
  destruct (F64.notna (outside_rh (base r)));
    [ destruct (OUTSIDE_RH_DELTA_WARN <? _) | ];
    cbn [snd app]; rewrite ?app_nil_r; reflexivity.
Qed.

Lemma drift_block_eq r s fl :
  drift_block r (s, fl) = (s, fl ++ drift_flags r).
Proof.
  unfold drift_block, drift_flags, drift_window. cbn.
  destruct (F64.notna (delta_hours r) && (delta_hours r <=? 24));
    [ | now rewrite app_nil_r ].
  destruct (4 <? temp_drift r), (5 <? rh_drift r); cbn;
    rewrite <- ?app_assoc, ?app_nil_r; reflexivity.
Qed.

(** [classify] is the status after the humidity block and the six
    contributions in source order. *)
Lemma classify_eq r :
  classify r =
  (status_after_rh r,
   temp_flags r ++ rh_flags r ++ mould_flags r ++ outside_temp_flags r
   ++ outside_rh_flags r ++ drift_flags r).
Proof.
  unfold classify.
  rewrite temp_block_eq, rh_block_eq, mould_block_eq, outside_temp_block_eq,
    outside_rh_block_eq, drift_block_eq.
  rewrite <- !app_assoc. reflexivity.
Qed.

Lemma outside_temp_flags_cases r :
  outside_temp_flags r = [] \/
  exists s, outside_temp_flags r = ["Temp delta vs outside " ++ s ++ " C|warn"]%string.
Proof.
  unfold outside_temp_flags, outside_temp_block.
  destruct (F64.notna _); [ destruct (OUTSIDE_TEMP_DELTA_WARN <? _) | ];
    cbn; eauto.
Qed.

Lemma outside_rh_flags_cases r :
  outside_rh_flags r = [] \/
  exists s, outside_rh_flags r = ["RH delta vs outside " ++ s ++ "%|warn"]%string.
Proof.
  unfold outside_rh_flags, outside_rh_block.
  destruct (F64.notna _); [ destruct (OUTSIDE_RH_DELTA_WARN <? _) | ];
    cbn; eauto.
Qed.

Lemma drift_flags_are_drift r f :
  In f (drift_flags r) -> is_drift_flag f = true.
Proof.
  unfold drift_flags.
  destruct (drift_window r); [ | intros [] ].
  destruct (4 <? temp_drift r), (5 <? rh_drift r); cbn;
    intros H; repeat (destruct H as [H | H]; [ subst f; reflexivity | ]);
    destruct H.
Qed.

(** Flags other than the drift ones never look like a drift flag. *)
Lemma non_drift_flags r f :
  In f (temp_flags r ++ rh_flags r ++ mould_flags r ++ outside_temp_flags r
        ++ outside_rh_flags r) ->
  is_drift_flag f = false.
Proof.
  rewrite !in_app_iff.
  unfold temp_flags, rh_flags, mould_flags.
  destruct (outside_temp_flags_cases r) as [-> | [s ->]],
    (outside_rh_flags_cases r) as [-> | [s' ->]];
    destruct (temp_out (base r)), (rh_outside_core (base r)),
      (F64.between 40 (rh (base r)) 60), (70 <=? rh (base r)); cbn;
    intros H;
    repeat (destruct H as [H | H]; try contradiction);
    subst f; reflexivity.
Qed.

(** The fixed labels are not drift flags, nor outside-delta flags. *)
Lemma fixed_not_in_formatted r f :
  In f ["Temp out of range|danger"; "RH in outer band|warn";
        "RH out of range|danger"; "Mould risk|danger"] ->
  ~ In f (outside_temp_flags r ++ outside_rh_flags r ++ drift_flags r).
Proof.
  intros Hf H. rewrite !in_app_iff in H.
  assert (Hd : is_drift_flag f = false).
  { cbn in Hf.
    repeat (destruct Hf as [Hf | Hf]; [ subst f; reflexivity | ]).
    destruct Hf. }
  destruct H as [H | [H | H]].
  - destruct (outside_temp_flags_cases r) as [E | [s E]]; rewrite E in H;
      cbn in H; [ exact H | ].
    destruct H as [H | []]. subst f. cbn in Hf.
    repeat (destruct Hf as [Hf | Hf]; [ discriminate Hf | ]). exact Hf.
  - destruct (outside_rh_flags_cases r) as [E | [s E]]; rewrite E in H;
      cbn in H; [ exact H | ].
    destruct H as [H | []]. subst f. cbn in Hf.
    repeat (destruct Hf as [Hf | Hf]; [ congruence | ]). exact Hf.
  - apply drift_flags_are_drift in H. congruence.
Qed.

End ClassifyFacts.

(* ================================================================= *)
(** * Facts about the sort and the shifted columns *)
(* ================================================================= *)

#[export] Instance Z_OrderCompare : OrderCompare Z.compare.
Proof.
  split.
  - apply Z.compare_refl.
  - apply Z.compare_eq.
  - intros a b. apply Z.compare_antisym.
  - intros a b c. rewrite !Z.compare_lt_iff. lia.
Qed.

#[export] Instance string_OrderCompare : OrderCompare String.compare.
Proof.
  split.
  - intros a. now apply OrderedTypeEx.String_as_OT.cmp_eq.
  - intros a b. apply String.compare_eq_iff.
  - intros a b. apply String.compare_antisym.
  - intros a b c H1 H2.
    apply OrderedTypeEx.String_as_OT.cmp_lt in H1, H2.
    apply OrderedTypeEx.String_as_OT.cmp_lt.
    eapply OrderedTypeEx.String_as_OT.lt_trans; eassumption.
Qed.

#[export] Instance na_last_OrderCompare {A : Type} (cmp : A -> A -> comparison)
    `{OrderCompare A cmp} : OrderCompare (na_last_compare cmp).
Proof.
  split.
  - intros [a|]; cbn; [ apply cmp_refl | reflexivity ].
  - intros [a|] [b|]; cbn; intros E; try discriminate; try reflexivity.
    f_equal. now apply cmp_eq.
  - intros [a|] [b|]; cbn; try reflexivity. apply cmp_antisym.
  - intros [a|] [b|] [c|]; cbn; try discriminate; try reflexivity.
    apply cmp_lt_trans.
Qed.

#[export] Instance lex_OrderCompare {A B : Type} (ca : A -> A -> comparison)
    (cb : B -> B -> comparison) `{OrderCompare A ca} `{OrderCompare B cb}
    : OrderCompare (lex_compare ca cb).
Proof.
  split.
  - intros [a b]. unfold lex_compare. cbn. rewrite cmp_refl. apply cmp_refl.
  - intros [a b] [a' b']. unfold lex_compare. cbn.
    destruct (ca a a') eqn:E; try discriminate.
    intros E'. apply cmp_eq in E, E'. congruence.
  - intros [a b] [a' b']. unfold lex_compare. cbn.
    rewrite (cmp_antisym (cmp := ca) a a').
    destruct (ca a a'); cbn; try reflexivity. apply cmp_antisym.
  - intros [a1 b1] [a2 b2] [a3 b3]. unfold lex_compare. cbn.
    destruct (ca a1 a2) eqn:E12; try discriminate;
      destruct (ca a2 a3) eqn:E23; try discriminate; intros H1 H2.
    + apply cmp_eq in E12, E23. subst. rewrite cmp_refl.
      eapply cmp_lt_trans; eassumption.
    + apply cmp_eq in E12. subst. now rewrite E23.
    + apply cmp_eq in E23. subst. now rewrite E12.
    + now rewrite (cmp_lt_trans _ _ _ E12 E23).
Qed.

Section CompareFacts.

Context {A : Type} (cmp : A -> A -> comparison) `{OrderCompare A cmp}.

Lemma cmp_gt_lt a b : cmp a b = Gt -> cmp b a = Lt.
Proof. intros E. rewrite cmp_antisym, E. reflexivity. Qed.

Lemma cmp_not_gt_trans a b c :
  cmp a b <> Gt -> cmp b c <> Gt -> cmp a c <> Gt.
Proof.
  intros H1 H2 H3. apply cmp_gt_lt in H3.
  destruct (cmp a b) eqn:E1; try congruence.
  - apply cmp_eq in E1. subst b.
    rewrite cmp_antisym, H3 in H2. cbn in H2. congruence.
  - pose proof (cmp_lt_trans _ _ _ H3 E1) as E.
    rewrite cmp_antisym, E in H2. cbn in H2. congruence.
Qed.

End CompareFacts.

Lemma sort_compare_key r1 r2 :
  sort_compare r1 r2 =
  lex_compare (na_last_compare String.compare) (na_last_compare Z.compare)
    (sort_key r1) (sort_key r2).
Proof. reflexivity. Qed.

Lemma key_le_iff a b : key_le a b <-> sort_compare a b <> Gt.
Proof.
  unfold key_le, sort_leb.
  destruct (sort_compare a b); split; congruence.
Qed.

Lemma key_le_trans a b c : key_le a b -> key_le b c -> key_le a c.
Proof.
  rewrite !key_le_iff, !sort_compare_key.
  apply cmp_not_gt_trans. typeclasses eauto.
Qed.

Lemma key_le_total a b : sort_leb a b = false -> key_le b a.
Proof.
  unfold key_le, sort_leb. rewrite !sort_compare_key.
  destruct (lex_compare _ _ (sort_key a) (sort_key b)) eqn:E;
    try discriminate.
  intros _. apply cmp_gt_lt in E; [ | typeclasses eauto ].
  now rewrite E.
Qed.

Lemma insert_row_perm r l : Permutation (r :: l) (insert_row r l).
Proof.
  induction l as [|x l IH]; cbn.
  - reflexivity.
  - destruct (sort_leb r x).
    + reflexivity.
    + rewrite perm_swap. now constructor.
Qed.

Lemma sort_values_perm df : Permutation df (sort_values df).
Proof.
  induction df as [|r df IH]; cbn.
  - constructor.
  - rewrite <- insert_row_perm. now constructor.
Qed.

Lemma insert_row_sorted r l :
  StronglySorted key_le l -> StronglySorted key_le (insert_row r l).
Proof.
  induction 1 as [|x l Hs IH Hx]; cbn.
  - repeat constructor.
  - destruct (sort_leb r x) eqn:E.
    + constructor; [ now constructor | ].
      constructor; [ exact E | ].
      rewrite Forall_forall in *. intros y Hy.
      eapply key_le_trans; [ exact E | auto ].
    + constructor; [ exact IH | ].
      rewrite Forall_forall in *. intros y Hy.
      apply (Permutation_in _ (Permutation_sym (insert_row_perm r l))) in Hy.
      destruct Hy as [<- | Hy]; [ now apply key_le_total | auto ].
Qed.

Lemma sort_values_sorted df : StronglySorted key_le (sort_values df).
Proof.
  induction df as [|r df IH]; cbn.
  - constructor.
  - now apply insert_row_sorted.
Qed.

(** *** The frame that is returned *)

Lemma shifted_columns_base seen df : map base (shifted_columns seen df) = df.
Proof.
  revert seen. induction df as [|r df IH]; intros seen; cbn.
  - reflexivity.
  - now rewrite IH.
Qed.

Lemma shifted_columns_app seen l1 l2 :
  shifted_columns seen (l1 ++ l2) =
  shifted_columns seen l1 ++ shifted_columns (rev l1 ++ seen) l2.
Proof.
  revert seen. induction l1 as [|r l1 IH]; intros seen; cbn.
  - reflexivity.
  - rewrite IH, <- app_assoc. reflexivity.
Qed.

(** A row is returned exactly when its subtraction does not raise, and it
    is then the row read off the source. *)
Lemma shift_row_eq seen r :
  shift_row seen r =
  match timedelta_hours
          (datetime r)
          (match prior_in_group seen r with
           | Some p => datetime p
           | None => None
           end) with
  | Returned _ => Returned (shifted_row seen r)
  | Raised e => Raised e
  end.
Proof.
  unfold shift_row, shifted_row, hours_between.
  destruct (timedelta_hours _ _); reflexivity.
Qed.

Lemma shift_row_returned seen r s :
  shift_row seen r = Returned s -> s = shifted_row seen r.
Proof.
  rewrite shift_row_eq. destruct (timedelta_hours _ _); congruence.
Qed.

Lemma timedelta_hours_raised t prev e :
  timedelta_hours t prev = Raised e -> e = Exception "OverflowError".
Proof.
  unfold timedelta_hours, timedelta.
  destruct t as [a|], prev as [b|]; try discriminate.
  destruct ((- 2 ^ 63 <? a - b) && (a - b <? 2 ^ 63))%Z; congruence.
Qed.

Lemma timedelta_hours_fits a b :
  (Z.abs (a - b) < 2 ^ 63)%Z ->
  timedelta_hours (Some a) (Some b) = Returned (total_hours (Some (a - b)%Z)).
Proof.
  intros H. unfold timedelta_hours, timedelta.
  replace ((- 2 ^ 63 <? a - b) && (a - b <? 2 ^ 63))%Z with true;
    [ reflexivity | ].
  symmetry. apply andb_true_iff. split; apply Z.ltb_lt; lia.
Qed.

Lemma shift_columns_returned seen df rows :
  shift_columns seen df = Returned rows -> rows = shifted_columns seen df.
Proof.
  revert seen rows. induction df as [|r df IH]; intros seen rows; cbn.
  - congruence.
  - destruct (shift_row seen r) as [s|e] eqn:Es; [ | discriminate ].
    destruct (shift_columns (r :: seen) df) as [rest|e] eqn:Er;
      [ | discriminate ].
    intros H. injection H as <-.
    now rewrite (shift_row_returned _ _ Es), (IH _ _ Er).
Qed.

(** In a returned frame every row was returned. *)
Lemma shift_columns_row seen df rows before r after :
  shift_columns seen df = Returned rows ->
  df = before ++ r :: after ->
  shift_row (rev before ++ seen) r
  = Returned (shifted_row (rev before ++ seen) r).
Proof.
  revert seen rows before. induction df as [|x df IH];
    intros seen rows before; cbn.
  - intros _ E. destruct before; discriminate E.
  - destruct (shift_row seen x) as [s|e] eqn:Es; [ | discriminate ].
    destruct (shift_columns (x :: seen) df) as [rest|e] eqn:Er;
      [ | discriminate ].
    intros _ E. destruct before as [|y before]; cbn in E.
    + injection E as -> _. cbn.
      now rewrite Es, (shift_row_returned _ _ Es).
    + injection E as -> E. cbn. rewrite <- app_assoc. cbn.
      now apply (IH _ _ _ Er).
Qed.

(** A frame all of whose rows are returned is returned. *)
Lemma shift_columns_fit seen df :
  (forall before r after,
     df = before ++ r :: after ->
     exists s, shift_row (rev before ++ seen) r = Returned s) ->
  shift_columns seen df = Returned (shifted_columns seen df).
Proof.
  revert seen. induction df as [|x df IH]; intros seen H; cbn.
  - reflexivity.
  - destruct (H [] x df eq_refl) as [s Es]. cbn in Es.
    rewrite Es, (shift_row_returned _ _ Es).
    rewrite IH; [ reflexivity | ].
    intros before r after E.
    destruct (H (x :: before) r after) as [s' Es'].
    + cbn. now rewrite E.
    + cbn in Es'. rewrite <- app_assoc in Es'. eauto.
Qed.

Lemma evaluate_records_eq df :
  evaluate_records df =
  match shift_columns [] (sort_values df) with
  | Returned rows => Returned (map apply_classify rows)
  | Raised e => Raised e
  end.
Proof. destruct df; reflexivity. Qed.

(** What [evaluate_records] returns is the frame read off the source. *)
Lemma evaluate_records_returned df rows :
  evaluate_records df = Returned rows -> rows = evaluated_rows df.
Proof.
  rewrite evaluate_records_eq. unfold evaluated_rows.
  destruct (shift_columns [] (sort_values df)) as [l|e] eqn:E;
    [ | discriminate ].
  intros H. injection H as <-. now rewrite (shift_columns_returned _ _ E).
Qed.

(** The only exception of [evaluate_records] is the overflow of a
    difference of timestamps. *)
Lemma evaluate_records_raised df e :
  evaluate_records df = Raised e -> e = Exception "OverflowError".
Proof.
  rewrite evaluate_records_eq.
  generalize (sort_values df) as l. generalize (@nil Measurement) as seen.
  intros seen l. revert seen.
  induction l as [|x l IH]; intros seen; cbn; [ discriminate | ].
  rewrite shift_row_eq.
  destruct (timedelta_hours _ _) as [dh|e0] eqn:Et.
  - specialize (IH (x :: seen)).
    destruct (shift_columns (x :: seen) l) as [rest|e1]; [ discriminate | ].
    intros H. injection H as <-. now apply IH.
  - intros H. injection H as <-. eapply timedelta_hours_raised. eassumption.
Qed.

Lemma in_timestamps df r t :
  In r df -> datetime r = Some t -> In t (timestamps df).
Proof.
  intros Hin Ht. unfold timestamps. apply in_flat_map.
  exists r. rewrite Ht. split; [ exact Hin | now left ].
Qed.

Lemma timestamps_fit_spec df r p a b :
  timestamps_fit df = true ->
  In r df -> In p df -> datetime r = Some a -> datetime p = Some b ->
  (Z.abs (a - b) < 2 ^ 63)%Z.
Proof.
  unfold timestamps_fit. intros H Hr Hp Ha Hb.
  rewrite forallb_forall in H.
  specialize (H a (in_timestamps _ _ Hr Ha)).
  rewrite forallb_forall in H.
  specialize (H b (in_timestamps _ _ Hp Hb)).
  now apply Z.ltb_lt in H.
Qed.

(** With all the timestamps of the frame less than [2^63] nanoseconds
    apart, no subtraction overflows and the frame is returned. *)
Lemma evaluate_records_fit df :
  timestamps_fit df = true ->
  evaluate_records df = Returned (evaluated_rows df).
Proof.
  intros Hfit. rewrite evaluate_records_eq. unfold evaluated_rows.
  rewrite shift_columns_fit; [ reflexivity | ].
  intros before r after E. rewrite app_nil_r. rewrite shift_row_eq.
  assert (Hr : In r df).
  { apply (Permutation_in _ (Permutation_sym (sort_values_perm df))).
    rewrite E. apply in_or_app. right. now left. }
  destruct (prior_in_group (rev before) r) as [p|] eqn:Hp.
  - assert (Hpin : In p df).
    { apply (Permutation_in _ (Permutation_sym (sort_values_perm df))).
      rewrite E. apply in_or_app. left. apply in_rev.
      unfold prior_in_group in Hp. now apply find_some in Hp. }
    destruct (datetime r) as [a|] eqn:Ea; [ | cbn; eauto ].
    destruct (datetime p) as [b|] eqn:Eb; [ | cbn; eauto ].
    assert (Hab : (Z.abs (a - b) < 2 ^ 63)%Z)
      by exact (@timestamps_fit_spec df r p a b Hfit Hr Hpin Ea Eb).
    rewrite (@timedelta_hours_fits a b Hab). eauto.
  - destruct (datetime r); cbn; eauto.
Qed.

Lemma evaluated_rows_measurements df :
  map measurement_of (evaluated_rows df) = sort_values df.
Proof.
  unfold evaluated_rows. rewrite map_map.
  change (fun x => measurement_of (apply_classify x)) with base.
  apply shifted_columns_base.
Qed.

(** Every row of the result is the classification of a row of the sorted
    frame, shifted against the rows above it, and conversely. *)
Lemma evaluated_rows_row df before r after :
  sort_values df = before ++ r :: after ->
  In (apply_classify (shifted_row (rev before) r)) (evaluated_rows df).
Proof.
  intros E. unfold evaluated_rows. rewrite E, shifted_columns_app. cbn.
  rewrite app_nil_r, map_app. apply in_or_app. right. now left.
Qed.

Lemma evaluated_rows_inv df e :
  In e (evaluated_rows df) ->
  exists before r after,
    sort_values df = before ++ r :: after /\
    e = apply_classify (shifted_row (rev before) r).
Proof.
  unfold evaluated_rows.
  generalize (sort_values df) as l. intros l.
  assert (G : forall seen0 l,
             In e (map apply_classify (shifted_columns (rev seen0) l)) ->
             exists before r after,
               l = before ++ r :: after /\
               e = apply_classify (shifted_row (rev (seen0 ++ before)) r)).
  { clear l. intros seen0 l. revert seen0.
    induction l as [|x l IH]; intros seen0; cbn; [ intros [] | ].
    intros [<- | Hin].
    - exists [], x, l. rewrite app_nil_r. split; reflexivity.
    - specialize (IH (seen0 ++ [x])).
      rewrite rev_app_distr in IH. cbn in IH.
      destruct (IH Hin) as (before & r & after & -> & ->).
      exists (x :: before), r, after. rewrite <- app_assoc. split; reflexivity. }
  intros Hin. apply (G []) in Hin. exact Hin.
Qed.

(** Each row of the sorted frame is returned by [shift_row] in a frame that
    is returned, and its classification is a row of the result. *)
Lemma evaluate_records_row df rows before r after :
  evaluate_records df = Returned rows ->
  sort_values df = before ++ r :: after ->
  shift_row (rev before) r = Returned (shifted_row (rev before) r)
  /\ In (apply_classify (shifted_row (rev before) r)) rows.
Proof.
  intros Hret E. split.
  - rewrite evaluate_records_eq in Hret.
    destruct (shift_columns [] (sort_values df)) as [l|e] eqn:El;
      [ | discriminate ].
    pose proof (@shift_columns_row [] (sort_values df) l before r after El E) as H.
    now rewrite app_nil_r in H.
  - rewrite (@evaluate_records_returned df rows Hret).
    now apply evaluated_rows_row with (after := after).
Qed.

(** Every row of the input has a row in the result. *)
Lemma evaluate_records_covers df rows m :
  evaluate_records df = Returned rows ->
  In m df -> exists e, In e rows /\ measurement_of e = m.
Proof.
  intros Hret Hin.
  apply (Permutation_in _ (sort_values_perm df)) in Hin.
  rewrite <- (evaluated_rows_measurements df) in Hin.
  rewrite <- (@evaluate_records_returned df rows Hret) in Hin.
  apply in_map_iff in Hin as (e & He & Hin). eauto.
Qed.

(** Every row of the result is the row of an input row. *)
Lemma evaluate_records_from df rows e :
  evaluate_records df = Returned rows ->
  In e rows -> In (measurement_of e) df.
Proof.
  intros Hret Hin.
  apply (Permutation_in _ (Permutation_sym (sort_values_perm df))).
  rewrite <- (evaluated_rows_measurements df).
  rewrite <- (@evaluate_records_returned df rows Hret).
  now apply in_map.
Qed.

Lemma apply_classify_fields r :
  range_status (apply_classify r) = status_after_rh r /\
  flags (apply_classify r) =
    (temp_flags r ++ rh_flags r ++ mould_flags r ++ outside_temp_flags r
     ++ outside_rh_flags r ++ drift_flags r)%list.
Proof. unfold apply_classify. cbn. rewrite classify_eq. split; reflexivity. Qed.

(* ================================================================= *)
(** * The humidity bands *)
(* ================================================================= *)

Section Bands.

Local Open Scope string_scope.
Local Open Scope float_scope.
Local Open Scope list_scope.

Import F64 F64Facts.

Lemma between_notna lo x hi : between lo x hi = true -> notna x = true.
Proof.
  unfold between. intros H. apply andb_true_iff in H as [H _].
  eapply leb_notna_r; eassumption.
Qed.

(** For a number, being outside [lo, hi] is being below [lo] or above [hi]:
    the test the source writes is the negation of the inclusive band. *)
Lemma outside_band lo x hi :
  notna lo = true -> notna hi = true -> notna x = true ->
  (x <? lo) || (hi <? x) = negb (between lo x hi).
Proof.
  intros Hlo Hhi Hx. unfold between.
  destruct (lo <=? x) eqn:E1; cbn.
  - rewrite (leb_not_ltb E1). cbn.
    destruct (x <=? hi) eqn:E2; cbn.
    + apply leb_not_ltb; assumption.
    + apply not_leb_ltb; assumption.
  - rewrite (not_leb_ltb Hlo Hx E1). reflexivity.
Qed.

Lemma rh_outside_core_band m :
  notna (rh m) = true ->
  rh_outside_core m = negb (between 45 (rh m) 55).
Proof. intros H. apply outside_band; [ reflexivity | reflexivity | exact H ]. Qed.

Lemma temp_out_band m :
  notna (temp_c m) = true ->
  temp_out m = negb (between 15 (temp_c m) 25).
Proof. intros H. apply outside_band; [ reflexivity | reflexivity | exact H ]. Qed.

(** The core band lies inside the outer band. *)
Lemma core_inside_outer x : between 45 x 55 = true -> between 40 x 60 = true.
Proof.
  unfold between. intros H. apply andb_true_iff in H as [H1 H2].
  apply andb_true_iff. split.
  - apply ltb_leb. eapply ltb_leb_trans; [ | exact H1 ]. reflexivity.
  - apply ltb_leb. eapply leb_ltb_trans; [ exact H2 | ]. reflexivity.
Qed.

Lemma core_below_mould x : between 45 x 55 = true -> (70 <=? x) = false.
Proof.
  unfold between. intros H. apply andb_true_iff in H as [_ H].
  apply ltb_not_leb. eapply leb_ltb_trans; [ exact H | ]. reflexivity.
Qed.

Lemma isna_notna x : isna x = true -> notna x = false.
Proof. unfold isna, notna. intros ->. reflexivity. Qed.

Lemma isna_between lo x hi : isna x = true -> between lo x hi = false.
Proof.
  intros H. unfold between. rewrite (@isna_leb_r lo x H). reflexivity.
Qed.

(** Membership of a fixed label in the flags of a row is decided by the
    first three blocks. *)
Lemma fixed_flag_in r f :
  In f ["Temp out of range|danger"; "RH in outer band|warn";
        "RH out of range|danger"; "Mould risk|danger"] ->
  In f (flags (apply_classify r)) <->
  In f (temp_flags r ++ rh_flags r ++ mould_flags r).
Proof.
  intros Hf. destruct (apply_classify_fields r) as [_ ->].
  rewrite !app_assoc. rewrite <- (app_assoc _ (outside_rh_flags r)).
  rewrite <- (app_assoc _ (outside_temp_flags r)).
  rewrite (in_app_iff (_ ++ mould_flags r)).
  split; [ intros [H | H] | intros H ].
  - exact H.
  - exfalso. eapply fixed_not_in_formatted; eassumption.
  - left. exact H.
Qed.

End Bands.

(* ================================================================= *)
(** * Classification of one row *)
(* ================================================================= *)

Section Classification.

Local Open Scope string_scope.
Local Open Scope float_scope.
Local Open Scope list_scope.

Import F64 F64Facts.

Lemma evaluated_row df rows e :
  evaluate_records df = Returned rows -> In e rows ->
  e = apply_classify (row e).
Proof.
  intros Hret H. rewrite (@evaluate_records_returned df rows Hret) in H.
  apply evaluated_rows_inv in H as (b & r & a & _ & ->).
  reflexivity.
Qed.

Lemma rh_flags_inside r :
  between 45 (rh (base r)) 55 = true -> rh_flags r = [].
Proof.
  intros H. unfold rh_flags.
  rewrite (rh_outside_core_band _ (between_notna _ _ _ H)), H. reflexivity.
Qed.

Lemma rh_flags_outer r :
  between 45 (rh (base r)) 55 = false -> between 40 (rh (base r)) 60 = true ->
  rh_flags r = ["RH in outer band|warn"].
Proof.
  intros H1 H2. unfold rh_flags.
  rewrite (rh_outside_core_band _ (between_notna _ _ _ H2)), H1, H2.
  reflexivity.
Qed.

Lemma rh_flags_out r :
  notna (rh (base r)) = true -> between 40 (rh (base r)) 60 = false ->
  rh_flags r = ["RH out of range|danger"].
Proof.
  intros Hn H. unfold rh_flags.
  rewrite (rh_outside_core_band _ Hn), H.
  destruct (between 45 (rh (base r)) 55) eqn:E; [ | reflexivity ].
  apply core_inside_outer in E. congruence.
Qed.

Lemma status_inside r :
  between 45 (rh (base r)) 55 = true ->
  status_after_rh r = if temp_out (base r) then out else core.
Proof.
  intros H. unfold status_after_rh, status_after_temp.
  rewrite (rh_outside_core_band _ (between_notna _ _ _ H)), H. reflexivity.
Qed.

Lemma status_outer r :
  between 45 (rh (base r)) 55 = false -> between 40 (rh (base r)) 60 = true ->
  status_after_rh r = if temp_out (base r) then out else outer.
Proof.
  intros H1 H2. unfold status_after_rh, status_after_temp.
  rewrite (rh_outside_core_band _ (between_notna _ _ _ H2)), H1, H2. cbn.
  destruct (temp_out (base r)); reflexivity.
Qed.

Lemma status_out r :
  notna (rh (base r)) = true -> between 40 (rh (base r)) 60 = false ->
  status_after_rh r = out.
Proof.
  intros Hn H. unfold status_after_rh.
  rewrite (rh_outside_core_band _ Hn), H.
  destruct (between 45 (rh (base r)) 55) eqn:E; [ | reflexivity ].
  apply core_inside_outer in E. congruence.
Qed.

Ltac fixed_flag :=
  rewrite fixed_flag_in by (cbn; tauto).

Ltac flag_cases :=
  unfold temp_flags, mould_flags;
  repeat match goal with
  | |- context [if ?b then _ else _] => destruct b
  end; cbn; intuition congruence.

(** C1. The humidity step of [classify], for every measurement of every
    frame.  [evaluate_records] returns a frame whenever the timestamps lie
    less than [2^63] nanoseconds apart, and in the frame it returns every
    measurement has a row.  For each such row: with the relative humidity
    outside the core band [45, 55] and inside the outer band [40, 60] (both
    bands closed), the status is [outer], or stays [out] when the
    temperature test already set it, and "RH in outer band" (warn) is
    flagged.  With the humidity a number outside the outer band, the status
    is [out] and "RH out of range" (danger) is flagged.  With the humidity
    inside the core band, its two ends included, neither flag is raised and
    the status is the one the temperature test left. *)
Theorem humidity_classification_step (df : list Measurement) :
  (timestamps_fit df = true -> exists rows, evaluate_records df = Returned rows)
  /\ forall rows, evaluate_records df = Returned rows ->
     forall m, In m df ->
       (exists e, In e rows /\ measurement_of e = m)
       /\ forall e, In e rows -> measurement_of e = m ->
          (between 45 (rh m) 55 = false -> between 40 (rh m) 60 = true ->
             range_status e = (if temp_out m then out else outer)
             /\ In "RH in outer band|warn" (flags e)
             /\ ~ In "RH out of range|danger" (flags e))
          /\ (notna (rh m) = true -> between 40 (rh m) 60 = false ->
             range_status e = out
             /\ In "RH out of range|danger" (flags e)
             /\ ~ In "RH in outer band|warn" (flags e))
          /\ (between 45 (rh m) 55 = true ->
             range_status e = (if temp_out m then out else core)
             /\ ~ In "RH in outer band|warn" (flags e)
             /\ ~ In "RH out of range|danger" (flags e)).
Proof.
  split; [ intros Hfit; rewrite (@evaluate_records_fit df Hfit); eauto | ].
  intros rows Hret m Hm.
  split; [ now apply evaluate_records_covers with (df := df) | ].
  intros e Hin <-. rewrite (@evaluated_row df rows e Hret Hin).
  unfold measurement_of. cbn [row apply_classify].
  set (r := row e).
  destruct (apply_classify_fields r) as [Hs _]. rewrite Hs.
  split; [ | split ].
  - intros Hcore Houter. split; [ now apply status_outer | ].
    split; fixed_flag; rewrite (rh_flags_outer _ Hcore Houter); flag_cases.
  - intros Hnum Houter. split; [ now apply status_out | ].
    split; fixed_flag; rewrite (rh_flags_out _ Hnum Houter); flag_cases.
  - intros Hcore. split; [ now apply status_inside | ].
    split; fixed_flag; rewrite (rh_flags_inside _ Hcore); flag_cases.
Qed.

(** Two readings of one room an hour apart, the first at 42 % and 20 C: the
    frame is returned and the first reading has a row, [outer] and
    flagged. *)
Lemma humidity_classification_step_witness :
  exists rows,
    evaluate_records [Samples.reading "a" 0 "Workroom" 20 42;
                      Samples.reading "b" Samples.hour "Workroom" 20 50]
    = Returned rows
    /\ exists e,
         In e rows
         /\ measurement_of e = Samples.reading "a" 0 "Workroom" 20 42
         /\ range_status e = outer
         /\ In "RH in outer band|warn" (flags e).
Proof.
  destruct (humidity_classification_step
              [Samples.reading "a" 0 "Workroom" 20 42;
               Samples.reading "b" Samples.hour "Workroom" 20 50])
    as [Hret Hall].
  destruct (Hret eq_refl) as [rows Hr].
  destruct (Hall rows Hr (Samples.reading "a" 0 "Workroom" 20 42)
              (or_introl eq_refl)) as [[e [Hin Hm]] Hc].
  destruct (Hc e Hin Hm) as [H _].
  destruct (H eq_refl eq_refl) as (Hs & Hf & _).
  exists rows. split; [ exact Hr | ].
  exists e. repeat split; assumption.
Defined.

(** C7. Every measurement whose relative humidity is at least the
    mould-risk threshold 70 has a row in the frame [evaluate_records]
    returns, and each of its rows carries the flag "Mould risk" (danger);
    the status of the row plays no part.  The frame is returned whenever
    the timestamps lie less than [2^63] nanoseconds apart. *)
Theorem mould_risk_flag (df : list Measurement) :
  (timestamps_fit df = true -> exists rows, evaluate_records df = Returned rows)
  /\ forall rows, evaluate_records df = Returned rows ->
     forall m, In m df -> (70 <=? rh m) = true ->
       (exists e, In e rows /\ measurement_of e = m)
       /\ forall e, In e rows -> measurement_of e = m ->
          In "Mould risk|danger" (flags e).
Proof.
  split; [ intros Hfit; rewrite (@evaluate_records_fit df Hfit); eauto | ].
  intros rows Hret m Hm H.
  split; [ now apply evaluate_records_covers with (df := df) | ].
  intros e Hin <-. rewrite (@evaluated_row df rows e Hret Hin).
  unfold measurement_of in H.
  fixed_flag. rewrite !in_app_iff. right. right.
  unfold mould_flags. rewrite H. now left.
Qed.

(** Two readings of one room an hour apart, the second at 75 %: it has a
    row, and the row is flagged. *)
Lemma mould_risk_flag_witness :
  exists rows,
    evaluate_records [Samples.reading "a" 0 "Workroom" 20 50;
                      Samples.reading "b" Samples.hour "Workroom" 20 75]
    = Returned rows
    /\ exists e,
         In e rows
         /\ measurement_of e = Samples.reading "b" Samples.hour "Workroom" 20 75
         /\ In "Mould risk|danger" (flags e).
Proof.
  destruct (mould_risk_flag
              [Samples.reading "a" 0 "Workroom" 20 50;
               Samples.reading "b" Samples.hour "Workroom" 20 75])
    as [Hret Hall].
  destruct (Hret eq_refl) as [rows Hr].
  destruct (Hall rows Hr (Samples.reading "b" Samples.hour "Workroom" 20 75)
              (or_intror (or_introl eq_refl)) eq_refl) as [[e [Hin Hm]] Hc].
  exists rows. split; [ exact Hr | ].
  exists e. repeat split; try assumption. now apply Hc.
Defined.

(** At that humidity the status is always [out]: 70 lies above the outer
    band. *)
Lemma mould_risk_status (df : list Measurement) (rows : list Evaluated)
    (e : Evaluated) :
  evaluate_records df = Returned rows ->
  In e rows ->
  (70 <=? rh (measurement_of e)) = true ->
  range_status e = out.
Proof.
  intros Hret Hin H. rewrite (@evaluated_row df rows e Hret Hin).
  unfold measurement_of in H.
  destruct (apply_classify_fields (row e)) as [-> _].
  apply status_out.
  - eapply leb_notna_r; eassumption.
  - unfold between. apply andb_false_iff. right.
    apply ltb_not_leb. eapply ltb_leb_trans; [ | exact H ]. reflexivity.
Qed.

(** Readings that are missing compare false with every threshold. *)
Lemma missing_readings_flags r :
  isna (temp_c (base r)) = true -> isna (rh (base r)) = true ->
  status_after_rh r = core /\ flags (apply_classify r) = [].
Proof.
  intros Ht Hr.
  destruct (apply_classify_fields r) as [_ ->].
  assert (E1 : temp_out (base r) = false).
  { unfold temp_out. rewrite (@isna_ltb_l _ 15 Ht), (@isna_ltb_r 25 _ Ht).
    reflexivity. }
  assert (E2 : rh_outside_core (base r) = false).
  { unfold rh_outside_core. rewrite (@isna_ltb_l _ 45 Hr), (@isna_ltb_r 55 _ Hr).
    reflexivity. }
  split.
  - unfold status_after_rh, status_after_temp. now rewrite E1, E2.
  - unfold temp_flags, rh_flags, mould_flags. rewrite E1, E2.
    rewrite (@isna_leb_r 70 _ Hr). cbn [app].
    apply isna_nan in Ht, Hr.
    unfold outside_temp_flags, outside_rh_flags, outside_temp_block,
      outside_rh_block, drift_flags, temp_drift, rh_drift.
    rewrite Ht, Hr.
    rewrite (@isna_ltb_r OUTSIDE_TEMP_DELTA_WARN _
               (@abs_isna _ (sub_nan_l (outside_temp_c (base r))))).
    rewrite (@isna_ltb_r OUTSIDE_RH_DELTA_WARN _
               (@abs_isna _ (sub_nan_l (outside_rh (base r))))).
    assert (Dt : (4 <? (if notna (prev_temp r)
                        then abs (nan - prev_temp r) else 0)) = false).
    { destruct (notna (prev_temp r)); [ | reflexivity ].
      apply isna_ltb_r, abs_isna, sub_nan_l. }
    assert (Dr : (5 <? (if notna (prev_rh r)
                        then abs (nan - prev_rh r) else 0)) = false).
    { destruct (notna (prev_rh r)); [ | reflexivity ].
      apply isna_ltb_r, abs_isna, sub_nan_l. }
    rewrite Dt, Dr.
    destruct (notna (outside_temp_c (base r))),
      (notna (outside_rh (base r))), (drift_window r); reflexivity.
Qed.

(** C10. A measurement whose temperature and relative humidity are both
    missing ([NaN] after the numeric coercion of [prepare_data_frame]) is
    still classified: it has a row in the frame [evaluate_records] returns,
    and each of its rows has status [core] and carries none of "Temp out of
    range", "RH in outer band", "RH out of range" and "Mould risk"; indeed
    it carries no flag at all.  The frame is returned whenever the
    timestamps lie less than [2^63] nanoseconds apart. *)
Theorem missing_readings_pass_as_core (df : list Measurement) :
  (timestamps_fit df = true -> exists rows, evaluate_records df = Returned rows)
  /\ forall rows, evaluate_records df = Returned rows ->
     forall m, In m df ->
       isna (temp_c m) = true -> isna (rh m) = true ->
       (exists e, In e rows /\ measurement_of e = m)
       /\ forall e, In e rows -> measurement_of e = m ->
          range_status e = core
          /\ ~ In "Temp out of range|danger" (flags e)
          /\ ~ In "RH in outer band|warn" (flags e)
          /\ ~ In "RH out of range|danger" (flags e)
          /\ ~ In "Mould risk|danger" (flags e)
          /\ flags e = [].
Proof.
  split; [ intros Hfit; rewrite (@evaluate_records_fit df Hfit); eauto | ].
  intros rows Hret m Hm Ht Hr.
  split; [ now apply evaluate_records_covers with (df := df) | ].
  intros e Hin <-. rewrite (@evaluated_row df rows e Hret Hin).
  destruct (missing_readings_flags (row e) Ht Hr) as [Hs Hf].
  rewrite Hf. destruct (apply_classify_fields (row e)) as [-> _].
  repeat split; auto.
Qed.

(** A reading that parsed, and an hour later in the same room one whose
    temperature and humidity did not: the second has a row, [core] and
    without a flag. *)
Lemma missing_readings_pass_as_core_witness :
  exists rows,
    evaluate_records [Samples.reading "a" 0 "Workroom" 20 50;
                      Samples.unparsed "b" Samples.hour "Workroom"]
    = Returned rows
    /\ exists e,
         In e rows
         /\ measurement_of e = Samples.unparsed "b" Samples.hour "Workroom"
         /\ range_status e = core
         /\ flags e = [].
Proof.
  destruct (missing_readings_pass_as_core
              [Samples.reading "a" 0 "Workroom" 20 50;
               Samples.unparsed "b" Samples.hour "Workroom"])
    as [Hret Hall].
  destruct (Hret eq_refl) as [rows Hr].
  destruct (Hall rows Hr (Samples.unparsed "b" Samples.hour "Workroom")
              (or_intror (or_introl eq_refl)) eq_refl eq_refl)
    as [[e [Hin Hm]] Hc].
  destruct (Hc e Hin Hm) as (Hs & _ & _ & _ & _ & Hf).
  exists rows. split; [ exact Hr | ].
  exists e. repeat split; assumption.
Defined.

End Classification.

(* ================================================================= *)
(** * The evaluated frame *)
(* ================================================================= *)

Section EvaluatedFrame.

Local Open Scope string_scope.
Local Open Scope float_scope.
Local Open Scope list_scope.

Import F64 F64Facts.


(** No prior row: no row above has the location of [r]. *)
Lemma prior_in_group_none seen r :
  prior_in_group seen r = None <->
  forall x, In x seen -> same_location r x = false.
Proof.
  unfold prior_in_group. split.
  - intros H x Hx. eapply find_none; eassumption.
  - intros H. destruct (find (same_location r) seen) eqn:E; [ | reflexivity ].
    apply find_some in E as [Hin Hs]. rewrite (H _ Hin) in Hs. discriminate.
Qed.

(** The prior row, when there is one, is a row above with that location. *)
Lemma prior_in_group_some seen r p :
  prior_in_group seen r = Some p -> In p seen /\ same_location r p = true.
Proof. unfold prior_in_group. apply find_some. Qed.

Lemma drift_window_no_prior seen r :
  prior_in_group seen r = None -> drift_window (shifted_row seen r) = false.
Proof.
  intros H. unfold drift_window, shifted_row. rewrite H. cbn.
  unfold hours_between, timedelta_hours. destruct (datetime r); reflexivity.
Qed.

(** C8. A row with its temperature in [15, 25] and its relative humidity in
    [45, 55], recorded without an outside snapshot (both outside readings
    missing) and with no prior row in its location, is evaluated to status
    [core] with an empty flag list: in the frame [evaluate_records]
    returns, the row [shift_row] makes of it is classified so.  The frame
    is returned whenever the timestamps lie less than [2^63] nanoseconds
    apart. *)
Theorem compliant_first_reading_is_core
    (df before : list Measurement) (r : Measurement) (after : list Measurement) :
  sort_values df = before ++ r :: after ->
  prior_in_group (rev before) r = None ->
  between 15 (temp_c r) 25 = true ->
  between 45 (rh r) 55 = true ->
  isna (outside_temp_c r) = true ->
  isna (outside_rh r) = true ->
  (timestamps_fit df = true -> exists rows, evaluate_records df = Returned rows)
  /\ forall rows, evaluate_records df = Returned rows ->
     exists s,
       shift_row (rev before) r = Returned s
       /\ let e := apply_classify s in
          In e rows
          /\ measurement_of e = r
          /\ range_status e = core
          /\ flags e = [].
Proof.
  intros Hs Hp Ht Hr Hot Hor.
  split; [ intros Hfit; rewrite (@evaluate_records_fit df Hfit); eauto | ].
  intros rows Hret.
  destruct (@evaluate_records_row df rows before r after Hret Hs)
    as [Hrow Hin].
  exists (shifted_row (rev before) r). split; [ exact Hrow | ]. cbn zeta.
  split; [ exact Hin | ].
  split; [ reflexivity | ].
  set (sr := shifted_row (rev before) r).
  assert (Hb : base sr = r) by reflexivity.
  destruct (apply_classify_fields sr) as [-> ->].
  assert (E1 : temp_out r = false).
  { rewrite (temp_out_band _ (between_notna _ _ _ Ht)), Ht. reflexivity. }
  split.
  - rewrite status_inside by (rewrite Hb; exact Hr).
    rewrite Hb, E1. reflexivity.
  - unfold temp_flags. rewrite Hb, E1.
    rewrite rh_flags_inside by (rewrite Hb; exact Hr).
    unfold mould_flags. rewrite Hb, (core_below_mould _ Hr).
    unfold outside_temp_flags, outside_rh_flags, outside_temp_block,
      outside_rh_block. rewrite Hb.
    rewrite (isna_notna _ Hot), (isna_notna _ Hor).
    unfold drift_flags. unfold sr.
    rewrite (drift_window_no_prior _ _ Hp). reflexivity.
Qed.

(** A reading of 20 C and 50 %, the only one of its location, next to an
    out-of-range reading of another location. *)
Lemma compliant_first_reading_is_core_witness :
  exists rows,
    evaluate_records [Samples.reading "b" 0 "Compactus" 30 50;
                      Samples.reading "a" 0 "Workroom" 20 50]
    = Returned rows
    /\ exists e,
         In e rows
         /\ measurement_of e = Samples.reading "a" 0 "Workroom" 20 50
         /\ range_status e = core
         /\ flags e = [].
Proof.
  destruct (compliant_first_reading_is_core
              [Samples.reading "b" 0 "Compactus" 30 50;
               Samples.reading "a" 0 "Workroom" 20 50]
              [Samples.reading "b" 0 "Compactus" 30 50]
              (Samples.reading "a" 0 "Workroom" 20 50) []
              eq_refl eq_refl eq_refl eq_refl eq_refl eq_refl)
    as [Hret Hall].
  destruct (Hret eq_refl) as [rows Hr].
  destruct (Hall rows Hr) as (s & _ & Hin & Hm & Hs & Hf).
  exists rows. split; [ exact Hr | ].
  exists (apply_classify s). repeat split; assumption.
Defined.

(** ** Drift *)

Lemma drift_flag_kinds d :
  is_temp_drift_flag (temp_drift_flag d) = true
  /\ is_rh_drift_flag (temp_drift_flag d) = false
  /\ is_rh_drift_flag (rh_drift_flag d) = true
  /\ is_temp_drift_flag (rh_drift_flag d) = false.
Proof. repeat split. Qed.

Lemma not_drift_not_either f :
  is_drift_flag f = false ->
  is_temp_drift_flag f = false /\ is_rh_drift_flag f = false.
Proof. unfold is_drift_flag. apply orb_false_iff. Qed.

(** Outside the drift window no flag of a row is a drift flag. *)
Lemma no_drift_outside_window r f :
  drift_window r = false ->
  In f (flags (apply_classify r)) -> is_drift_flag f = false.
Proof.
  intros Hw. destruct (apply_classify_fields r) as [_ ->].
  rewrite !app_assoc, in_app_iff. rewrite <- !app_assoc.
  intros [H | H].
  - eapply non_drift_flags; eassumption.
  - unfold drift_flags in H. rewrite Hw in H. destruct H.
Qed.

(** Inside the window the drift flags are decided by the two magnitudes. *)
Lemma drift_inside_window r :
  drift_window r = true ->
  (if 4 <? temp_drift r
   then In (temp_drift_flag (temp_drift r)) (flags (apply_classify r))
   else forall f, In f (flags (apply_classify r)) ->
                  is_temp_drift_flag f = false)
  /\ (if 5 <? rh_drift r
      then In (rh_drift_flag (rh_drift r)) (flags (apply_classify r))
      else forall f, In f (flags (apply_classify r)) ->
                     is_rh_drift_flag f = false).
Proof.
  intros Hw. destruct (apply_classify_fields r) as [_ ->].
  assert (Hsplit : forall f,
             In f (temp_flags r ++ rh_flags r ++ mould_flags r
                   ++ outside_temp_flags r ++ outside_rh_flags r
                   ++ drift_flags r) ->
             is_drift_flag f = false \/ In f (drift_flags r)).
  { intros f. rewrite !app_assoc, in_app_iff. rewrite <- !app_assoc.
    intros [H | H]; [ left; eapply non_drift_flags; eassumption | now right ]. }
  assert (Hd : forall f, In f (drift_flags r) ->
             In f (temp_flags r ++ rh_flags r ++ mould_flags r
                   ++ outside_temp_flags r ++ outside_rh_flags r
                   ++ drift_flags r)).
  { intros f H. rewrite !in_app_iff. tauto. }
  assert (Hflags : drift_flags r =
             (if 4 <? temp_drift r then [temp_drift_flag (temp_drift r)]
              else [])
             ++ (if 5 <? rh_drift r then [rh_drift_flag (rh_drift r)]
                 else [])).
  { unfold drift_flags. now rewrite Hw. }
  split.
  - destruct (4 <? temp_drift r) eqn:Et.
    + apply Hd. rewrite Hflags. now left.
    + intros f Hf. destruct (Hsplit f Hf) as [H | H].
      * now apply not_drift_not_either in H.
      * rewrite Hflags in H. destruct (5 <? rh_drift r); cbn in H;
          [ destruct H as [<- | []]; reflexivity | destruct H ].
  - destruct (5 <? rh_drift r) eqn:Er.
    + apply Hd. rewrite Hflags. apply in_or_app. right. now left.
    + intros f Hf. destruct (Hsplit f Hf) as [H | H].
      * now apply not_drift_not_either in H.
      * rewrite Hflags in H. destruct (4 <? temp_drift r); cbn in H;
          [ destruct H as [<- | []]; reflexivity | destruct H ].
Qed.

(** When the prior value is there, the source's drift is the worded one. *)
Lemma worded_temp_drift_present r :
  notna (prev_temp r) = true -> worded_temp_drift r = temp_drift r.
Proof. unfold worded_temp_drift, temp_drift. now intros ->. Qed.

Lemma worded_rh_drift_present r :
  notna (prev_rh r) = true -> worded_rh_drift r = rh_drift r.
Proof. unfold worded_rh_drift, rh_drift. now intros ->. Qed.

(** C2, as the program has it.  Let [p] be the row just above [r] among the
    rows of its location in the sorted frame.  In a frame that
    [evaluate_records] returns, the hours [dh] elapsed between them have
    been computed without overflow.  If [dh] is defined and at most 24 (24
    itself included), [r] is flagged "Temp drift {d} C/24h" (warn) exactly
    when the drift [d] exceeds 4, where [d] is [|temp_c r - temp_c p|], and
    is [0] when the temperature of [p] is missing, so that no flag is raised
    then; likewise "RH drift {d}%/24h" against the limit 5.  If [r] has no
    prior row, or [dh] is undefined or above 24, [r] has no drift flag.
    The frame is returned whenever the timestamps lie less than [2^63]
    nanoseconds apart. *)
Theorem drift_flags_by_design
    (df before : list Measurement) (r : Measurement) (after : list Measurement) :
  sort_values df = before ++ r :: after ->
  (timestamps_fit df = true -> exists rows, evaluate_records df = Returned rows)
  /\ forall rows, evaluate_records df = Returned rows ->
     exists s,
       shift_row (rev before) r = Returned s
       /\ let e := apply_classify s in
          In e rows
          /\ measurement_of e = r
          /\ match prior_in_group (rev before) r with
             | None => forall f, In f (flags e) -> is_drift_flag f = false
             | Some p =>
                 exists dh,
                   timedelta_hours (datetime r) (datetime p) = Returned dh
                   /\ if notna dh && (dh <=? 24) then
                        let dt := drift_against (temp_c r) (temp_c p) in
                        let dr := drift_against (rh r) (rh p) in
                        (if 4 <? dt then In (temp_drift_flag dt) (flags e)
                         else forall f, In f (flags e) ->
                                        is_temp_drift_flag f = false)
                        /\ (if 5 <? dr then In (rh_drift_flag dr) (flags e)
                            else forall f, In f (flags e) ->
                                           is_rh_drift_flag f = false)
                      else forall f, In f (flags e) -> is_drift_flag f = false
             end.
Proof.
  intros Hs.
  split; [ intros Hfit; rewrite (@evaluate_records_fit df Hfit); eauto | ].
  intros rows Hret.
  destruct (@evaluate_records_row df rows before r after Hret Hs)
    as [Hrow Hin].
  exists (shifted_row (rev before) r). split; [ exact Hrow | ]. cbn zeta.
  split; [ exact Hin | ].
  split; [ reflexivity | ].
  destruct (prior_in_group (rev before) r) as [p|] eqn:Hp.
  - rewrite shift_row_eq, Hp in Hrow.
    destruct (timedelta_hours (datetime r) (datetime p)) as [dh|e0] eqn:Edh;
      [ | discriminate ].
    exists dh. split; [ reflexivity | ].
    assert (Hw : drift_window (shifted_row (rev before) r)
                 = notna dh && (dh <=? 24)).
    { unfold drift_window, shifted_row, hours_between.
      rewrite Hp. cbn [delta_hours]. now rewrite Edh. }
    assert (Ht : temp_drift (shifted_row (rev before) r)
                 = drift_against (temp_c r) (temp_c p)).
    { unfold temp_drift, shifted_row, drift_against. rewrite Hp. reflexivity. }
    assert (Hr : rh_drift (shifted_row (rev before) r)
                 = drift_against (rh r) (rh p)).
    { unfold rh_drift, shifted_row, drift_against. rewrite Hp. reflexivity. }
    rewrite <- Hw, <- Ht, <- Hr.
    destruct (drift_window (shifted_row (rev before) r)) eqn:E.
    + now apply drift_inside_window.
    + intros f. now apply no_drift_outside_window.
  - intros f. apply no_drift_outside_window.
    now apply drift_window_no_prior.
Qed.

(** Two readings of one location an hour apart, 20 C then 25 C: the second
    has a row flagged "Temp drift 5.0 C/24h". *)
Lemma drift_flags_by_design_witness :
  exists rows,
    evaluate_records [Samples.reading "b" Samples.hour "Workroom" 25 50;
                      Samples.reading "a" 0 "Workroom" 20 50]
    = Returned rows
    /\ exists e,
         In e rows
         /\ measurement_of e = Samples.reading "b" Samples.hour "Workroom" 25 50
         /\ In "Temp drift 5.0 C/24h|warn" (flags e).
Proof.
  destruct (drift_flags_by_design
              [Samples.reading "b" Samples.hour "Workroom" 25 50;
               Samples.reading "a" 0 "Workroom" 20 50]
              [Samples.reading "a" 0 "Workroom" 20 50]
              (Samples.reading "b" Samples.hour "Workroom" 25 50) []
              eq_refl) as [Hret Hall].
  destruct (Hret eq_refl) as [rows Hr].
  destruct (Hall rows Hr) as (s & Hs & Hin & Hm & dh & Hdh & H).
  exists rows. split; [ exact Hr | ].
  exists (apply_classify s). split; [ exact Hin | ]. split; [ exact Hm | ].
  injection Hdh as <-. exact (proj1 H).
Defined.

(** A prior row more than 24 hours earlier gives no drift flag. *)
Lemma no_drift_after_24_hours r f :
  (24 <? delta_hours r) = true ->
  In f (flags (apply_classify r)) -> is_drift_flag f = false.
Proof.
  intros H. apply no_drift_outside_window.
  unfold drift_window. rewrite (ltb_not_leb H). apply andb_false_r.
Qed.

(** The frames of the specification's examples: the same pair 30 hours
    apart carries no flag, exactly 24 hours apart it is flagged, and one
    nanosecond later it is not. *)
Example drift_one_hour_apart :
  flags_of (evaluate_records
              [Samples.reading "a" 0 "Workroom" 20 50;
               Samples.reading "b" Samples.hour "Workroom" 25 50])
  = Returned [[]; ["Temp drift 5.0 C/24h|warn"]].
Proof. reflexivity. Qed.

Example drift_thirty_hours_apart :
  flags_of (evaluate_records
              [Samples.reading "a" 0 "Workroom" 20 50;
               Samples.reading "b" (30 * Samples.hour) "Workroom" 25 50])
  = Returned [[]; []].
Proof. reflexivity. Qed.

Example drift_exactly_24_hours_apart :
  flags_of (evaluate_records
              [Samples.reading "a" 0 "Workroom" 20 50;
               Samples.reading "b" (24 * Samples.hour) "Workroom" 25 50])
  = Returned [[]; ["Temp drift 5.0 C/24h|warn"]].
Proof. reflexivity. Qed.

Example drift_just_over_24_hours_apart :
  flags_of (evaluate_records
              [Samples.reading "a" 0 "Workroom" 20 50;
               Samples.reading "b" (24 * Samples.hour + 1) "Workroom" 25 50])
  = Returned [[]; []].
Proof. reflexivity. Qed.

(** Two readings of one location whose timestamps lie [2^63] nanoseconds
    and an hour apart: the subtraction overflows and no frame is
    returned. *)
Example drift_overflow :
  evaluate_records
    [Samples.reading "a" (- 2 ^ 62) "Workroom" 20 50;
     Samples.reading "b" (2 ^ 62 + Samples.hour) "Workroom" 25 50]
  = Raised (Exception "OverflowError").
Proof. reflexivity. Qed.

(** C2 as worded fails.  The first row's temperature is missing; an hour
    later the same location reads 20 C.  Reading the missing prior value as
    zero gives a drift of 20 above the limit 4, yet the row is not flagged:
    the program takes the drift itself as zero. *)
Lemma drift_missing_prior_counterexample :
  exists (rows : list Evaluated) (e : Evaluated),
    evaluate_records
      [Samples.reading "a" 0 "Workroom" nan 50;
       Samples.reading "b" Samples.hour "Workroom" 20 50]
    = Returned rows
    /\ In e rows
    /\ measurement_of e = Samples.reading "b" Samples.hour "Workroom" 20 50
    /\ notna (delta_hours (row e)) = true
    /\ (delta_hours (row e) <=? 24) = true
    /\ isna (prev_temp (row e)) = true
    /\ (4 <? worded_temp_drift (row e)) = true
    /\ ~ In (temp_drift_flag (worded_temp_drift (row e))) (flags e)
    /\ flags e = [].
Proof.
  eexists.
  exists (apply_classify
            (shifted_row [Samples.reading "a" 0 "Workroom" nan 50]
               (Samples.reading "b" Samples.hour "Workroom" 20 50))).
  split; [ reflexivity | ].
  split; [ right; left; reflexivity | ].
  repeat split. intros H. exact H.
Qed.

End EvaluatedFrame.

(* ================================================================= *)
(** * Outside conditions provider *)
(* ================================================================= *)

Module OutsideFacts.

Import Outside.
Local Open Scope string_scope.

(** The failures the [try] block and the emptiness test cover: [urlopen]
    raising, a status other than 200, a payload that is not JSON, and an
    object without a usable "current" member. *)
Lemma guarded_failures_return_none (net : Network) :
  (exists what, net = UrlopenRaises what)
  \/ (exists status payload,
        net = Response status payload /\ status <> 200%Z)
  \/ (exists status, net = Response status NotJson)
  \/ (exists members,
        net = Response 200 (JsonText (JObject members))
        /\ truthy (dict_get members "current") = false) ->
  fetch_outside_conditions net = Returned None.
Proof.
  intros [[what ->] | [(status & payload & -> & Hs) | [[status ->] |
          (members & -> & Hc)]]].
  - reflexivity.
  - unfold fetch_outside_conditions, guarded_request. cbn.
    apply Z.eqb_neq in Hs. rewrite Hs. reflexivity.
  - unfold fetch_outside_conditions, guarded_request. cbn.
    destruct (status =? 200)%Z; reflexivity.
  - unfold fetch_outside_conditions, guarded_request. cbn.
    rewrite Hc. reflexivity.
Qed.

(** A well-formed answer gives the snapshot. *)
Example fetch_current_conditions :
  fetch_outside_conditions
    (Response 200
       (JsonText
          (JObject
             [("current",
               JObject [("time", JString "2024-05-01T10:00");
                        ("temperature_2m", JFloat 18.5);
                        ("relative_humidity_2m", JInt 60);
                        ("dew_point_2m", JFloat 10.5)])])))
  = Returned (Some {| time := JString "2024-05-01T10:00";
                      temp_c := JFloat 18.5;
                      rh := JInt 60;
                      dew_point_c := JFloat 10.5 |}).
Proof. reflexivity. Qed.

(** C5 fails on the program.  A response with status 200 whose payload is
    valid JSON but not an object, here the array [[]], gets past the [try]
    block; [data.get("current")] then raises [AttributeError] to the caller
    instead of the function returning [None]. *)
Theorem fetch_outside_conditions_raises_on_array :
  fetch_outside_conditions (Response 200 (JsonText (JArray [])))
  = Raised AttributeError.
Proof. reflexivity. Qed.

(** The same happens one level down, with a "current" member that is
    truthy and not an object. *)
Example fetch_outside_conditions_raises_on_scalar_current :
  fetch_outside_conditions
    (Response 200 (JsonText (JObject [("current", JInt 1)])))
  = Raised AttributeError.
Proof. reflexivity. Qed.

End OutsideFacts.

(* ================================================================= *)
(** * Persistence reconciler *)
(* ================================================================= *)

Module ReconcilerFacts.

Import Reconciler ReconcilerObs.
Local Open Scope string_scope.
Local Open Scope list_scope.

Lemma add_events_nil w : add_events w [] = w.
Proof. unfold add_events. rewrite app_nil_r. destruct w; reflexivity. Qed.

(** A client is there only with sync enabled. *)
Lemma spaces_client_enabled env :
  spaces_client env = Returned true -> spaces_enabled (config env) = true.
Proof.
  unfold spaces_client.
  destruct (boto3_installed env), (spaces_enabled (config env)); cbn;
    try discriminate; reflexivity.
Qed.

Lemma spaces_client_built env :
  boto3_installed env = true ->
  spaces_enabled (config env) = true ->
  boto3_client env = Returned tt ->
  spaces_client env = Returned true.
Proof. unfold spaces_client. now intros -> -> ->. Qed.

(** [save_data_to_spaces] never touches the local file.  An exception of
    the construction of the client escapes it; an exception of the upload
    does not. *)
Lemma save_data_to_spaces_raises df env w e :
  spaces_client env = Raised e ->
  save_data_to_spaces df env w = (Raised e, w).
Proof.
  intros H. unfold save_data_to_spaces, bind, lift. now rewrite H.
Qed.

Lemma save_data_to_spaces_returns df env w b :
  spaces_client env = Returned b ->
  exists ok : bool,
    save_data_to_spaces df env w =
    (Returned ok,
     {| local_csv := local_csv w;
        events := events w ++ push_events env df |}).
Proof.
  intros H. unfold save_data_to_spaces, push_events, bind at 1, lift at 1.
  rewrite H. destruct b; cbn.
  - unfold try_except, bind, lift, emit, warning, ret. cbn.
    destruct (put_object env (to_csv df)) as [[]|e]; cbn; eauto.
  - exists false. unfold ret. rewrite app_nil_r. destruct w; reflexivity.
Qed.

(** [save_data]: the local write comes first and stays, whatever follows. *)
Lemma save_data_local_write df env w :
  local_csv (snd (save_data df env w)) = Some (to_csv df)
  /\ exists rest,
       events (snd (save_data df env w))
       = events w ++ LocalWrite (to_csv df) :: rest
       /\ forall a, ~ In (LocalWrite a) rest.
Proof.
  unfold save_data, bind, write_local_csv.
  set (w1 := {| local_csv := Some (to_csv df);
                events := events w ++ [LocalWrite (to_csv df)] |}).
  destruct (spaces_client env) as [b|e] eqn:Hc.
  - destruct (@save_data_to_spaces_returns df env w1 b Hc) as [ok ->]. cbn.
    split; [ reflexivity | ].
    exists (push_events env df). rewrite <- app_assoc. split; [ reflexivity | ].
    intros a. unfold push_events. rewrite Hc.
    destruct b; [ | intros [] ].
    destruct (put_object env (to_csv df)); intros [H | []]; discriminate H.
  - rewrite (@save_data_to_spaces_raises df env w1 e Hc). cbn.
    split; [ reflexivity | ].
    exists []. split; [ reflexivity | intros a [] ].
Qed.

(** With the client built, or not wanted, [save_data] returns: what follows
    the local write is nothing (sync off), the record of a successful
    upload, or, when the upload raises, one warning. *)
Lemma save_data_returns df env w b :
  spaces_client env = Returned b ->
  save_data df env w =
  (Returned tt,
   {| local_csv := Some (to_csv df);
      events := events w ++ LocalWrite (to_csv df) :: push_events env df |}).
Proof.
  intros Hc. unfold save_data, bind at 1. unfold write_local_csv at 1.
  unfold bind.
  destruct (@save_data_to_spaces_returns df env
              {| local_csv := Some (to_csv df);
                 events := events w ++ [LocalWrite (to_csv df)] |} b Hc)
    as [ok ->].
  cbn. rewrite <- app_assoc. reflexivity.
Qed.

(** C4.  The local write of [save_data] comes first and is kept, and an
    exception of the upload is turned into a warning; but the client is
    built before the [try] block, so an exception of [boto3.client] leaves
    [save_data] as it is, after the local write and without any warning. *)
Theorem save_data_client_failure_escapes
    (df : list Measurement) (env : Env) (w : World) (e : Exn) :
  spaces_client env = Raised e ->
  save_data df env w =
  (Raised e,
   {| local_csv := Some (to_csv df);
      events := events w ++ [LocalWrite (to_csv df)] |}).
Proof.
  intros Hc. unfold save_data, bind at 1. unfold write_local_csv at 1.
  unfold bind.
  now rewrite (@save_data_to_spaces_raises df env _ e Hc).
Qed.

(** Sync configured with the endpoint "bad endpoint": saving three rows
    raises [ValueError]; the rows are in the local cache and no warning has
    been surfaced. *)
Lemma save_data_client_failure_escapes_witness :
  save_data Samples.local_rows Samples.store_bad_endpoint
    (Samples.world_with (Table []))
  = (Raised (Exception "ValueError"),
     {| local_csv := Some (Table Samples.local_rows);
        events := [LocalWrite (Table Samples.local_rows)] |}).
Proof.
  exact (@save_data_client_failure_escapes Samples.local_rows
           Samples.store_bad_endpoint (Samples.world_with (Table []))
           (Exception "ValueError") eq_refl).
Defined.

(** [load_data_from_spaces] never touches the local file. *)
Lemma load_data_from_spaces_eq env w :
  load_data_from_spaces env w =
  (fetched env, add_events w (fetch_events env)).
Proof.
  unfold load_data_from_spaces, fetched, fetch_events.
  unfold bind at 1, lift at 1.
  destruct (spaces_client env) as [[|]|e]; cbn.
  - unfold try_except, bind, lift, warning, emit, ret, add_events, read. cbn.
    destruct (get_object env)
      as [[[[ | raw | rows]|e]|]|[code| | |what]]; cbn;
      rewrite ?app_nil_r; try (destruct w; reflexivity);
      try reflexivity.
    destruct (not_found_code code); cbn; rewrite ?app_nil_r;
      try (destruct w; reflexivity); reflexivity.
  - unfold ret. now rewrite add_events_nil.
  - now rewrite add_events_nil.
Qed.

Lemma fetched_returned env x :
  fetched env = Returned x -> exists b, spaces_client env = Returned b.
Proof.
  unfold fetched. destruct (spaces_client env) as [b|e]; [ eauto | discriminate ].
Qed.

Lemma fetched_raised env e :
  fetched env = Raised e <->
  spaces_client env = Raised e
  \/ (spaces_client env = Returned true
      /\ get_object env = Returned (Some (ReadRaises e))).
Proof.
  unfold fetched.
  destruct (spaces_client env) as [[|]|e0].
  - destruct (get_object env) as [[[[ | raw | rows]|e1]|]|e1]; split;
      try discriminate;
      try (intros [H | [_ H]]; discriminate H).
    + intros H. injection H as ->. auto.
    + intros [H | [_ H]]; [ discriminate H | ]. now injection H as ->.
  - split; [ discriminate | intros [H | [H _]]; discriminate H ].
  - split.
    + intros H. injection H as ->. auto.
    + intros [H | [H _]]; [ now injection H as -> | discriminate H ].
Qed.

Lemma fetch_events_raised env e :
  fetched env = Raised e -> fetch_events env = [].
Proof.
  unfold fetched, fetch_events.
  destruct (spaces_client env) as [[|]|e0]; try reflexivity.
  destruct (get_object env) as [[[[ | raw | rows]|e1]|]|e1];
    try discriminate; reflexivity.
Qed.

(** The first step of [load_data]: reading the local cache. *)
Lemma local_read_returns w :
  (if local_exists w then
     try_except read_local_csv
       (fun e =>
          match e with
          | EmptyDataError => Some (bind (write_local_csv []) (fun _ => ret []))
          | _ => Some (bind (warning local_unreadable) (fun _ => ret []))
          end)
   else ret []) w
  = (Returned (local_frame w), after_local_read w).
Proof.
  unfold local_exists, local_frame, after_local_read, try_except,
    read_local_csv, bind, write_local_csv, warning, emit, ret, to_csv.
  destruct w as [[[ | raw | rows]|] evs]; reflexivity.
Qed.

(** [load_data], step by step. *)
Lemma load_data_eq env w :
  load_data env w =
  let w1 := add_events (after_local_read w) (fetch_events env) in
  match fetched env with
  | Raised e => (Raised e, after_local_read w)
  | Returned None =>
      (Returned (local_frame w),
       if local_exists w && spaces_enabled (config env)
       then add_events w1 (push_events env (local_frame w))
       else w1)
  | Returned (Some remote_df) =>
      if negb (empty remote_df) then
        (Returned remote_df,
         {| local_csv := Some (to_csv remote_df);
            events := events w1 ++ [LocalWrite (to_csv remote_df)] |})
      else if negb (empty (local_frame w)) then
        (Returned (local_frame w),
         add_events w1 (push_events env (local_frame w)))
      else (Returned remote_df, w1)
  end.
Proof.
  unfold load_data. unfold bind at 1. unfold path_exists at 1.
  change (match local_csv w with Some _ => true | None => false end)
    with (local_exists w).
  unfold bind at 1. fold local_unreadable.
  rewrite local_read_returns.
  unfold bind at 1. rewrite load_data_from_spaces_eq.
  cbn zeta.
  set (w1 := add_events (after_local_read w) (fetch_events env)).
  destruct (fetched env) as [[remote_df|]|e] eqn:Ef.
  - destruct (@fetched_returned env _ Ef) as [b Hc].
    destruct remote_df as [|x remote_df]; cbn [empty negb andb].
    + destruct (local_frame w) as [|y l] eqn:El; cbn [empty negb].
      * reflexivity.
      * unfold bind.
        destruct (@save_data_to_spaces_returns (y :: l) env w1 b Hc) as [ok ->].
        reflexivity.
    + reflexivity.
  - destruct (@fetched_returned env _ Ef) as [b Hc].
    unfold bind.
    destruct (local_exists w && spaces_enabled (config env)).
    + destruct (@save_data_to_spaces_returns (local_frame w) env w1 b Hc) as [ok ->].
      reflexivity.
    + reflexivity.
  - unfold w1. now rewrite (@fetch_events_raised env e Ef), add_events_nil.
Qed.

(** C3. With sync enabled, the client built and the store answering with a
    non-empty log, [load_data] returns that log and leaves the local cache
    holding it, whatever the local cache held before. *)
Theorem load_data_remote_wins
    (env : Env) (w : World) (rows : list Measurement) :
  spaces_enabled (config env) = true ->
  boto3_installed env = true ->
  boto3_client env = Returned tt ->
  get_object env = Returned (Some (Reads (Table rows))) ->
  rows <> [] ->
  fst (load_data env w) = Returned rows
  /\ local_csv (snd (load_data env w)) = Some (to_csv rows)
  /\ exists earlier,
       events (snd (load_data env w))
       = events w ++ earlier ++ [LocalWrite (to_csv rows)]
       /\ forall a, ~ In (RemotePut a) earlier.
Proof.
  intros He Hb Hk Hg Hr. rewrite load_data_eq. cbn zeta.
  assert (Hc : spaces_client env = Returned true)
    by now apply spaces_client_built.
  assert (Hf : fetched env = Returned (Some rows)).
  { unfold fetched. now rewrite Hc, Hg. }
  assert (Hv : fetch_events env = []).
  { unfold fetch_events. now rewrite Hc, Hg. }
  rewrite Hf, Hv, add_events_nil.
  destruct rows as [|x rows]; [ contradiction | ]. cbn [empty negb fst snd].
  repeat split.
  unfold after_local_read.
  destruct (local_csv w) as [[ | raw | l]|]; cbn [events].
  - exists [LocalWrite (Table [])]. rewrite <- app_assoc. split; [ reflexivity | ].
    intros a [H | []]. discriminate H.
  - exists [Warning local_unreadable]. rewrite <- app_assoc.
    split; [ reflexivity | ]. intros a [H | []]. discriminate H.
  - exists []. split; [ reflexivity | ]. intros a [].
  - exists []. split; [ reflexivity | ]. intros a [].
Qed.

(** Three local rows, five other rows in the store: the five are returned
    and the cache holds them. *)
Lemma load_data_remote_wins_witness :
  fst (load_data Samples.store_with_rows
         (Samples.world_with (Table Samples.local_rows)))
  = Returned Samples.remote_rows
  /\ local_csv (snd (load_data Samples.store_with_rows
                       (Samples.world_with (Table Samples.local_rows))))
     = Some (Table Samples.remote_rows).
Proof.
  destruct (load_data_remote_wins Samples.store_with_rows
              (Samples.world_with (Table Samples.local_rows))
              (rows := Samples.remote_rows) eq_refl eq_refl eq_refl eq_refl)
    as (Hr & Hl & _).
  - discriminate.
  - split; [ exact Hr | exact Hl ].
Defined.




(** The exceptions that escape [load_data] leave the cache as the first
    step left it: a blank cache has been rewritten by then. *)
Lemma load_data_raises env w e :
  fetched env = Raised e ->
  load_data env w = (Raised e, after_local_read w).
Proof. intros H. rewrite load_data_eq. cbn zeta. now rewrite H. Qed.

(** A blank cache and the endpoint "bad endpoint": the cache is rewritten,
    then [load_data] raises [ValueError]. *)
Example unreadable_cache_and_bad_endpoint :
  load_data Samples.store_bad_endpoint (Samples.world_with Blank)
  = (Raised (Exception "ValueError"),
     {| local_csv := Some (Table []);
        events := [LocalWrite (Table [])] |}).
Proof. reflexivity. Qed.

End ReconcilerFacts.

(* ================================================================= *)
(** * Further properties of the classification *)
(* ================================================================= *)

Section ClassificationMore.

Local Open Scope string_scope.
Local Open Scope float_scope.
Local Open Scope list_scope.

Import F64 F64Facts.

Ltac bool_cases :=
  repeat match goal with
  | |- context [if ?b then _ else _] => destruct b eqn:?
  end; cbn; intuition congruence.

(** When each fixed label is raised, in terms of the tests of the source. *)
Lemma in_temp_out r :
  In "Temp out of range|danger" (flags (apply_classify r)) <->
  temp_out (base r) = true.
Proof.
  rewrite fixed_flag_in by (cbn; tauto).
  unfold temp_flags, rh_flags, mould_flags. bool_cases.
Qed.

Lemma in_rh_outer r :
  In "RH in outer band|warn" (flags (apply_classify r)) <->
  rh_outside_core (base r) = true /\ between 40 (rh (base r)) 60 = true.
Proof.
  rewrite fixed_flag_in by (cbn; tauto).
  unfold temp_flags, rh_flags, mould_flags. bool_cases.
Qed.

Lemma in_rh_out r :
  In "RH out of range|danger" (flags (apply_classify r)) <->
  rh_outside_core (base r) = true /\ between 40 (rh (base r)) 60 = false.
Proof.
  rewrite fixed_flag_in by (cbn; tauto).
  unfold temp_flags, rh_flags, mould_flags. bool_cases.
Qed.

Lemma in_mould r :
  In "Mould risk|danger" (flags (apply_classify r)) <->
  (70 <=? rh (base r)) = true.
Proof.
  rewrite fixed_flag_in by (cbn; tauto).
  unfold temp_flags, rh_flags, mould_flags. bool_cases.
Qed.

Lemma status_of_row r :
  range_status (apply_classify r) = status_after_rh r.
Proof. now destruct (apply_classify_fields r). Qed.

(** X1. The temperature step.  A numeric temperature outside [15, 25] puts
    the row [out] and raises "Temp out of range" (danger) as the first flag
    of the row; a temperature inside the closed band never raises it. *)
Theorem temperature_classification_step
    (df : list Measurement) (rows : list Evaluated) (e : Evaluated) :
  evaluate_records df = Returned rows ->
  In e rows ->
  let m := measurement_of e in
  (notna (temp_c m) = true -> between 15 (temp_c m) 25 = false ->
     range_status e = out
     /\ exists rest, flags e = "Temp out of range|danger" :: rest)
  /\ (between 15 (temp_c m) 25 = true ->
      ~ In "Temp out of range|danger" (flags e)).
Proof.
  intros Hret Hin m. subst m. rewrite (@evaluated_row df rows e Hret Hin).
  generalize (row e) as r. intros r.
  change (measurement_of (apply_classify r)) with (base r). split.
  - intros Hn Hb.
    assert (Ht : temp_out (base r) = true)
      by (rewrite (temp_out_band _ Hn), Hb; reflexivity).
    split.
    + rewrite status_of_row. unfold status_after_rh, status_after_temp.
      rewrite Ht. bool_cases.
    + destruct (apply_classify_fields r) as [_ ->].
      unfold temp_flags. rewrite Ht. cbn. eauto.
  - intros Hb. rewrite in_temp_out.
    rewrite (temp_out_band _ (between_notna _ _ _ Hb)), Hb. discriminate.
Qed.

(** A reading of 26 C is out of range. *)
Lemma temperature_classification_step_witness :
  range_status (Samples.alone (Samples.reading "a" 0 "Workroom" 26 50)) = out
  /\ exists rest,
       flags (Samples.alone (Samples.reading "a" 0 "Workroom" 26 50))
       = "Temp out of range|danger" :: rest.
Proof.
  destruct (@temperature_classification_step
              [Samples.reading "a" 0 "Workroom" 26 50]
              [Samples.alone (Samples.reading "a" 0 "Workroom" 26 50)]
              (Samples.alone (Samples.reading "a" 0 "Workroom" 26 50))
              eq_refl (or_introl eq_refl)) as [H _].
  exact (H eq_refl eq_refl).
Defined.

(** X2. The status of a row can be read off its flags: [out] exactly when
    "Temp out of range" or "RH out of range" is raised, [outer] exactly
    when "RH in outer band" is raised without "Temp out of range", and
    [core] exactly when none of the three is raised; no other flag bears on
    the status. *)
Theorem status_matches_flags
    (df : list Measurement) (rows : list Evaluated) (e : Evaluated) :
  evaluate_records df = Returned rows ->
  In e rows ->
  (range_status e = out <->
     In "Temp out of range|danger" (flags e)
     \/ In "RH out of range|danger" (flags e))
  /\ (range_status e = outer <->
     In "RH in outer band|warn" (flags e)
     /\ ~ In "Temp out of range|danger" (flags e))
  /\ (range_status e = core <->
     ~ In "Temp out of range|danger" (flags e)
     /\ ~ In "RH in outer band|warn" (flags e)
     /\ ~ In "RH out of range|danger" (flags e)).
Proof.
  intros Hret Hin. rewrite (@evaluated_row df rows e Hret Hin).
  rewrite in_temp_out, in_rh_outer, in_rh_out, status_of_row.
  unfold status_after_rh, status_after_temp.
  destruct (temp_out (base (row e))), (rh_outside_core (base (row e))),
    (between 40 (rh (base (row e))) 60); cbn; intuition congruence.
Qed.

Lemma status_matches_flags_witness :
  range_status (Samples.alone (Samples.reading "a" 0 "Workroom" 20 42)) = outer
  <-> In "RH in outer band|warn"
         (flags (Samples.alone (Samples.reading "a" 0 "Workroom" 20 42)))
      /\ ~ In "Temp out of range|danger"
           (flags (Samples.alone (Samples.reading "a" 0 "Workroom" 20 42))).
Proof.
  exact (proj1 (proj2 (@status_matches_flags
                         [Samples.reading "a" 0 "Workroom" 20 42]
                         [Samples.alone (Samples.reading "a" 0 "Workroom" 20 42)]
                         (Samples.alone (Samples.reading "a" 0 "Workroom" 20 42))
                         eq_refl (or_introl eq_refl)))).
Defined.

(** X3. The humidity flags exclude each other, and "Mould risk" never comes
    alone: a row flagged "Mould risk" is also flagged "RH out of range" and
    is [out], since the threshold 70 lies above the outer band. *)
Theorem humidity_flags_consistent
    (df : list Measurement) (rows : list Evaluated) (e : Evaluated) :
  evaluate_records df = Returned rows ->
  In e rows ->
  ~ (In "RH in outer band|warn" (flags e)
     /\ In "RH out of range|danger" (flags e))
  /\ (In "Mould risk|danger" (flags e) ->
      In "RH out of range|danger" (flags e) /\ range_status e = out).
Proof.
  intros Hret Hin. rewrite (@evaluated_row df rows e Hret Hin).
  rewrite in_rh_outer, in_rh_out, in_mould, status_of_row. split.
  - intros [[_ H1] [_ H2]]. congruence.
  - intros Hm.
    assert (Hb : between 40 (rh (base (row e))) 60 = false).
    { unfold between. apply andb_false_iff. right.
      apply ltb_not_leb. eapply ltb_leb_trans; [ | exact Hm ]. reflexivity. }
    assert (Hn : notna (rh (base (row e))) = true)
      by (eapply leb_notna_r; eassumption).
    assert (Ho : rh_outside_core (base (row e)) = true).
    { rewrite (rh_outside_core_band _ Hn).
      destruct (between 45 (rh (base (row e))) 55) eqn:E; [ | reflexivity ].
      apply core_inside_outer in E. congruence. }
    split; [ now split | ].
    unfold status_after_rh. now rewrite Ho, Hb.
Qed.

Lemma humidity_flags_consistent_witness :
  In "RH out of range|danger"
     (flags (Samples.alone (Samples.reading "a" 0 "Workroom" 20 75)))
  /\ range_status (Samples.alone (Samples.reading "a" 0 "Workroom" 20 75))
     = out.
Proof.
  destruct (@humidity_flags_consistent
              [Samples.reading "a" 0 "Workroom" 20 75]
              [Samples.alone (Samples.reading "a" 0 "Workroom" 20 75)]
              (Samples.alone (Samples.reading "a" 0 "Workroom" 20 75))
              eq_refl (or_introl eq_refl)) as [_ H].
  apply H. right. left. reflexivity.
Defined.

(** X4. The status depends on the temperature and the humidity of the row
    alone: neither the outside snapshot, nor the prior row, nor the frame
    the row sits in changes it. *)
Theorem status_depends_on_readings_only
    (df1 df2 : list Measurement) (rows1 rows2 : list Evaluated)
    (e1 e2 : Evaluated) :
  evaluate_records df1 = Returned rows1 ->
  evaluate_records df2 = Returned rows2 ->
  In e1 rows1 ->
  In e2 rows2 ->
  temp_c (measurement_of e1) = temp_c (measurement_of e2) ->
  rh (measurement_of e1) = rh (measurement_of e2) ->
  range_status e1 = range_status e2.
Proof.
  intros R1 R2 H1 H2 Ht Hr.
  rewrite (@evaluated_row df1 rows1 e1 R1 H1),
    (@evaluated_row df2 rows2 e2 R2 H2), !status_of_row.
  unfold measurement_of in Ht, Hr.
  unfold status_after_rh, status_after_temp, rh_outside_core, temp_out.
  now rewrite Ht, Hr.
Qed.

Lemma status_depends_on_readings_only_witness :
  range_status (Samples.alone (Samples.reading "a" 0 "Workroom" 20 42))
  = range_status
      (Samples.alone
         (Samples.reading_with_outside "b" 5 "Compactus" 20 42 5 90)).
Proof.
  apply (@status_depends_on_readings_only
           [Samples.reading "a" 0 "Workroom" 20 42]
           [Samples.reading_with_outside "b" 5 "Compactus" 20 42 5 90]
           [Samples.alone (Samples.reading "a" 0 "Workroom" 20 42)]
           [Samples.alone
              (Samples.reading_with_outside "b" 5 "Compactus" 20 42 5 90)]);
    solve [ left; reflexivity | reflexivity ].
Defined.

(** ** The shape of every flag *)

Lemma outside_temp_flags_eq r :
  outside_temp_flags r =
  if outside_temp_warn (base r)
  then [temp_delta_flag (outside_temp_delta (base r))] else [].
Proof.
  unfold outside_temp_flags, outside_temp_block, outside_temp_warn,
    outside_temp_delta, temp_delta_flag, OUTSIDE_TEMP_DELTA_WARN.
  destruct (notna (outside_temp_c (base r))); cbn [andb]; [ | reflexivity ].
  destruct (6 <? abs (temp_c (base r) - outside_temp_c (base r)));
    reflexivity.
Qed.

Lemma outside_rh_flags_eq r :
  outside_rh_flags r =
  if outside_rh_warn (base r)
  then [rh_delta_flag (outside_rh_delta (base r))] else [].
Proof.
  unfold outside_rh_flags, outside_rh_block, outside_rh_warn,
    outside_rh_delta, rh_delta_flag, OUTSIDE_RH_DELTA_WARN.
  destruct (notna (outside_rh (base r))); cbn [andb]; [ | reflexivity ].
  destruct (15 <? abs (rh (base r) - outside_rh (base r))); reflexivity.
Qed.

Lemma flags_are_slots r : flags (apply_classify r) = present (flag_slots r).
Proof.
  destruct (apply_classify_fields r) as [_ ->].
  rewrite outside_temp_flags_eq, outside_rh_flags_eq.
  unfold temp_flags, rh_flags, mould_flags, drift_flags, flag_slots.
  destruct (temp_out (base r)), (rh_outside_core (base r)),
    (between 40 (rh (base r)) 60), (70 <=? rh (base r)),
    (outside_temp_warn (base r)), (outside_rh_warn (base r)),
    (drift_window r), (4 <? temp_drift r), (5 <? rh_drift r); reflexivity.
Qed.

End ClassificationMore.

(* ================================================================= *)
(** * The flags of a row, one by one *)
(* ================================================================= *)

Section FlagShape.

Local Open Scope string_scope.
Local Open Scope float_scope.
Local Open Scope list_scope.

Import F64 F64Facts.

Lemma in_present {A : Type} (a : A) (l : list (option A)) :
  In a (present l) <-> In (Some a) l.
Proof.
  induction l as [|[x|] l IH]; cbn.
  - tauto.
  - rewrite IH. split; intros [H | H]; auto; left; congruence.
  - rewrite IH. split; [ auto | intros [H | H]; [ discriminate | auto ] ].
Qed.

Lemma in_flags r f :
  In f (flags (apply_classify r)) <-> In (Some f) (flag_slots r).
Proof. rewrite flags_are_slots. apply in_present. Qed.

(** Splits a hypothesis [In (Some f) (flag_slots r)] into its seven slots
    and identifies [f] in each. *)
Ltac slot_cases H :=
  unfold flag_slots in H; cbn [In] in H;
  repeat (destruct H as [H | H]);
  try contradiction;
  repeat match type of H with
  | (if ?b then _ else _) = Some _ =>
      let E := fresh "E" in destruct b eqn:E; try discriminate H
  end;
  try (injection H as <-);
  try match goal with
  | |- context [between 40 ?x 60] => destruct (between 40 x 60)
  end.

(** X5. The outside comparison.  When the outside temperature is present
    and differs from the reading by more than 6 (in either direction), the
    row carries "Temp delta vs outside {signed difference, one decimal}
    C" (warn); otherwise no flag of the row is of that kind.  The same
    holds for the humidity, with the threshold 15. *)
Theorem outside_delta_flags
    (df : list Measurement) (rows : list Evaluated) (e : Evaluated) :
  evaluate_records df = Returned rows ->
  In e rows ->
  let m := measurement_of e in
  (if notna (outside_temp_c m) && (6 <? abs (temp_c m - outside_temp_c m))
   then In (temp_delta_flag (temp_c m - outside_temp_c m)) (flags e)
   else forall f, In f (flags e) ->
                  starts_with "Temp delta vs outside " f = false)
  /\ (if notna (outside_rh m) && (15 <? abs (rh m - outside_rh m))
      then In (rh_delta_flag (rh m - outside_rh m)) (flags e)
      else forall f, In f (flags e) ->
                     starts_with "RH delta vs outside " f = false).
Proof.
  intros Hret Hin m. subst m. rewrite (@evaluated_row df rows e Hret Hin).
  generalize (row e) as r. intros r.
  change (measurement_of (apply_classify r)) with (base r).
  change (notna (outside_temp_c (base r))
          && (6 <? abs (temp_c (base r) - outside_temp_c (base r))))
    with (outside_temp_warn (base r)).
  change (notna (outside_rh (base r))
          && (15 <? abs (rh (base r) - outside_rh (base r))))
    with (outside_rh_warn (base r)).
  change (temp_c (base r) - outside_temp_c (base r))
    with (outside_temp_delta (base r)).
  change (rh (base r) - outside_rh (base r))
    with (outside_rh_delta (base r)).
  split.
  - destruct (outside_temp_warn (base r)) eqn:W.
    + apply in_flags. unfold flag_slots. rewrite W. cbn. tauto.
    + intros f Hf. apply in_flags in Hf.
      slot_cases Hf; solve [ reflexivity | congruence ].
  - destruct (outside_rh_warn (base r)) eqn:W.
    + apply in_flags. unfold flag_slots. rewrite W. cbn. tauto.
    + intros f Hf. apply in_flags in Hf.
      slot_cases Hf; solve [ reflexivity | congruence ].
Qed.

(** Indoors 27 C and 50 %, outside 20 C and 80 %: both deltas are
    flagged, with their signs. *)
Lemma outside_delta_flags_witness :
  In "Temp delta vs outside +7.0 C|warn"
     (flags (Samples.alone
               (Samples.reading_with_outside "a" 0 "Workroom" 23 50 16 80)))
  /\ In "RH delta vs outside -30.0%|warn"
        (flags (Samples.alone
                  (Samples.reading_with_outside "a" 0 "Workroom" 23 50 16 80))).
Proof.
  exact (@outside_delta_flags
           [Samples.reading_with_outside "a" 0 "Workroom" 23 50 16 80]
           [Samples.alone
              (Samples.reading_with_outside "a" 0 "Workroom" 23 50 16 80)]
           (Samples.alone
              (Samples.reading_with_outside "a" 0 "Workroom" 23 50 16 80))
           eq_refl (or_introl eq_refl)).
Defined.

(** A difference of exactly 6 C is not flagged. *)
Example outside_delta_at_threshold :
  flags (Samples.alone
           (Samples.reading_with_outside "a" 0 "Workroom" 22 50 16 50))
  = [].
Proof. reflexivity. Qed.

(** ** Rendering *)

Lemma has_bar_app a b : has_bar (a ++ b)%string = has_bar a || has_bar b.
Proof.
  induction a as [|c a IH]; cbn; [ reflexivity | ].
  now rewrite IH, orb_assoc.
Qed.

Lemma split_bar_cons c s :
  Ascii.eqb c "|" = false ->
  split_bar (String c s) =
  match split_bar s with
  | p :: ps => String c p :: ps
  | [] => [String c EmptyString]
  end.
Proof. intros H. cbn. now rewrite H. Qed.

Lemma split_bar_nonempty s : split_bar s <> [].
Proof.
  induction s as [|c s IH]; cbn; [ discriminate | ].
  destruct (Ascii.eqb c "|"); [ discriminate | ].
  destruct (split_bar s); discriminate.
Qed.

(** A text without a bar stays glued to the first part of what follows. *)
Lemma split_bar_app a b :
  has_bar a = false ->
  split_bar (a ++ b)%string =
  match split_bar b with
  | p :: ps => (a ++ p)%string :: ps
  | [] => [a]
  end.
Proof.
  induction a as [|c a IH]; cbn; intros H.
  - destruct (split_bar b) eqn:E; [ | reflexivity ].
    now apply split_bar_nonempty in E.
  - apply orb_false_iff in H as [Hc Ha]. rewrite Hc, (IH Ha).
    destruct (split_bar b); reflexivity.
Qed.

Lemma has_bar_uint u :
  has_bar (DecimalString.NilEmpty.string_of_uint u) = false.
Proof. induction u; cbn; auto. Qed.

Lemma has_bar_digits n : has_bar (Fmt.digits n) = false.
Proof.
  unfold Fmt.digits, DecimalString.NilZero.string_of_uint.
  destruct (N.to_uint (Z.to_N n)); try reflexivity; apply has_bar_uint.
Qed.

Lemma has_bar_unsigned s : has_bar (Fmt.unsigned_1f s) = false.
Proof.
  destruct s as [b|b| |b m e]; try reflexivity.
  unfold Fmt.unsigned_1f, Fmt.tenths_text.
  rewrite !has_bar_app, !has_bar_digits. reflexivity.
Qed.

Lemma has_bar_format_1f x : has_bar (Fmt.format_1f x) = false.
Proof.
  unfold Fmt.format_1f. cbn zeta. rewrite has_bar_app, has_bar_unsigned.
  destruct (Fmt.sign_bit (Prim2SF x)); reflexivity.
Qed.

Lemma has_bar_format_signed_1f x : has_bar (Fmt.format_signed_1f x) = false.
Proof.
  unfold Fmt.format_signed_1f. cbn zeta.
  rewrite has_bar_app, has_bar_unsigned.
  destruct (Fmt.sign_bit (Prim2SF x)); reflexivity.
Qed.

Lemma formatted_flag_split (a t b label : string) :
  has_bar a = false -> has_bar t = false ->
  split_bar b = [label; "warn"] ->
  well_formed_flag (a ++ t ++ b)%string.
Proof.
  intros Ha Ht Hb. exists (a ++ t ++ label)%string, "warn".
  rewrite (@split_bar_app a _ Ha), (@split_bar_app t _ Ht), Hb. auto.
Qed.

Lemma flags_well_formed r f :
  In f (flags (apply_classify r)) -> well_formed_flag f.
Proof.
  intros Hf. apply in_flags in Hf. slot_cases Hf.
  - exists "Temp out of range", "danger". auto.
  - exists "RH in outer band", "warn". auto.
  - exists "RH out of range", "danger". auto.
  - exists "Mould risk", "danger". auto.
  - apply formatted_flag_split with (label := " C");
      [ reflexivity | apply has_bar_format_signed_1f | reflexivity ].
  - apply formatted_flag_split with (label := "%");
      [ reflexivity | apply has_bar_format_signed_1f | reflexivity ].
  - apply formatted_flag_split with (label := " C/24h");
      [ reflexivity | apply has_bar_format_1f | reflexivity ].
  - apply formatted_flag_split with (label := "%/24h");
      [ reflexivity | apply has_bar_format_1f | reflexivity ].
Qed.

Lemma flag_parts_well_formed fl parts :
  (forall f, In f fl -> well_formed_flag f) ->
  flag_parts fl parts
  = Returned (parts ++ map (fun f => flag_span (flag_level f) (flag_label f))
                           fl).
Proof.
  revert parts. induction fl as [|f fl IH]; intros parts H; cbn [flag_parts map].
  - now rewrite app_nil_r.
  - destruct (H f (or_introl eq_refl)) as (label & level & E & _).
    unfold flag_level, flag_label. rewrite E. cbn [hd nth].
    rewrite IH by (intros g Hg; apply H; now right).
    rewrite <- app_assoc. reflexivity.
Qed.

(** A text that splits into one part has no bar; one that splits into two
    is the two parts around a bar. *)
Lemma split_bar_one s x : split_bar s = [x] -> s = x /\ has_bar s = false.
Proof.
  revert x. induction s as [|c s IH]; intros x; cbn.
  - intros H. injection H as <-. auto.
  - destruct (Ascii.eqb c "|") eqn:Ec.
    + intros H. injection H as _ H. now apply split_bar_nonempty in H.
    + destruct (split_bar s) as [|p ps] eqn:Es;
        [ now apply split_bar_nonempty in Es | ].
      intros H. injection H as <- ->.
      destruct (IH p eq_refl) as [-> Hb]. rewrite Hb. auto.
Qed.

Lemma split_bar_two s label level :
  split_bar s = [label; level] ->
  s = (label ++ "|" ++ level)%string
  /\ has_bar label = false /\ has_bar level = false.
Proof.
  revert label. induction s as [|c s IH]; intros label; cbn.
  - discriminate.
  - destruct (Ascii.eqb c "|") eqn:Ec.
    + intros H. injection H as <- H.
      apply split_bar_one in H as [-> Hb].
      apply Ascii.eqb_eq in Ec. subst c. auto.
    + destruct (split_bar s) as [|p ps] eqn:Es;
        [ now apply split_bar_nonempty in Es | ].
      intros H. injection H as <- ->.
      destruct (IH p eq_refl) as (-> & Hp & Hl).
      cbn. rewrite Ec, Hp. auto.
Qed.

(** X6. Every flag [evaluate_records] produces is a label without a bar,
    one bar, and a severity that is "warn" or "danger", whatever the
    numbers printed in it; so [flags_to_html] never fails on the flags of
    an evaluated row: it returns the "Stable" span for an empty list, and
    otherwise the concatenation, in flag order, of one span per flag, of
    class "flag" followed by the flag's severity and with the flag's label
    as its text. *)
Theorem flags_to_html_renders
    (df : list Measurement) (rows : list Evaluated) (e : Evaluated) :
  evaluate_records df = Returned rows ->
  In e rows ->
  (forall f, In f (flags e) ->
     well_formed_flag f
     /\ f = (flag_label f ++ "|" ++ flag_level f)%string
     /\ has_bar (flag_label f) = false
     /\ (flag_level f = "warn" \/ flag_level f = "danger"))
  /\ flags_to_html (flags e)
     = Returned
         (match flags e with
          | [] => "<span class=" ++ dq ++ "flag" ++ dq ++ ">Stable</span>"
          | _ =>
              String.concat ""
                (map (fun f => "<span class=" ++ dq ++ "flag " ++ flag_level f
                               ++ dq ++ ">" ++ flag_label f ++ "</span>")
                     (flags e))
          end)%string.
Proof.
  intros Hret Hin. rewrite (@evaluated_row df rows e Hret Hin).
  generalize (row e) as r. intros r.
  split.
  - intros f Hf. pose proof (flags_well_formed r f Hf) as Hw.
    split; [ exact Hw | ].
    destruct Hw as (label & level & E & Hl).
    unfold flag_label, flag_level. rewrite E. cbn [hd nth].
    destruct (split_bar_two _ E) as (Hs & Hb & _). auto.
  - unfold flags_to_html.
    rewrite (flag_parts_well_formed (flags (apply_classify r)) []
               (fun f => @flags_well_formed r f)).
    cbn [app].
    destruct (flags (apply_classify r)); reflexivity.
Qed.

(** Indoors 23 C and 50 %, outside 16 C and 80 %: two spans of class
    "flag warn". *)
Lemma flags_to_html_renders_witness :
  flags_to_html
    ["Temp delta vs outside +7.0 C|warn"; "RH delta vs outside -30.0%|warn"]
  = Returned
      ("<span class=" ++ dq ++ "flag warn" ++ dq
       ++ ">Temp delta vs outside +7.0 C</span>"
       ++ "<span class=" ++ dq ++ "flag warn" ++ dq
       ++ ">RH delta vs outside -30.0%</span>")%string.
Proof.
  exact (proj2 (@flags_to_html_renders
                  [Samples.reading_with_outside "a" 0 "Workroom" 23 50 16 80]
                  [Samples.alone
                     (Samples.reading_with_outside "a" 0 "Workroom" 23 50 16 80)]
                  (Samples.alone
                     (Samples.reading_with_outside "a" 0 "Workroom" 23 50 16 80))
                  eq_refl (or_introl eq_refl))).
Defined.

(** The reason the property is needed: a flag with a bar in its label
    would make the unpacking fail. *)
Example flags_to_html_two_bars :
  flags_to_html ["a|b|warn"] = Raised (Exception "ValueError").
Proof. reflexivity. Qed.

End FlagShape.

(* ================================================================= *)
(** * The prior row *)
(* ================================================================= *)

Section PriorRow.

Local Open Scope list_scope.

Lemma key_le_location a b :
  key_le a b ->
  na_last_compare String.compare (location a) (location b) <> Gt.
Proof.
  rewrite key_le_iff. unfold sort_compare.
  destruct (na_last_compare String.compare (location a) (location b));
    congruence.
Qed.

Lemma key_le_datetime a b :
  key_le a b -> location a = location b ->
  na_last_compare Z.compare (datetime a) (datetime b) <> Gt.
Proof.
  rewrite key_le_iff. unfold sort_compare. intros H E. rewrite E in H.
  rewrite (cmp_refl (cmp := na_last_compare String.compare)) in H.
  exact H.
Qed.

Lemma same_location_eq r x :
  same_location r x = true ->
  location r = location x /\ location r <> None.
Proof.
  unfold same_location.
  destruct (location r) as [a|], (location x) as [b|]; try discriminate.
  intros H. apply String.eqb_eq in H. subst. split; congruence.
Qed.

Lemma same_location_refl_some r x :
  location r = location x -> location r <> None ->
  same_location r x = true.
Proof.
  unfold same_location. intros <-.
  destruct (location r); [ intros _; apply String.eqb_refl | congruence ].
Qed.

(** A row whose key lies between two rows of one location has that
    location too. *)
Lemma location_squeezed p x r :
  key_le p x -> key_le x r -> location p = location r ->
  location x = location r.
Proof.
  intros H1 H2 E. apply key_le_location in H1, H2. rewrite E in H1.
  destruct (na_last_compare String.compare (location x) (location r)) eqn:C.
  - now apply (cmp_eq (cmp := na_last_compare String.compare)).
  - rewrite (cmp_antisym (cmp := na_last_compare String.compare)), C in H1.
    cbn in H1. congruence.
  - congruence.
Qed.

Lemma sorted_app_cons_le (l1 : list Measurement) x l2 y :
  StronglySorted key_le (l1 ++ x :: l2) -> In y l2 -> key_le x y.
Proof.
  induction l1 as [|a l1 IH]; cbn; intros H Hy.
  - inversion H as [|? ? _ Hall]; subst.
    rewrite Forall_forall in Hall. now apply Hall.
  - inversion H; subst. now apply IH.
Qed.

(** X7. The prior row of [groupby("location").shift(1)] is the row directly
    above in the sorted frame: it has the location of the row, which is not
    missing, and its timestamp does not come after the row's (a missing
    timestamp counting as latest), so the elapsed time is never negative. *)
Theorem prior_row_is_directly_above
    (df before : list Measurement) (r : Measurement) (after : list Measurement)
    (p : Measurement) :
  sort_values df = before ++ r :: after ->
  prior_in_group (rev before) r = Some p ->
  (exists above, before = above ++ [p])
  /\ location p = location r
  /\ location r <> None
  /\ na_last_compare Z.compare (datetime p) (datetime r) <> Gt.
Proof.
  intros Hs Hp.
  pose proof (sort_values_sorted df) as Hsorted. rewrite Hs in Hsorted.
  destruct (prior_in_group_some _ _ Hp) as [Hin Hsame].
  destruct (same_location_eq _ _ Hsame) as [Hloc Hsome].
  assert (Hpr : key_le p r).
  { apply in_rev in Hin. apply in_split in Hin as (l1 & l2 & ->).
    rewrite <- app_assoc in Hsorted. cbn in Hsorted.
    eapply sorted_app_cons_le; [ exact Hsorted | ].
    apply in_or_app. right. now left. }
  split; [ | split; [ now symmetry | split; [ exact Hsome | ] ] ].
  - destruct (rev before) as [|x rest] eqn:Er; [ discriminate Hp | ].
    assert (Hb : before = rev rest ++ [x]).
    { rewrite <- (rev_involutive before), Er. reflexivity. }
    exists (rev rest). rewrite Hb. f_equal. f_equal.
    unfold prior_in_group in Hp. cbn in Hp.
    destruct (same_location r x) eqn:Ex; [ congruence | ].
    exfalso.
    apply find_some in Hp as [Hin' _].
    apply in_rev in Hin'. apply in_split in Hin' as (l1 & l2 & E').
    rewrite Hb, E' in Hsorted. rewrite <- !app_assoc in Hsorted.
    cbn in Hsorted.
    assert (Hpx : key_le p x).
    { eapply sorted_app_cons_le; [ exact Hsorted | ].
      apply in_or_app. right. now left. }
    assert (Hxr : key_le x r).
    { rewrite app_comm_cons, app_assoc in Hsorted.
      eapply sorted_app_cons_le; [ exact Hsorted | now left ]. }
    pose proof (location_squeezed Hpx Hxr (eq_sym Hloc)) as Hx.
    rewrite (same_location_refl_some r x (eq_sym Hx) Hsome) in Ex.
    discriminate.
  - apply key_le_datetime; [ exact Hpr | now symmetry ].
Qed.

(** Three rows of two locations given out of order: the prior row of the
    later Workroom reading is the earlier one, directly above it. *)
Lemma prior_row_is_directly_above_witness :
  location (Samples.reading "a" 0 "Workroom" 20 50)
  = location (Samples.reading "b" Samples.hour "Workroom" 25 50)
  /\ na_last_compare Z.compare
       (datetime (Samples.reading "a" 0 "Workroom" 20 50))
       (datetime (Samples.reading "b" Samples.hour "Workroom" 25 50)) <> Gt.
Proof.
  destruct (prior_row_is_directly_above
              [Samples.reading "b" Samples.hour "Workroom" 25 50;
               Samples.reading "c" 0 "Compactus" 20 50;
               Samples.reading "a" 0 "Workroom" 20 50]
              [Samples.reading "c" 0 "Compactus" 20 50;
               Samples.reading "a" 0 "Workroom" 20 50]
              (Samples.reading "b" Samples.hour "Workroom" 25 50) []
              (p := Samples.reading "a" 0 "Workroom" 20 50)
              eq_refl eq_refl) as (_ & Hl & _ & Ht).
  split; [ exact Hl | exact Ht ].
Defined.

(** A frame already in order is left as it is by the sort. *)
Lemma sort_values_fixed l : StronglySorted key_le l -> sort_values l = l.
Proof.
  induction 1 as [|x l Hs IH Hx]; cbn; [ reflexivity | ].
  rewrite IH. destruct l as [|y l]; [ reflexivity | ]. cbn.
  inversion Hx as [|? ? Hxy _]; subst. unfold key_le in Hxy.
  now rewrite Hxy.
Qed.

(** X8. Evaluating again the rows that [evaluate_records] returned gives
    the same evaluated frame, row for row: the sort leaves a frame that is
    already in (location, datetime) order as it is, so the prior rows and
    with them the statuses and flags come out the same. *)
Theorem evaluate_records_again
    (df : list Measurement) (rows : list Evaluated) :
  evaluate_records df = Returned rows ->
  evaluate_records (map measurement_of rows) = Returned rows.
Proof.
  intros Hret.
  rewrite (@evaluate_records_returned df rows Hret) at 1.
  rewrite evaluated_rows_measurements.
  rewrite evaluate_records_eq in Hret.
  rewrite evaluate_records_eq.
  rewrite (sort_values_fixed (sort_values_sorted df)).
  exact Hret.
Qed.

(** Three rows of two locations given out of order. *)
Lemma evaluate_records_again_witness :
  exists rows,
    evaluate_records
      [Samples.reading "b" Samples.hour "Workroom" 25 50;
       Samples.reading "c" 0 "Compactus" 20 50;
       Samples.reading "a" 0 "Workroom" 20 50]
    = Returned rows
    /\ evaluate_records (map measurement_of rows) = Returned rows.
Proof.
  eexists. split; [ reflexivity | ].
  apply (@evaluate_records_again
           [Samples.reading "b" Samples.hour "Workroom" 25 50;
            Samples.reading "c" 0 "Compactus" 20 50;
            Samples.reading "a" 0 "Workroom" 20 50]).
  reflexivity.
Defined.

(** A frame is not returned only when one of its rows is not. *)
Lemma shift_columns_raised seen df e :
  shift_columns seen df = Raised e ->
  exists before r after,
    df = before ++ r :: after
    /\ shift_row (rev before ++ seen) r = Raised e.
Proof.
  revert seen. induction df as [|x df IH]; intros seen; cbn.
  - discriminate.
  - destruct (shift_row seen x) as [s|e0] eqn:Es.
    + destruct (shift_columns (x :: seen) df) as [rest|e1] eqn:Er;
        [ discriminate | ].
      intros H. injection H as ->.
      destruct (IH _ Er) as (before & r & after & -> & Hr).
      exists (x :: before), r, after. split; [ reflexivity | ].
      cbn. now rewrite <- app_assoc.
    + intros H. injection H as ->. exists [], x, df. auto.
Qed.

Lemma shift_row_raised seen r e :
  shift_row seen r = Raised e ->
  e = Exception "OverflowError"
  /\ exists p a b,
       prior_in_group seen r = Some p
       /\ datetime r = Some a /\ datetime p = Some b
       /\ (2 ^ 63 <= Z.abs (a - b))%Z.
Proof.
  rewrite shift_row_eq.
  destruct (timedelta_hours _ _) as [dh|e0] eqn:Et; [ discriminate | ].
  intros H. injection H as ->.
  split; [ eapply timedelta_hours_raised; eassumption | ].
  unfold timedelta_hours, timedelta in Et.
  destruct (datetime r) as [a|] eqn:Ea; [ | discriminate ].
  destruct (prior_in_group seen r) as [p|] eqn:Ep; [ | discriminate ].
  destruct (datetime p) as [b|] eqn:Eb; [ | discriminate ].
  destruct ((- 2 ^ 63 <? a - b) && (a - b <? 2 ^ 63))%Z eqn:Ef;
    [ discriminate | ].
  exists p, a, b. repeat split; try assumption.
  apply andb_false_iff in Ef as [Ef | Ef]; apply Z.ltb_ge in Ef; lia.
Qed.

(** X23. The one exception of [evaluate_records] is the [OverflowError] of
    the subtraction of timestamps, and it is raised exactly when some row
    and the row above it in its location lie [2^63] nanoseconds (some 292
    years) or more apart; no row is classified then. *)
Theorem evaluate_records_raises_on_overflow_only (df : list Measurement) :
  (forall e,
     evaluate_records df = Raised e ->
     e = Exception "OverflowError"
     /\ timestamps_fit df = false
     /\ exists before r after p a b,
          sort_values df = before ++ r :: after
          /\ prior_in_group (rev before) r = Some p
          /\ datetime r = Some a /\ datetime p = Some b
          /\ (2 ^ 63 <= Z.abs (a - b))%Z)
  /\ (forall before r after p a b,
        sort_values df = before ++ r :: after ->
        prior_in_group (rev before) r = Some p ->
        datetime r = Some a -> datetime p = Some b ->
        (2 ^ 63 <= Z.abs (a - b))%Z ->
        evaluate_records df = Raised (Exception "OverflowError")).
Proof.
  split.
  - intros e He.
    split; [ now apply evaluate_records_raised with (df := df) | ].
    split.
    + destruct (timestamps_fit df) eqn:Hf; [ | reflexivity ].
      rewrite (@evaluate_records_fit df Hf) in He. discriminate He.
    + rewrite evaluate_records_eq in He.
      destruct (shift_columns [] (sort_values df)) as [l|e0] eqn:El;
        [ discriminate | ].
      injection He as ->.
      destruct (shift_columns_raised _ _ El) as (before & r & after & E & Hr).
      rewrite app_nil_r in Hr.
      destruct (shift_row_raised _ _ Hr) as (_ & p & a & b & Hp & Ha & Hb & H).
      exists before, r, after, p, a, b. auto.
  - intros before r after p a b Hs Hp Ha Hb H.
    destruct (evaluate_records df) as [rows|e] eqn:He.
    + destruct (@evaluate_records_row df rows before r after He Hs)
        as [Hrow _].
      rewrite shift_row_eq, Hp, Ha, Hb in Hrow.
      unfold timedelta_hours, timedelta in Hrow.
      replace ((- 2 ^ 63 <? a - b) && (a - b <? 2 ^ 63))%Z with false in Hrow;
        [ discriminate Hrow | ].
      symmetry. apply andb_false_iff.
      destruct (Z.abs_spec (a - b)) as [[_ E] | [_ E]]; rewrite E in H.
      * right. apply Z.ltb_ge. lia.
      * left. apply Z.ltb_ge. lia.
    + f_equal. now apply evaluate_records_raised with (df := df).
Qed.

(** Two readings of one room, the second [2^63] nanoseconds and an hour
    after the first. *)
Lemma evaluate_records_raises_on_overflow_only_witness :
  evaluate_records
    [Samples.reading "a" (- 2 ^ 62) "Workroom" 20 50;
     Samples.reading "b" (2 ^ 62 + Samples.hour) "Workroom" 25 50]
  = Raised (Exception "OverflowError").
Proof.
  apply (proj2 (evaluate_records_raises_on_overflow_only
                  [Samples.reading "a" (- 2 ^ 62) "Workroom" 20 50;
                   Samples.reading "b" (2 ^ 62 + Samples.hour) "Workroom"
                     25 50])
           [Samples.reading "a" (- 2 ^ 62) "Workroom" 20 50]
           (Samples.reading "b" (2 ^ 62 + Samples.hour) "Workroom" 25 50)
           []
           (Samples.reading "a" (- 2 ^ 62) "Workroom" 20 50)
           (2 ^ 62 + Samples.hour)%Z (- 2 ^ 62)%Z);
    try reflexivity.
  vm_compute. discriminate.
Defined.

End PriorRow.

(* ================================================================= *)
(** * Further properties of the reconciler *)
(* ================================================================= *)

Module ReconcilerMore.

Import Reconciler ReconcilerObs ReconcilerFacts.
Local Open Scope string_scope.
Local Open Scope list_scope.

Lemma fetched_nonempty env x l :
  fetched env = Returned (Some (x :: l)) ->
  spaces_client env = Returned true
  /\ get_object env = Returned (Some (Reads (Table (x :: l)))).
Proof.
  unfold fetched. destruct (spaces_client env) as [[|]|e]; try discriminate.
  destruct (get_object env) as [[[[ | raw | rows]|e]|]|e]; try discriminate.
  intros H. injection H as ->. auto.
Qed.

Lemma local_frame_nonempty w x l :
  local_frame w = x :: l -> local_csv w = Some (Table (x :: l)).
Proof.
  unfold local_frame.
  destruct (local_csv w) as [[ | raw | rows]|]; try discriminate.
  now intros ->.
Qed.

(** X9. What [load_data] raises and what it returns.  It raises exactly
    when building the client raises, or when the object is found and
    reading its body raises: these two steps sit outside every [try]
    block, and the exception is theirs.  Every other failure (a cache that
    is missing or does not parse, a store that cannot be reached or refuses
    the request, an object that does not parse, an upload that fails) ends
    in a returned log, which is either the one read from the local cache
    (empty when the cache is missing or unreadable) or the one the store
    answered with. *)
Theorem load_data_outcomes (env : Env) (w : World) :
  (forall e,
     fst (load_data env w) = Raised e <->
     spaces_client env = Raised e
     \/ (spaces_client env = Returned true
         /\ get_object env = Returned (Some (ReadRaises e))))
  /\ (forall rows,
        fst (load_data env w) = Returned rows ->
        local_csv w = Some (Table rows)
        \/ rows = []
        \/ (spaces_client env = Returned true
            /\ get_object env = Returned (Some (Reads (Table rows))))).
Proof.
  rewrite load_data_eq. cbn zeta.
  assert (Hl : local_csv w = Some (Table (local_frame w))
               \/ local_frame w = []).
  { unfold local_frame. destruct (local_csv w) as [[ | raw | rows]|]; auto. }
  split.
  - intros e. rewrite <- fetched_raised.
    destruct (fetched env) as [[[|x rows]|]|e0]; cbn [empty negb].
    + destruct (local_frame w); cbn [empty negb fst];
        split; discriminate.
    + split; discriminate.
    + destruct (local_exists w && spaces_enabled (config env)); cbn [fst];
        split; discriminate.
    + cbn. split; intros H; injection H as ->; reflexivity.
  - intros rows.
    destruct (fetched env) as [[[|x remote]|]|e0] eqn:Ef; cbn [empty negb].
    + destruct (local_frame w) as [|y l] eqn:El; cbn [empty negb fst];
        intros H; injection H as <-; [ auto | ].
      left. apply local_frame_nonempty in El. exact El.
    + cbn [fst]. intros H. injection H as <-.
      right. right. now apply fetched_nonempty.
    + destruct (local_exists w && spaces_enabled (config env)); cbn [fst];
        intros H; injection H as <-; tauto.
    + discriminate.
Qed.

(** The object is found and the connection fails while its body is read:
    [load_data] raises, whatever the local cache holds. *)
Lemma load_data_outcomes_witness :
  fst (load_data Samples.store_body_unreadable
         (Samples.world_with (Table Samples.local_rows)))
  = Raised (Exception "ReadTimeoutError").
Proof.
  apply (proj1 (load_data_outcomes Samples.store_body_unreadable
                  (Samples.world_with (Table Samples.local_rows)))).
  right. split; reflexivity.
Defined.

(** X10. After [load_data], the cache agrees with a non-empty result: if
    the returned log has rows, the local cache file holds exactly that
    log. *)
Theorem load_data_cache_agrees
    (env : Env) (w : World) (rows : list Measurement) :
  fst (load_data env w) = Returned rows ->
  rows <> [] ->
  local_csv (snd (load_data env w)) = Some (to_csv rows).
Proof.
  rewrite load_data_eq. cbn zeta.
  assert (Hkeep : forall x l,
             local_frame w = x :: l ->
             local_csv (after_local_read w) = Some (Table (x :: l))).
  { intros x l El. apply local_frame_nonempty in El.
    unfold after_local_read. now rewrite El. }
  destruct (fetched env) as [[[|x remote]|]|e]; cbn [empty negb].
  - destruct (local_frame w) as [|y l] eqn:El; cbn [empty negb fst snd];
      intros H Hne; injection H as <-; [ contradiction | ].
    cbn. now apply Hkeep.
  - cbn [fst snd]. intros H _. injection H as <-. reflexivity.
  - intros H Hne.
    destruct (local_frame w) as [|y l] eqn:El;
      [ destruct (local_exists w && spaces_enabled (config env));
        cbn [fst] in H; injection H as <-; contradiction | ].
    destruct (local_exists w && spaces_enabled (config env));
      cbn [fst snd] in *; injection H as <-; cbn; now apply Hkeep.
  - discriminate.
Qed.

Lemma load_data_cache_agrees_witness :
  local_csv (snd (load_data Samples.store_read_fails
                    (Samples.world_with (Table Samples.local_rows))))
  = Some (Table Samples.local_rows).
Proof.
  apply (load_data_cache_agrees Samples.store_read_fails
           (Samples.world_with (Table Samples.local_rows))).
  - reflexivity.
  - discriminate.
Defined.

(** X11. Seeding.  With sync on, the store answering with an object that
    holds no rows (no body, nothing to parse, or a header-only table) and a
    local cache with rows, [load_data] returns the local rows, leaves the
    cache as it is, and uploads the local log: the one thing it adds to
    the history is the upload, or the warning when the upload raises. *)
Theorem load_data_seeds_empty_store
    (env : Env) (w : World) (rows : list Measurement) :
  spaces_client env = Returned true ->
  (get_object env = Returned None
   \/ get_object env = Returned (Some (Reads Blank))
   \/ get_object env = Returned (Some (Reads (Table [])))) ->
  local_csv w = Some (Table rows) ->
  rows <> [] ->
  load_data env w =
  (Returned rows,
   {| local_csv := Some (Table rows);
      events := events w
                ++ match put_object env (to_csv rows) with
                   | Returned _ => [RemotePut (to_csv rows)]
                   | Raised _ => [Warning upload_failed]
                   end |}).
Proof.
  intros Hc Hg Hl Hne. rewrite load_data_eq. cbn zeta.
  assert (Hf : fetched env = Returned (Some [])).
  { unfold fetched. rewrite Hc. destruct Hg as [-> | [-> | ->]]; reflexivity. }
  assert (Hv : fetch_events env = []).
  { unfold fetch_events. rewrite Hc.
    destruct Hg as [-> | [-> | ->]]; reflexivity. }
  assert (Hr : after_local_read w = w).
  { unfold after_local_read. now rewrite Hl. }
  assert (Hlf : local_frame w = rows).
  { unfold local_frame. now rewrite Hl. }
  rewrite Hf, Hv, Hr, Hlf, add_events_nil. cbn [empty negb].
  destruct rows as [|x rows]; [ contradiction | ]. cbn [empty negb].
  unfold add_events, push_events. rewrite Hc, Hl. reflexivity.
Qed.

Lemma load_data_seeds_empty_store_witness :
  load_data Samples.store_empty
    (Samples.world_with (Table Samples.local_rows))
  = (Returned Samples.local_rows,
     {| local_csv := Some (Table Samples.local_rows);
        events := [RemotePut (Table Samples.local_rows)] |}).
Proof.
  apply (load_data_seeds_empty_store Samples.store_empty
           (Samples.world_with (Table Samples.local_rows))
           (rows := Samples.local_rows)).
  - reflexivity.
  - right. right. reflexivity.
  - reflexivity.
  - discriminate.
Defined.

(** X12. Fallback.  With sync on and the read from the store raising (a
    missing object included), [load_data] returns the local log and
    attempts to upload it whenever the cache file exists, even when the
    cache holds no rows or could not be read, in which case it is the empty
    log that is uploaded.  The result does not depend on how the upload
    ends. *)
Theorem load_data_falls_back_and_uploads
    (env : Env) (w : World) (e : Exn) (a : Artifact) :
  spaces_client env = Returned true ->
  get_object env = Raised e ->
  local_csv w = Some a ->
  let rows := match a with Table rows => rows | _ => [] end in
  fst (load_data env w) = Returned rows
  /\ (put_object env (to_csv rows) = Returned tt ->
      In (RemotePut (to_csv rows)) (events (snd (load_data env w))))
  /\ (forall e', put_object env (to_csv rows) = Raised e' ->
      In (Warning upload_failed) (events (snd (load_data env w)))).
Proof.
  intros Hc Hg Hl rows. rewrite load_data_eq. cbn zeta.
  assert (He : spaces_enabled (config env) = true)
    by now apply spaces_client_enabled.
  assert (Hf : fetched env = Returned None).
  { unfold fetched. now rewrite Hc, Hg. }
  assert (Hlf : local_frame w = rows).
  { unfold local_frame. rewrite Hl. subst rows. now destruct a. }
  assert (Hx : local_exists w = true).
  { unfold local_exists. now rewrite Hl. }
  rewrite Hf, Hx, He, Hlf. cbn [andb fst snd].
  split; [ reflexivity | ].
  unfold add_events at 1. cbn [events]. unfold push_events. rewrite Hc.
  split.
  - intros Hp. rewrite Hp. apply in_or_app. right. now left.
  - intros e' Hp. rewrite Hp. apply in_or_app. right. now left.
Qed.

(** An unparsable cache and a read that times out: the empty log is
    uploaded over whatever the store holds. *)
Lemma load_data_falls_back_and_uploads_witness :
  fst (load_data Samples.store_read_fails
         (Samples.world_with (Corrupt Samples.ragged_csv)))
  = Returned []
  /\ In (RemotePut (Table []))
        (events (snd (load_data Samples.store_read_fails
                        (Samples.world_with (Corrupt Samples.ragged_csv))))).
Proof.
  destruct (load_data_falls_back_and_uploads Samples.store_read_fails
              (Samples.world_with (Corrupt Samples.ragged_csv))
              (e := Exception "ReadTimeoutError")
              (a := Corrupt Samples.ragged_csv) eq_refl eq_refl eq_refl)
    as (Hr & Hp & _).
  split; [ exact Hr | exact (Hp eq_refl) ].
Defined.

(** X13. With sync off (or [boto3] missing) [load_data] is a plain read of
    the cache: a readable cache is returned and nothing changes, and a
    missing cache gives the empty log without a file being created. *)
Theorem load_data_sync_off (env : Env) (w : World) :
  spaces_client env = Returned false ->
  (local_csv w = None -> load_data env w = (Returned [], w))
  /\ (forall rows, local_csv w = Some (Table rows) ->
      load_data env w = (Returned rows, w)).
Proof.
  intros Hc.
  assert (Hf : fetched env = Returned None)
    by (unfold fetched; now rewrite Hc).
  assert (Hv : fetch_events env = [])
    by (unfold fetch_events; now rewrite Hc).
  assert (Hp : forall df, push_events env df = [])
    by (intros df; unfold push_events; now rewrite Hc).
  split.
  - intros Hl. rewrite load_data_eq. cbn zeta.
    rewrite Hf, Hv, Hp. unfold local_frame, local_exists, after_local_read.
    rewrite Hl. cbn [andb]. now rewrite add_events_nil.
  - intros rows Hl. rewrite load_data_eq. cbn zeta.
    rewrite Hf, Hv, Hp. unfold local_frame, local_exists, after_local_read.
    rewrite Hl. rewrite !add_events_nil.
    destruct (true && spaces_enabled (config env)); reflexivity.
Qed.

Lemma load_data_sync_off_witness :
  load_data Samples.sync_off (Samples.world_with (Table Samples.local_rows))
  = (Returned Samples.local_rows,
     Samples.world_with (Table Samples.local_rows)).
Proof.
  apply (load_data_sync_off Samples.sync_off
           (Samples.world_with (Table Samples.local_rows)) eq_refl).
  reflexivity.
Defined.

(** X14. The local write of [save_data] comes first and is kept in every
    outcome, the one in which [save_data] raises included: afterwards the
    cache holds the log, and nothing written later replaces it.
    [save_data] returns whenever the client is built or not wanted; what
    it then adds after the local write is nothing with sync off, the
    record of the upload when that goes through, and exactly one warning
    when the upload raises. *)
Theorem save_data_local_write_is_kept
    (df : list Measurement) (env : Env) (w : World) :
  local_csv (snd (save_data df env w)) = Some (to_csv df)
  /\ (exists rest,
        events (snd (save_data df env w))
        = events w ++ LocalWrite (to_csv df) :: rest
        /\ forall a, ~ In (LocalWrite a) rest)
  /\ (forall b, spaces_client env = Returned b ->
        fst (save_data df env w) = Returned tt)
  /\ (spaces_client env = Returned false ->
        events (snd (save_data df env w))
        = events w ++ [LocalWrite (to_csv df)])
  /\ (spaces_client env = Returned true ->
        put_object env (to_csv df) = Returned tt ->
        events (snd (save_data df env w))
        = events w ++ [LocalWrite (to_csv df); RemotePut (to_csv df)])
  /\ (spaces_client env = Returned true ->
        forall e, put_object env (to_csv df) = Raised e ->
        events (snd (save_data df env w))
        = events w ++ [LocalWrite (to_csv df); Warning upload_failed]).
Proof.
  destruct (save_data_local_write df env w) as [Hl Hrest].
  split; [ exact Hl | ]. split; [ exact Hrest | ].
  split; [ | split; [ | split ] ].
  - intros b Hc. now rewrite (@save_data_returns df env w b Hc).
  - intros Hc. rewrite (@save_data_returns df env w false Hc).
    unfold push_events. now rewrite Hc.
  - intros Hc Hp. rewrite (@save_data_returns df env w true Hc).
    unfold push_events. now rewrite Hc, Hp.
  - intros Hc e Hp. rewrite (@save_data_returns df env w true Hc).
    unfold push_events. now rewrite Hc, Hp.
Qed.

(** With every call to the store failing, the log is saved locally and the
    failure is a warning. *)
Lemma save_data_local_write_is_kept_witness :
  local_csv (snd (save_data Samples.local_rows Samples.store_unreachable
                    (Samples.world_with (Table []))))
  = Some (Table Samples.local_rows)
  /\ events (snd (save_data Samples.local_rows Samples.store_unreachable
                    (Samples.world_with (Table []))))
     = [LocalWrite (Table Samples.local_rows); Warning upload_failed].
Proof.
  destruct (save_data_local_write_is_kept Samples.local_rows
              Samples.store_unreachable (Samples.world_with (Table [])))
    as (Hl & _ & _ & _ & _ & Hw).
  split; [ exact Hl | ].
  exact (Hw eq_refl (Exception "EndpointConnectionError") eq_refl).
Defined.

(** X21. A save whose upload fails does not survive the next load when the
    store still holds rows: the local write is kept by [save_data], but
    [load_data] then returns the older remote log and overwrites the cache
    with it, so the saved log is gone from both sides. *)
Theorem failed_upload_is_lost_on_load
    (df : list Measurement) (env : Env) (w : World)
    (remote : list Measurement) (e : Exn) :
  spaces_client env = Returned true ->
  get_object env = Returned (Some (Reads (Table remote))) ->
  remote <> [] ->
  put_object env (to_csv df) = Raised e ->
  local_csv (snd (save_data df env w)) = Some (to_csv df)
  /\ fst (load_data env (snd (save_data df env w))) = Returned remote
  /\ local_csv (snd (load_data env (snd (save_data df env w))))
     = Some (to_csv remote).
Proof.
  intros Hc Hg Hne Hp.
  rewrite (@save_data_returns df env w true Hc).
  cbn [snd local_csv]. split; [ reflexivity | ].
  rewrite load_data_eq. cbn zeta.
  assert (Hf : fetched env = Returned (Some remote))
    by (unfold fetched; now rewrite Hc, Hg).
  rewrite Hf. destruct remote as [|x remote]; [ contradiction | ].
  cbn [empty negb fst snd]. split; reflexivity.
Qed.

Lemma failed_upload_is_lost_on_load_witness :
  fst (load_data Samples.store_rejects_uploads
         (snd (save_data Samples.local_rows Samples.store_rejects_uploads
                 (Samples.world_with (Table [])))))
  = Returned Samples.remote_rows.
Proof.
  destruct (failed_upload_is_lost_on_load Samples.local_rows
              Samples.store_rejects_uploads (Samples.world_with (Table []))
              (remote := Samples.remote_rows)
              (e := ClientError (Some "AccessDenied"))
              eq_refl eq_refl) as (_ & H & _).
  - discriminate.
  - reflexivity.
  - exact H.
Defined.

End ReconcilerMore.

(* ================================================================= *)
(** * Remote calls, one at a time *)
(* ================================================================= *)

Module RemoteCalls.

Import Reconciler ReconcilerObs ReconcilerFacts.
Local Open Scope string_scope.
Local Open Scope list_scope.

(** X15. [load_data_from_spaces] never touches the local cache.  An
    exception of the construction of the client escapes it, and so does an
    exception of reading the body of the object; neither is reported.  With
    sync off it answers "no frame".  With the client built: a missing
    object (error code 404, NoSuchKey or NotFound) is not an error, the
    answer is "no frame" and nothing is reported; any other exception of
    [get_object], and an object that does not parse, give "no frame" with
    exactly one warning; an object without content is an empty frame. *)
Theorem load_data_from_spaces_outcomes (env : Env) (w : World) :
  (forall e,
     spaces_client env = Raised e ->
     load_data_from_spaces env w = (Raised e, w))
  /\ (spaces_client env = Returned false ->
      load_data_from_spaces env w = (Returned None, w))
  /\ (spaces_client env = Returned true ->
      (forall e,
         get_object env = Returned (Some (ReadRaises e)) ->
         load_data_from_spaces env w = (Raised e, w))
      /\ (forall code,
            get_object env = Raised (ClientError (Some code)) ->
            In code ["404"; "NoSuchKey"; "NotFound"] ->
            load_data_from_spaces env w = (Returned None, w))
      /\ (forall e,
            get_object env = Raised e ->
            (forall code, e = ClientError (Some code) ->
                          ~ In code ["404"; "NoSuchKey"; "NotFound"]) ->
            exists msg,
              load_data_from_spaces env w =
              (Returned None,
               {| local_csv := local_csv w;
                  events := events w ++ [Warning msg] |}))
      /\ (forall raw,
            get_object env = Returned (Some (Reads (Corrupt raw))) ->
            load_data_from_spaces env w =
            (Returned None,
             {| local_csv := local_csv w;
                events := events w
                          ++ [Warning "Unable to parse CSV from DigitalOcean Spaces."] |}))
      /\ (get_object env = Returned None
          \/ get_object env = Returned (Some (Reads Blank)) ->
          load_data_from_spaces env w = (Returned (Some []), w))
      /\ (forall rows,
            get_object env = Returned (Some (Reads (Table rows))) ->
            load_data_from_spaces env w = (Returned (Some rows), w))).
Proof.
  rewrite load_data_from_spaces_eq.
  unfold fetched, fetch_events, add_events.
  split; [ | split ].
  - intros e ->. rewrite app_nil_r. destruct w; reflexivity.
  - intros ->. rewrite app_nil_r. destruct w; reflexivity.
  - intros ->. repeat split.
    + intros e ->. rewrite app_nil_r. destruct w; reflexivity.
    + intros code -> Hin. cbn in Hin.
      assert (E : not_found_code (Some code) = true).
      { destruct Hin as [<- | [<- | [<- | []]]]; reflexivity. }
      rewrite E, app_nil_r. destruct w; reflexivity.
    + intros e -> Hne.
      destruct e as [[code|]| | |what]; try (eexists; reflexivity).
      assert (E : not_found_code (Some code) = false).
      { specialize (Hne code eq_refl). cbn in Hne. cbn.
        destruct (String.eqb_spec code "404"); [ subst; tauto | ].
        destruct (String.eqb_spec code "NoSuchKey"); [ subst; tauto | ].
        destruct (String.eqb_spec code "NotFound"); [ subst; tauto | ].
        reflexivity. }
      rewrite E. eauto.
    + intros raw ->. reflexivity.
    + intros [-> | ->]; rewrite app_nil_r; destruct w; reflexivity.
    + intros rows ->. rewrite app_nil_r. destruct w; reflexivity.
Qed.

Lemma load_data_from_spaces_outcomes_witness :
  load_data_from_spaces Samples.store_without_object (Samples.world_with Blank)
  = (Returned None, Samples.world_with Blank)
  /\ load_data_from_spaces Samples.store_bad_endpoint (Samples.world_with Blank)
     = (Raised (Exception "ValueError"), Samples.world_with Blank)
  /\ load_data_from_spaces Samples.store_body_unreadable
       (Samples.world_with Blank)
     = (Raised (Exception "ReadTimeoutError"), Samples.world_with Blank).
Proof.
  split; [ | split ].
  - destruct (load_data_from_spaces_outcomes Samples.store_without_object
                (Samples.world_with Blank)) as (_ & _ & H).
    apply (proj1 (proj2 (H eq_refl)) "NoSuchKey").
    + reflexivity.
    + right. left. reflexivity.
  - apply (proj1 (load_data_from_spaces_outcomes Samples.store_bad_endpoint
                    (Samples.world_with Blank))).
    reflexivity.
  - destruct (load_data_from_spaces_outcomes Samples.store_body_unreadable
                (Samples.world_with Blank)) as (_ & _ & H).
    apply (proj1 (H eq_refl)). reflexivity.
Defined.

(** X16. [save_data_to_spaces] never touches the local cache.  An
    exception of the construction of the client escapes it, unreported.
    Otherwise it returns: it answers [True] exactly when sync is usable and
    the upload went through, and with sync off it does nothing at all. *)
Theorem save_data_to_spaces_outcome
    (df : list Measurement) (env : Env) (w : World) :
  (forall e,
     spaces_client env = Raised e ->
     save_data_to_spaces df env w = (Raised e, w))
  /\ (forall b,
        spaces_client env = Returned b ->
        exists ok w',
          save_data_to_spaces df env w = (Returned ok, w')
          /\ local_csv w' = local_csv w
          /\ (ok = true <->
              b = true /\ put_object env (to_csv df) = Returned tt)
          /\ (b = false -> w' = w)).
Proof.
  split.
  - intros e Hc. now apply save_data_to_spaces_raises.
  - intros b Hc. unfold save_data_to_spaces, bind at 1, lift at 1.
    rewrite Hc. destruct b; cbn [negb].
    + unfold try_except, bind, lift, emit, warning, ret.
      destruct (put_object env (to_csv df)) as [[]|e]; cbn;
        do 2 eexists; (split; [ reflexivity | ]); cbn;
        (split; [ reflexivity | ]); split; try discriminate.
      * tauto.
      * split; [ discriminate | intros [_ H]; discriminate H ].
    + exists false, w. unfold ret. repeat split; try discriminate.
      intros [H _]. discriminate H.
Qed.

Lemma save_data_to_spaces_outcome_witness :
  save_data_to_spaces Samples.local_rows Samples.store_bad_endpoint
    (Samples.world_with (Table []))
  = (Raised (Exception "ValueError"), Samples.world_with (Table [])).
Proof.
  apply (proj1 (save_data_to_spaces_outcome Samples.local_rows
                  Samples.store_bad_endpoint (Samples.world_with (Table [])))).
  reflexivity.
Defined.

End RemoteCalls.

(* ================================================================= *)
(** * Further properties of the outside provider *)
(* ================================================================= *)

Module OutsideMore.

Import Outside OutsideObs.
Local Open Scope string_scope.
Local Open Scope list_scope.

(** X17. Every outcome of [fetch_outside_conditions], told from the
    response.  It raises only [AttributeError], and only for a 200 response
    whose decoded document is not an object or whose "current" member is
    truthy without being an object.  It returns a snapshot only for a 200
    response that is an object with a non-empty object under "current", and
    the snapshot holds the four members of that object, [None] standing for
    each one that is absent.  Everything else gives [None]. *)
Theorem fetch_outside_conditions_outcomes (net : Network) :
  match fetch_outside_conditions net with
  | Raised e =>
      e = AttributeError
      /\ exists v,
           net = Response 200 (JsonText v)
           /\ (is_object v = false
               \/ exists members,
                    v = JObject members
                    /\ truthy (dict_get members "current") = true
                    /\ is_object (dict_get members "current") = false)
  | Returned (Some s) =>
      exists members current,
        net = Response 200 (JsonText (JObject members))
        /\ dict_get members "current" = JObject current
        /\ current <> []
        /\ s = {| time := dict_get current "time";
                  temp_c := dict_get current "temperature_2m";
                  rh := dict_get current "relative_humidity_2m";
                  dew_point_c := dict_get current "dew_point_2m" |}
  | Returned None =>
      (exists what, net = UrlopenRaises what)
      \/ (exists status payload,
            net = Response status payload /\ status <> 200%Z)
      \/ net = Response 200 NotJson
      \/ (exists members,
            net = Response 200 (JsonText (JObject members))
            /\ truthy (dict_get members "current") = false)
  end.
Proof.
  destruct net as [what | status payload].
  - cbn. left. eauto.
  - unfold fetch_outside_conditions, guarded_request. cbn [urlopen].
    destruct (Z.eqb_spec status 200) as [-> | Hs]; cbn [negb].
    + destruct payload as [|v]; cbn [json_load].
      * right. right. left. reflexivity.
      * destruct v as [ |b|n|x|s|items|members]; cbn [py_get];
          try (split; [ reflexivity | ]; eexists; split; [ reflexivity | ];
               left; reflexivity).
        destruct (dict_get members "current") as [ |b|n|x|s|items|current]
          eqn:Ec; cbn [truthy].
        -- right. right. right. exists members. rewrite Ec. auto.
        -- destruct b; cbn [negb py_get].
           ++ split; [ reflexivity | ]. eexists. split; [ reflexivity | ].
              right. exists members. rewrite Ec. auto.
           ++ right. right. right. exists members. rewrite Ec. auto.
        -- destruct (n =? 0)%Z eqn:En; cbn [negb py_get].
           ++ right. right. right. exists members. rewrite Ec. cbn.
              rewrite En. auto.
           ++ split; [ reflexivity | ]. eexists. split; [ reflexivity | ].
              right. exists members. rewrite Ec. cbn. rewrite En. auto.
        -- destruct (PrimFloat.eqb x 0) eqn:En; cbn [negb py_get].
           ++ right. right. right. exists members. rewrite Ec. cbn.
              rewrite En. auto.
           ++ split; [ reflexivity | ]. eexists. split; [ reflexivity | ].
              right. exists members. rewrite Ec. cbn. rewrite En. auto.
        -- destruct (String.eqb s "") eqn:En; cbn [negb py_get].
           ++ right. right. right. exists members. rewrite Ec. cbn.
              rewrite En. auto.
           ++ split; [ reflexivity | ]. eexists. split; [ reflexivity | ].
              right. exists members. rewrite Ec. cbn. rewrite En. auto.
        -- destruct items as [|i items]; cbn [negb py_get].
           ++ right. right. right. exists members. rewrite Ec. auto.
           ++ split; [ reflexivity | ]. eexists. split; [ reflexivity | ].
              right. exists members. rewrite Ec. auto.
        -- destruct current as [|kv current]; cbn [negb py_get].
           ++ right. right. right. exists members. rewrite Ec. auto.
           ++ exists members, (kv :: current). rewrite Ec.
              repeat split. discriminate.
    + right. left. eauto.
Qed.

End OutsideMore.

(* ================================================================= *)
(** * Spaces settings *)
(* ================================================================= *)

Module SettingsFacts.

Import Settings.
Local Open Scope string_scope.
Local Open Scope list_scope.

Section DropLeading.

Variable t1 : ascii -> bool.
Variable t2 : ascii -> ascii -> bool.
Variable t3 : ascii -> ascii -> ascii -> bool.

Local Abbreviation drop := (drop_leading t1 t2 t3).

(** What is dropped is a prefix. *)
Lemma drop_leading_suffix_bounded n :
  forall s, (List.length s <= n)%nat -> exists h, s = h ++ drop s.
Proof.
  induction n as [|n IH]; intros s Hn.
  - destruct s; [ exists []; reflexivity | cbn in Hn; lia ].
  - destruct s as [|c1 s1]; [ exists []; reflexivity | ].
    cbn in Hn. cbn [drop_leading].
    destruct (t1 c1).
    { destruct (IH s1) as [h Hh]; [ lia | ].
      exists (c1 :: h). cbn. now rewrite <- Hh. }
    destruct s1 as [|c2 s2]; [ exists []; reflexivity | ].
    cbn in Hn.
    destruct (t2 c1 c2).
    { destruct (IH s2) as [h Hh]; [ lia | ].
      exists (c1 :: c2 :: h). cbn. now rewrite <- Hh. }
    destruct s2 as [|c3 s3]; [ exists []; reflexivity | ].
    cbn in Hn.
    destruct (t3 c1 c2 c3).
    { destruct (IH s3) as [h Hh]; [ lia | ].
      exists (c1 :: c2 :: c3 :: h). cbn. now rewrite <- Hh. }
    exists []. reflexivity.
Qed.

Lemma drop_leading_suffix s : exists h, s = h ++ drop s.
Proof. apply (drop_leading_suffix_bounded (n := List.length s)). lia. Qed.

Lemma drop_leading_length s : (List.length (drop s) <= List.length s)%nat.
Proof.
  destruct (drop_leading_suffix s) as [h Hh].
  rewrite Hh at 2. rewrite length_app. lia.
Qed.

Lemma drop_leading_idem_bounded n :
  forall s, (List.length s <= n)%nat -> drop (drop s) = drop s.
Proof.
  induction n as [|n IH]; intros s Hn.
  - destruct s; [ reflexivity | cbn in Hn; lia ].
  - destruct s as [|c1 s1]; [ reflexivity | ].
    cbn in Hn. cbn [drop_leading].
    destruct (t1 c1) eqn:E1; [ apply IH; lia | ].
    destruct s1 as [|c2 s2]; [ cbn; now rewrite E1 | ].
    cbn in Hn.
    destruct (t2 c1 c2) eqn:E2; [ apply IH; lia | ].
    destruct s2 as [|c3 s3]; [ cbn; now rewrite E1, E2 | ].
    cbn in Hn.
    destruct (t3 c1 c2 c3) eqn:E3; [ apply IH; lia | ].
    cbn. now rewrite E1, E2, E3.
Qed.

Lemma drop_leading_idem s : drop (drop s) = drop s.
Proof. apply (drop_leading_idem_bounded (n := List.length s)). lia. Qed.

(** A text that keeps its head keeps it when cut short. *)
Lemma drop_leading_prefix_fixed p t : drop (p ++ t) = p ++ t -> drop p = p.
Proof.
  intros H.
  assert (Hshort : forall q, (List.length q < List.length (p ++ t))%nat ->
                             drop q <> p ++ t).
  { intros q Hq E. pose proof (drop_leading_length q) as L.
    rewrite E in L. lia. }
  destruct p as [|c1 p1]; [ reflexivity | ].
  cbn [app drop_leading] in H |- *.
  destruct (t1 c1).
  { exfalso. apply (Hshort (p1 ++ t)); [ cbn; lia | exact H ]. }
  destruct p1 as [|c2 p2]; [ reflexivity | ].
  cbn [app] in H |- *.
  destruct (t2 c1 c2).
  { exfalso. apply (Hshort (p2 ++ t)); [ cbn; lia | exact H ]. }
  destruct p2 as [|c3 p3]; [ reflexivity | ].
  cbn [app] in H |- *.
  destruct (t3 c1 c2 c3); [ | reflexivity ].
  exfalso. apply (Hshort (p3 ++ t)); [ cbn; lia | exact H ].
Qed.

End DropLeading.

Lemma rstrip_bytes_prefix u : exists t, u = rstrip_bytes u ++ t.
Proof.
  unfold rstrip_bytes.
  destruct (drop_leading_suffix space1 (fun a b => space2 b a)
              (fun a b c => space3 c b a) (rev u)) as [h Hh].
  exists (rev h).
  rewrite <- rev_app_distr, <- Hh. symmetry. apply rev_involutive.
Qed.

Lemma rstrip_bytes_idem u : rstrip_bytes (rstrip_bytes u) = rstrip_bytes u.
Proof.
  unfold rstrip_bytes. now rewrite rev_involutive, drop_leading_idem.
Qed.

Lemma strip_bytes_idem s : strip_bytes (strip_bytes s) = strip_bytes s.
Proof.
  unfold strip_bytes.
  assert (H : lstrip_bytes (rstrip_bytes (lstrip_bytes s))
              = rstrip_bytes (lstrip_bytes s)).
  { destruct (rstrip_bytes_prefix (lstrip_bytes s)) as [t Ht].
    unfold lstrip_bytes at 1.
    apply drop_leading_prefix_fixed with (t := t).
    rewrite <- Ht. apply drop_leading_idem. }
  rewrite H. apply rstrip_bytes_idem.
Qed.

(** Stripping what is already stripped changes nothing. *)
Lemma strip_idem s : strip (strip s) = strip s.
Proof.
  unfold strip. rewrite list_ascii_of_string_of_list_ascii.
  now rewrite strip_bytes_idem.
Qed.

Lemma str_or_strip_idem x d :
  strip d = d -> d <> "" ->
  str_or (strip (str_or (strip x) d)) d = str_or (strip x) d.
Proof.
  intros Hd Hne. unfold str_or.
  destruct (String.eqb_spec (strip x) "") as [E | E].
  - rewrite Hd. now destruct (String.eqb_spec d "").
  - rewrite strip_idem. now destruct (String.eqb_spec (strip x) "").
Qed.

Lemma str_or_nonempty a d : d <> "" -> str_or a d <> "".
Proof.
  intros Hd. unfold str_or.
  now destruct (String.eqb_spec a "").
Qed.

(** A normalised configuration, read back as a dictionary, normalises to
    itself. *)
Lemma normalize_again (config : option RawConfig) :
  normalize_spaces_config (Some (as_dict (normalize_spaces_config config)))
  = normalize_spaces_config config.
Proof.
  unfold normalize_spaces_config, as_dict. cbn [get_or raw_bucket raw_region
    raw_endpoint raw_object_key raw_access_key_id raw_secret_access_key
    Reconciler.bucket Reconciler.region Reconciler.endpoint
    Reconciler.object_key Reconciler.access_key_id
    Reconciler.secret_access_key].
  rewrite !strip_idem.
  rewrite !str_or_strip_idem by (reflexivity || discriminate).
  reflexivity.
Qed.

(** X18. Normalising a configuration twice is normalising it once: the
    configuration kept in the session, normalised again on every read,
    does not move.  After normalisation the region and the object key are
    never empty: a missing or blank one is replaced by its default. *)
Theorem normalize_spaces_config_stable (config : option RawConfig) :
  normalize_spaces_config (Some (as_dict (normalize_spaces_config config)))
  = normalize_spaces_config config
  /\ Reconciler.region (normalize_spaces_config config) <> ""
  /\ Reconciler.object_key (normalize_spaces_config config) <> "".
Proof.
  split; [ apply normalize_again | ].
  split; apply str_or_nonempty; discriminate.
Qed.

(** X19. Sync is enabled exactly when the bucket, the access key and the
    secret key of the configuration in force each hold something besides
    white space; the object key cannot switch it off, since normalisation
    never leaves it empty. *)
Theorem spaces_enabled_iff
    (config : option RawConfig) (session : Reconciler.SpacesConfig) :
  spaces_enabled config session = true <->
  Reconciler.bucket (active_config config session) <> ""
  /\ Reconciler.access_key_id (active_config config session) <> ""
  /\ Reconciler.secret_access_key (active_config config session) <> "".
Proof.
  unfold spaces_enabled, Reconciler.spaces_enabled, Reconciler.nonempty.
  assert (Hk : String.eqb
                 (Reconciler.object_key (active_config config session)) ""
               = false).
  { apply String.eqb_neq. apply str_or_nonempty. discriminate. }
  rewrite Hk. cbn [negb]. rewrite andb_true_r.
  rewrite !andb_true_iff, !negb_true_iff, !String.eqb_neq. tauto.
Qed.

(** For the session's own configuration, already normalised, the test is
    the one the reconciler applies to it. *)
Lemma spaces_enabled_of_session (c0 : option RawConfig) :
  spaces_enabled (Some (as_dict (normalize_spaces_config c0)))
    (normalize_spaces_config c0)
  = Reconciler.spaces_enabled (normalize_spaces_config c0).
Proof.
  unfold spaces_enabled, active_config, config_or_session.
  destruct (is_empty_dict (as_dict (normalize_spaces_config c0)));
    f_equal; apply normalize_again.
Qed.

(** X20. [spaces_endpoint] always answers with a URL that has a scheme: an
    endpoint that carries one is passed through, one without is given
    [https://], and with no endpoint the regional default host is used,
    the region being never empty. *)
Theorem spaces_endpoint_has_scheme
    (config : option RawConfig) (session : Reconciler.SpacesConfig) :
  contains "://" (spaces_endpoint config session) = true
  /\ (Reconciler.endpoint (active_config config session) = "" ->
      spaces_endpoint config session
      = ("https://" ++ Reconciler.region (active_config config session)
         ++ ".digitaloceanspaces.com")%string
      /\ Reconciler.region (active_config config session) <> "")
  /\ (contains "://" (Reconciler.endpoint (active_config config session))
      = true ->
      spaces_endpoint config session
      = Reconciler.endpoint (active_config config session))
  /\ (Reconciler.endpoint (active_config config session) <> "" ->
      contains "://" (Reconciler.endpoint (active_config config session))
      = false ->
      spaces_endpoint config session
      = ("https://" ++ Reconciler.endpoint (active_config config session))
          %string).
Proof.
  unfold spaces_endpoint. cbn zeta.
  set (endpoint := Reconciler.endpoint (active_config config session)).
  split; [ | split; [ | split ] ].
  - destruct (String.eqb_spec endpoint ""); cbn [negb]; [ reflexivity | ].
    destruct (contains "://" endpoint) eqn:E; [ exact E | reflexivity ].
  - intros ->. split; [ reflexivity | ].
    apply str_or_nonempty. discriminate.
  - intros E. destruct (String.eqb_spec endpoint "") as [E0 | _]; cbn [negb].
    + rewrite E0 in E. discriminate E.
    + now rewrite E.
  - intros Hne E.
    destruct (String.eqb_spec endpoint "") as [E0 | _]; cbn [negb];
      [ contradiction | ].
    now rewrite E.
Qed.

(** The endpoint "bad endpoint" of the settings form is given a scheme and
    handed to the client as it is. *)
Example spaces_endpoint_not_a_url :
  spaces_endpoint None Samples.endpoint_not_a_url = "https://bad endpoint".
Proof. reflexivity. Qed.

Lemma strip_str_or_stripped a b :
  strip b = b -> strip (str_or (strip a) b) = str_or (strip a) b.
Proof.
  intros Hb. unfold str_or.
  destruct (String.eqb (strip a) ""); [ exact Hb | apply strip_idem ].
Qed.

(** X22. Submitting the settings form.  A key field left blank (or filled
    with white space) keeps the access key or the secret key of the current
    configuration, and a filled one replaces it by its stripped text; so
    the form cannot clear stored credentials, and a sync that was enabled
    stays enabled as long as the bucket field is not blank. *)
Theorem submitted_settings_keep_credentials
    (c0 : option RawConfig) (form : SettingsForm) :
  let config := normalize_spaces_config c0 in
  let updated := submitted_settings config form in
  Reconciler.access_key_id updated
  = str_or (strip (form_access_key_id form)) (Reconciler.access_key_id config)
  /\ Reconciler.secret_access_key updated
     = str_or (strip (form_secret_access_key form))
         (Reconciler.secret_access_key config)
  /\ Reconciler.bucket updated = strip (form_bucket form)
  /\ (Reconciler.spaces_enabled config = true ->
      strip (form_bucket form) <> "" ->
      Reconciler.spaces_enabled updated = true).
Proof.
  cbn zeta.
  assert (Ha : Reconciler.access_key_id
                 (submitted_settings (normalize_spaces_config c0) form)
               = str_or (strip (form_access_key_id form))
                   (Reconciler.access_key_id (normalize_spaces_config c0))).
  { cbn. apply strip_str_or_stripped. apply strip_idem. }
  assert (Hs : Reconciler.secret_access_key
                 (submitted_settings (normalize_spaces_config c0) form)
               = str_or (strip (form_secret_access_key form))
                   (Reconciler.secret_access_key
                      (normalize_spaces_config c0))).
  { cbn. apply strip_str_or_stripped. apply strip_idem. }
  split; [ exact Ha | ]. split; [ exact Hs | ].
  split; [ reflexivity | ].
  intros He Hb.
  unfold Reconciler.spaces_enabled, Reconciler.nonempty in *.
  rewrite !andb_true_iff, !negb_true_iff, !String.eqb_neq in *.
  destruct He as [[[_ _] Hak] Hsk].
  rewrite Ha, Hs.
  repeat split.
  - exact Hb.
  - apply str_or_nonempty. discriminate.
  - unfold str_or.
    destruct (String.eqb_spec (strip (form_access_key_id form)) "");
      assumption.
  - unfold str_or.
    destruct (String.eqb_spec (strip (form_secret_access_key form)) "");
      assumption.
Qed.

End SettingsFacts.
